(** * Keyword analysis of the Watson NLU analyzer

    A shallow embedding of
    [src/components/WatsonAnalyzer/hooks/optimization/useKeywordAnalysis.ts]:
    the keyword classifier [checkKeywordStatus] and the mock generator
    [mockAnalysisForKeywords], together with the JavaScript primitives
    they call (string methods, the two regular expressions, the stable
    [Array.prototype.sort], binary64 arithmetic on relevances).

    Strings are sequences of UTF-16 code units.  The development covers
    code units 0..255 (the Latin-1 block), one [ascii] per code unit; on
    this block [toLowerCase] is a per-unit map and keeps the length.
    [console.log] calls are diagnostics and are left out. *)

From Stdlib Require Import Ascii String.
From Stdlib Require Import Bool Arith NArith ZArith List Lia.
From Stdlib Require Import SpecFloat Sorted Permutation.
Import ListNotations.
Local Open Scope list_scope.

Set Implicit Arguments.

(** ** JavaScript strings *)

Module JS.

Definition jsstring := list ascii.

(** A string literal of the source. *)
Definition str (s : string) : jsstring := list_ascii_of_string s.

Definition code (c : ascii) : N := N_of_ascii c.

Definition between (lo hi : N) (c : ascii) : bool :=
  (N.leb lo (code c) && N.leb (code c) hi)%bool.

(** WhiteSpace and LineTerminator of ECMAScript inside Latin-1: TAB, LF,
    VT, FF, CR, SP and NBSP.  [String.prototype.trim] strips them and the
    class escape [\s] matches them. *)
Definition isWhiteSpace (c : ascii) : bool :=
  (between 9 13 c || N.eqb (code c) 32 || N.eqb (code c) 160)%bool.

(** Upper-case letters of Latin-1: A-Z and U+00C0..U+00DE without the
    multiplication sign U+00D7. *)
Definition isUpper (c : ascii) : bool :=
  (between 65 90 c || (between 192 222 c && negb (N.eqb (code c) 215)))%bool.

Definition toLowerChar (c : ascii) : ascii :=
  if isUpper c then ascii_of_N (code c + 32) else c.

(** [String.prototype.toLowerCase] *)
Definition toLowerCase (s : jsstring) : jsstring := map toLowerChar s.

Fixpoint trimStart (s : jsstring) : jsstring :=
  match s with
  | [] => []
  | c :: s' => if isWhiteSpace c then trimStart s' else s
  end.

Definition trimEnd (s : jsstring) : jsstring := rev (trimStart (rev s)).

(** [String.prototype.trim] *)
Definition trim (s : jsstring) : jsstring := trimEnd (trimStart s).

Definition ascii_eqb (a b : ascii) : bool := Ascii.eqb a b.

(** [s === t] on strings *)
Fixpoint streq (s t : jsstring) : bool :=
  match s, t with
  | [], [] => true
  | a :: s', b :: t' => (ascii_eqb a b && streq s' t')%bool
  | _, _ => false
  end.

(** [t] is a prefix of [s] *)
Fixpoint startsWith (s t : jsstring) {struct t} : bool :=
  match t, s with
  | [], _ => true
  | b :: t', a :: s' => (ascii_eqb a b && startsWith s' t')%bool
  | _ :: _, [] => false
  end.

(** [s.includes(t)]: [t] occurs in [s] at some index; the empty string
    occurs in every string. *)
Fixpoint includes (s t : jsstring) : bool :=
  (startsWith s t ||
   match s with
   | [] => false
   | _ :: s' => includes s' t
   end)%bool.

(** [words.join(" ")] *)
Fixpoint join (sep : jsstring) (l : list jsstring) : jsstring :=
  match l with
  | [] => []
  | [w] => w
  | w :: l' => w ++ sep ++ join sep l'
  end.

(** [s.split(/\s+/)]: the pieces between maximal runs of white space.  A
    run at the start or at the end leaves an empty piece there, and the
    empty string splits into one empty piece.  [cur] is the piece being
    read, reversed; [inSep] tells that the last unit was white space. *)
Fixpoint splitAux (s : jsstring) (cur : jsstring) (inSep : bool)
  : list jsstring :=
  match s with
  | [] => [rev cur]
  | c :: s' =>
      if isWhiteSpace c
      then if inSep then splitAux s' [] true
           else rev cur :: splitAux s' [] true
      else splitAux s' (c :: cur) false
  end.

Definition splitWhiteSpace (s : jsstring) : list jsstring :=
  splitAux s [] false.

(** [arr.slice(i, i + j)] for [0 <= i] and [i + j <= arr.length] *)
Definition slice (A : Type) (l : list A) (i j : nat) : list A :=
  firstn j (skipn i l).

(** [arr.some(p)] *)
Definition some (A : Type) (p : A -> bool) (l : list A) : bool := existsb p l.

End JS.
Export JS.

(** ** Completion records

    A call either returns or throws.  The hook takes [results: any], so a
    property read on it throws a [TypeError] when it is [null] or
    [undefined]; [new RegExp] throws a [SyntaxError] on a pattern it
    cannot parse. *)

Inductive JsError := TypeError | SyntaxError.

Inductive Completion (A : Type) : Type :=
| Normal (a : A)
| Throw (e : JsError).

Arguments Normal {A} a.
Arguments Throw {A} e.

Definition bind (A B : Type) (c : Completion A) (k : A -> Completion B)
  : Completion B :=
  match c with
  | Normal a => k a
  | Throw e => Throw e
  end.

Notation "x <- c ;; k" := (bind c (fun x => k))
  (at level 61, c at next level, right associativity).

Definition returns (A : Type) (c : Completion A) : Prop :=
  exists a, c = Normal a.

(** ** Regular expressions

    The fragment of ECMAScript patterns that the two [new RegExp] calls
    build, with the flag [i] and without the flags [g], [m], [u].  The
    matcher follows the continuation semantics of the language
    specification: a node receives the input, the current index and a
    continuation for the rest of the pattern. *)

Module RegExp.

Inductive t :=
| Empty                      (* the empty pattern *)
| Chr (c : ascii)            (* a pattern character or identity escape *)
| Cls (members : list ascii) (* a class or class escape, listed *)
| Bol                        (* ^ *)
| Eol                        (* $ *)
| WordB                      (* \b *)
| Seq (r1 r2 : t)
| Alt (r1 r2 : t).

(** [\w] *)
Definition isWordChar (c : ascii) : bool :=
  (between 97 122 c || between 65 90 c || between 48 57 c
   || N.eqb (code c) 95)%bool.

(** Canonicalize under the flag [i] without [u]: the code unit of
    [toUpperCase] when that is one unit, else the unit itself.  The sharp
    s upper-cases to two units and stays; the micro sign and y with
    diaeresis upper-case outside Latin-1, hence the result in [N]. *)
Definition canonicalize (c : ascii) : N :=
  let n := code c in
  if between 97 122 c then n - 32
  else if N.eqb n 181 then 924
  else if N.eqb n 255 then 376
  else if (between 224 254 c && negb (N.eqb n 247))%bool then n - 32
  else n.

Definition sameChar (a b : ascii) : bool :=
  N.eqb (canonicalize a) (canonicalize b).

(** The members of [\s] inside Latin-1 and of the class [[,.;!?]]. *)
Definition whiteSpaceClass : list ascii :=
  map ascii_of_N [9; 10; 11; 12; 13; 32; 160]%N.

Definition punctuationClass : list ascii := str ",.;!?".

Definition wordCharAt (input : jsstring) (i : nat) : bool :=
  match nth_error input i with
  | Some c => isWordChar c
  | None => false
  end.

(** IsWordChar(e - 1) differs from IsWordChar(e). *)
Definition atWordBoundary (input : jsstring) (e : nat) : bool :=
  xorb (match e with O => false | S e' => wordCharAt input e' end)
       (wordCharAt input e).

Fixpoint matchAt (r : t) (input : jsstring) (i : nat) (k : nat -> bool)
  : bool :=
  match r with
  | Empty => k i
  | Chr c =>
      match nth_error input i with
      | Some x => (sameChar x c && k (S i))%bool
      | None => false
      end
  | Cls members =>
      match nth_error input i with
      | Some x => (existsb (sameChar x) members && k (S i))%bool
      | None => false
      end
  | Bol => (Nat.eqb i 0 && k i)%bool
  | Eol => (Nat.eqb i (length input) && k i)%bool
  | WordB => (atWordBoundary input i && k i)%bool
  | Seq r1 r2 => matchAt r1 input i (fun j => matchAt r2 input j k)
  | Alt r1 r2 => (matchAt r1 input i k || matchAt r2 input i k)%bool
  end.

(** [re.test(input)] for a regular expression that is neither global
    nor sticky: the match is tried at every index from 0 to the length. *)
Definition test (r : t) (input : jsstring) : bool :=
  existsb (fun i => matchAt r input i (fun _ => true))
          (seq 0 (S (length input))).

(** The literal pattern that matches the units of [s] in turn. *)
Fixpoint literal (s : jsstring) : t :=
  match s with
  | [] => Empty
  | c :: s' => Seq (Chr c) (literal s')
  end.

(** The class of [/[-\/\\^$*+?.()|[\]{}]/g]. *)
Definition escapedClass : list ascii := str "-/\^$*+?.()|[]{}".

Definition isEscaped (c : ascii) : bool := existsb (ascii_eqb c) escapedClass.

(** [s.replace(/[-\/\\^$*+?.()|[\]{}]/g, '\\$&')]: a backslash goes in
    front of every unit of the class. *)
Definition escapeRegExp (s : jsstring) : jsstring :=
  flat_map (fun c => if isEscaped c then ["\"%char; c] else [c]) s.

(** SyntaxCharacter of the pattern grammar. *)
Definition isSyntaxCharacter (c : ascii) : bool :=
  existsb (ascii_eqb c) (str "^$\.*+?()[]{}|").

(** Reading pattern text that consists of pattern characters and of
    identity escapes of the escaped class; the result is the string the
    text matches.  Any other text (a bare syntax character, another
    escape, a trailing backslash) is outside the fragment. *)
Fixpoint parseLiteral (p : jsstring) : option jsstring :=
  match p with
  | [] => Some []
  | c :: p' =>
      if ascii_eqb c "\"%char then
        match p' with
        | d :: p'' =>
            if isEscaped d then option_map (cons d) (parseLiteral p'')
            else None
        | [] => None
        end
      else if isSyntaxCharacter c then None
      else option_map (cons c) (parseLiteral p')
  end.

(** [new RegExp(`\\b${source}\\b`, 'i')] *)
Definition wordBoundaryRegExp (source : jsstring) : Completion t :=
  match parseLiteral source with
  | Some s => Normal (Seq WordB (Seq (literal s) WordB))
  | None => Throw SyntaxError
  end.

(** [\s|[,.;!?]], the two alternatives that consume a unit. *)
Definition delimiter : t := Alt (Cls whiteSpaceClass) (Cls punctuationClass).

(** [new RegExp(`(^|\\s|[,.;!?])${source}($|\\s|[,.;!?])`, 'i')] *)
Definition delimitedRegExp (source : jsstring) : Completion t :=
  match parseLiteral source with
  | Some s =>
      Normal (Seq (Alt Bol delimiter) (Seq (literal s) (Alt Eol delimiter)))
  | None => Throw SyntaxError
  end.

End RegExp.

(** ** Numbers

    Relevances are IEEE 754 binary64 values: [spec_float] at precision 53
    and maximal exponent 1024, with the correctly rounded operations of
    the Standard Library. *)

Module Number.

Definition t := spec_float.

Definition ofZ (n : Z) : t := binary_normalize 53 1024 n 0 false.
Definition sub (x y : t) : t := SFsub 53 1024 x y.
Definition mul (x y : t) : t := SFmul 53 1024 x y.
Definition div (x y : t) : t := SFdiv 53 1024 x y.
Definition ltb (x y : t) : bool := SFltb x y.
Definition leb (x y : t) : bool := SFleb x y.
Definition zero : t := S754_zero false.

(** The literals of the source, as the nearest binary64 value. *)
Definition d0_95 : t := S754_finite false 8556839292003942 (-53). (* 0x1.e666666666666p-1 *)
Definition d0_9 : t := S754_finite false 8106479329266893 (-53).  (* 0x1.ccccccccccccdp-1 *)
Definition d0_8 : t := S754_finite false 7205759403792794 (-53).  (* 0x1.999999999999ap-1 *)
Definition d0_7 : t := S754_finite false 6305039478318694 (-53).  (* 0x1.6666666666666p-1 *)
Definition d0_6 : t := S754_finite false 5404319552844595 (-53).  (* 0x1.3333333333333p-1 *)
Definition d0_1 : t := S754_finite false 7205759403792794 (-56).  (* 0x1.999999999999ap-4 *)

End Number.

(** ** Array.prototype.sort

    The sort is stable (ECMAScript 2019), so for a consistent comparator
    its result is determined: the elements in comparator order, equal
    ones in their input order.  [insert x l] puts [x], which stood before
    every element of [l], behind exactly the elements that the comparator
    ranks before it.  A comparator result that is not a number counts as
    zero. *)

Module JsArray.

Section Sort.
Variable A : Type.
Variable comparefn : A -> A -> Number.t.

(** [comparefn(x, y) > 0]: [x] goes after [y]. *)
Definition after (x y : A) : bool := Number.ltb Number.zero (comparefn x y).

Fixpoint insert (x : A) (l : list A) : list A :=
  match l with
  | [] => [x]
  | y :: l' => if after x y then y :: insert x l' else x :: l
  end.

Definition sort (l : list A) : list A := fold_right insert [] l.
End Sort.

End JsArray.

(** ** The data of an analysis result *)

Module Keyword.
Record t := mk { text : jsstring; relevance : Number.t; count : Z }.
End Keyword.

Module Entity.
Record t := mk {
  type : jsstring;
  text : jsstring;
  relevance : Number.t;
  confidence : Number.t;
  count : Z
}.
End Entity.

(** The three properties of [results] that the hook reads or writes; a
    property may be missing.  Its other properties are copied by the
    spread and never looked at. *)
Record AnalysisResult := {
  optimizedText : option jsstring;
  keywords : option (list Keyword.t);
  entities : option (list Entity.t)
}.

(** [results] has type [any]: [None] is [null] or [undefined]. *)
Definition JsAny := option AnalysisResult.

(** Reading a property of [o]: a [TypeError] on [null] and [undefined]. *)
Definition getProp (A : Type) (o : JsAny) (f : AnalysisResult -> A)
  : Completion A :=
  match o with
  | Some r => Normal (f r)
  | None => Throw TypeError
  end.

Inductive KeywordStatus := Exact | Partial | Relevant | Missing.

(** The module [utils/keywordUtils] is imported by the hook and is not
    part of the sources at hand: its three exports are parameters. *)
Class KeywordUtils := {
  isKeywordInTopPositions : jsstring -> list Keyword.t -> nat -> bool;
  isExactKeywordMatch : jsstring -> jsstring -> bool;
  isPartialKeywordMatch : jsstring -> jsstring -> bool
}.

(** The product-type token of lines 21, 105 and 148. *)
Definition bras : jsstring := str "bras".

(** ** checkKeywordStatus (lines 10-71) *)

Section Classifier.
Context {utils : KeywordUtils}.

(** Lines 41-45: a keyword entry whose text contains the keyword or is
    contained in it, both lower-cased and trimmed. *)
Definition keywordSubstring (lowerKeyword : jsstring) (k : Keyword.t) : bool :=
  (includes (trim (toLowerCase (Keyword.text k))) lowerKeyword
   || includes lowerKeyword (trim (toLowerCase (Keyword.text k))))%bool.

(** Lines 58-61: the same test on an entity, whose text is lower-cased
    and not trimmed. *)
Definition entitySubstring (lowerKeyword : jsstring) (e : Entity.t) : bool :=
  (includes (toLowerCase (Entity.text e)) lowerKeyword
   || includes lowerKeyword (toLowerCase (Entity.text e)))%bool.

(** Lines 57-67: [resultsToUse.entities && resultsToUse.entities.length > 0]
    and then [some]. *)
Definition entityMatch (lowerKeyword : jsstring) (es : option (list Entity.t))
  : bool :=
  match es with
  | Some (e :: es') => some (entitySubstring lowerKeyword) (e :: es')
  | Some [] => false
  | None => false
  end.

(** Lines 27-70, the rules after the direct text search. *)
Definition checkStructured (keyword lowerKeyword : jsstring)
    (resultsToUse : JsAny) (kws : list Keyword.t) : Completion KeywordStatus :=
  if some (fun k => isExactKeywordMatch (Keyword.text k) keyword) kws
  then Normal Exact
  else if some (fun k => isPartialKeywordMatch (Keyword.text k) keyword) kws
  then Normal Partial
  else if some (keywordSubstring lowerKeyword) kws
  then Normal Partial
  else if isKeywordInTopPositions keyword kws 10
  then Normal Relevant
  else
    es <- getProp resultsToUse entities ;;
    if entityMatch lowerKeyword es then Normal Exact else Normal Missing.

(** [x || ""] for a string property [x] that may be missing. *)
Definition orEmpty (x : option jsstring) : jsstring :=
  match x with
  | Some s => s
  | None => []
  end.

(** Lines 21-22: the direct text search for product-type keywords.  The
    regular expression is built only when the two tests before it in
    the conjunction hold. *)
Definition directTextMatch (lowerKeyword optimizedText : jsstring)
  : Completion bool :=
  match optimizedText with
  | [] => Normal false
  | _ :: _ =>
      if includes lowerKeyword bras then
        re <- RegExp.wordBoundaryRegExp (RegExp.escapeRegExp lowerKeyword) ;;
        Normal (RegExp.test re (toLowerCase optimizedText))
      else Normal false
  end.

(** [resultsToUse] is the argument after the default [= results] has
    been applied.  Line 11 returns on a missing object, a missing
    [keywords] property and an empty keyword, in this order. *)
Definition checkKeywordStatus (keyword : jsstring) (resultsToUse : JsAny)
  : Completion KeywordStatus :=
  match resultsToUse with
  | None => Normal Missing
  | Some _ =>
      ks <- getProp resultsToUse keywords ;;
      match ks, keyword with
      | None, _ => Normal Missing
      | Some _, [] => Normal Missing
      | Some kws, _ :: _ =>
          let lowerKeyword := trim (toLowerCase keyword) in
          ot <- getProp resultsToUse optimizedText ;;
          let optimizedText := orEmpty ot in
          direct <- directTextMatch lowerKeyword optimizedText ;;
          if direct then Normal Exact
          else checkStructured keyword lowerKeyword resultsToUse kws
      end
  end.
End Classifier.

(** ** mockAnalysisForKeywords (lines 74-175) *)

(** The two arrays that the loops push to. *)
Record MockState := {
  mockKeywords : list Keyword.t;
  mockEntities : list Entity.t
}.

Definition pushKeyword (k : Keyword.t) (st : MockState) : MockState :=
  {| mockKeywords := mockKeywords st ++ [k]; mockEntities := mockEntities st |}.

Definition pushEntity (e : Entity.t) (st : MockState) : MockState :=
  {| mockKeywords := mockKeywords st; mockEntities := mockEntities st ++ [e] |}.

Definition exactKeyword (keyword : jsstring) : Keyword.t :=
  Keyword.mk keyword Number.d0_95 1.

Definition partialKeyword (keyword : jsstring) : Keyword.t :=
  Keyword.mk (keyword ++ str " (partial)") Number.d0_8 1.

Definition productEntity (keyword : jsstring) : Entity.t :=
  Entity.mk (str "ProductType") keyword Number.d0_95 Number.d0_9 1.

(** Lines 86-93: the whole-word test of one target keyword. *)
Definition exactMatch (optimizedContent keyword : jsstring) : Completion bool :=
  let lowerKeyword := trim (toLowerCase keyword) in
  let lowerContent := toLowerCase optimizedContent in
  exactRegex <- RegExp.delimitedRegExp (RegExp.escapeRegExp lowerKeyword) ;;
  Normal (RegExp.test exactRegex lowerContent).

(** Lines 85-126: the body of the loop over the target keywords. *)
Definition targetStep (optimizedContent keyword : jsstring) (st : MockState)
  : Completion MockState :=
  let lowerKeyword := trim (toLowerCase keyword) in
  let lowerContent := toLowerCase optimizedContent in
  m <- exactMatch optimizedContent keyword ;;
  if m then
    let st1 := pushKeyword (exactKeyword keyword) st in
    if includes (toLowerCase keyword) bras
    then Normal (pushEntity (productEntity keyword) st1)
    else Normal st1
  else if includes lowerContent lowerKeyword
  then Normal (pushKeyword (partialKeyword keyword) st)
  else Normal st.

Fixpoint targetLoop (optimizedContent : jsstring) (targetKeywords : list jsstring)
    (st : MockState) : Completion MockState :=
  match targetKeywords with
  | [] => Normal st
  | keyword :: rest =>
      st' <- targetStep optimizedContent keyword st ;;
      targetLoop optimizedContent rest st'
  end.

(** Line 143: [0.7 - (0.1 * j)]. *)
Definition phraseRelevance (j : nat) : Number.t :=
  Number.sub Number.d0_7 (Number.mul Number.d0_1 (Number.ofZ (Z.of_nat j))).

Definition phraseKeyword (phrase : jsstring) (j : nat) : Keyword.t :=
  Keyword.mk phrase (phraseRelevance j) 1.

Definition phraseEntity (phrase : jsstring) : Entity.t :=
  Entity.mk (str "ProductType") phrase Number.d0_7 Number.d0_8 1.

Definition sameTextK (phrase : jsstring) (k : Keyword.t) : bool :=
  streq (toLowerCase (Keyword.text k)) (toLowerCase phrase).

Definition sameTextE (phrase : jsstring) (e : Entity.t) : bool :=
  streq (toLowerCase (Entity.text e)) (toLowerCase phrase).

(** Lines 132-158: the body of the inner loop at window start [i] and
    window length [j]. *)
Definition phraseStep (words : list jsstring) (i j : nat) (st : MockState)
  : MockState :=
  if i + j <=? length words then
    let phrase := join (str " ") (slice words i j) in
    if ((length phrase <? 3) || some (sameTextK phrase) (mockKeywords st))%bool
    then st
    else
      let st1 := pushKeyword (phraseKeyword phrase j) st in
      if (includes (toLowerCase phrase) bras
          && negb (some (sameTextE phrase) (mockEntities st1)))%bool
      then pushEntity (phraseEntity phrase) st1
      else st1
  else st.

(** Lines 129-160: [i] from 0 below [words.length], [j] from 1 to 3. *)
Definition phraseLoop (words : list jsstring) (st : MockState) : MockState :=
  fold_left
    (fun st i => fold_left (fun st j => phraseStep words i j st) [1; 2; 3] st)
    (seq 0 (length words)) st.

(** Line 164: [(a, b) => b.relevance - a.relevance]. *)
Definition byRelevance (a b : Keyword.t) : Number.t :=
  Number.sub (Keyword.relevance b) (Keyword.relevance a).

(** Lines 81-160: the candidate entries before sorting. *)
Definition candidates (optimizedContent : jsstring) (targetKeywords : list jsstring)
  : Completion MockState :=
  let words := splitWhiteSpace optimizedContent in
  st <- targetLoop optimizedContent targetKeywords
          {| mockKeywords := []; mockEntities := [] |} ;;
  Normal (phraseLoop words st).

(** [results] is the argument of the hook, which the closure reads. *)
Definition mockAnalysisForKeywords (results : JsAny)
    (optimizedContent : jsstring) (targetKeywords : list jsstring)
  : Completion AnalysisResult :=
  st <- candidates optimizedContent targetKeywords ;;
  let sorted := firstn 15 (JsArray.sort byRelevance (mockKeywords st)) in
  es <- getProp results entities ;;
  match es with
  | Some (e :: es') =>
      Normal {| optimizedText := Some optimizedContent;
                keywords := Some sorted;
                entities := Some (mockEntities st ++ e :: es') |}
  | _ =>
      Normal {| optimizedText := Some optimizedContent;
                keywords := Some sorted;
                entities := Some (mockEntities st) |}
  end.

(** ** Views of the generator that the statements use *)

(** The whole-word test of line 93 once the pattern text has been read:
    the escaped keyword always reads back as the keyword itself. *)
Definition exactMatchB (optimizedContent keyword : jsstring) : bool :=
  RegExp.test
    (RegExp.Seq (RegExp.Alt RegExp.Bol RegExp.delimiter)
       (RegExp.Seq (RegExp.literal (trim (toLowerCase keyword)))
          (RegExp.Alt RegExp.Eol RegExp.delimiter)))
    (toLowerCase optimizedContent).

(** What one target keyword pushes to [mockKeywords] and to
    [mockEntities] (lines 95-125). *)
Definition targetKeywordEntries (optimizedContent keyword : jsstring)
  : list Keyword.t :=
  if exactMatchB optimizedContent keyword then [exactKeyword keyword]
  else if includes (toLowerCase optimizedContent) (trim (toLowerCase keyword))
  then [partialKeyword keyword]
  else [].

Definition targetEntityEntries (optimizedContent keyword : jsstring)
  : list Entity.t :=
  if (exactMatchB optimizedContent keyword
      && includes (toLowerCase keyword) bras)%bool
  then [productEntity keyword]
  else [].

(** A target keyword matches the content, as a whole word or as a
    substring. *)
Definition targetMatches (optimizedContent keyword : jsstring) : bool :=
  (exactMatchB optimizedContent keyword
   || includes (toLowerCase optimizedContent) (trim (toLowerCase keyword)))%bool.

(** The relevances that the generator hands out. *)
Definition targetRelevances : list Number.t := [Number.d0_95; Number.d0_8].

Definition phraseRelevances : list Number.t :=
  [phraseRelevance 1; phraseRelevance 2; phraseRelevance 3].

Definition mockRelevances : list Number.t := targetRelevances ++ phraseRelevances.

Definition hasMockRelevance (k : Keyword.t) : Prop :=
  In (Keyword.relevance k) mockRelevances.

(** [a] may stand in front of [b] in a list of descending relevance. *)
Definition descending (a b : Keyword.t) : Prop :=
  Number.leb (Keyword.relevance b) (Keyword.relevance a) = true.

(** [Pushed P base l]: [l] is [base] followed by entries pushed one at a
    time, each satisfying [P] of the list at the time of its insertion. *)
Inductive Pushed (P : list Keyword.t -> Keyword.t -> Prop)
    (base : list Keyword.t) : list Keyword.t -> Prop :=
| Pushed_none : Pushed P base base
| Pushed_one l e : Pushed P base l -> P l e -> Pushed P base (l ++ [e]).

(** The entry [e] is pushed by the phrase loop onto the list [l]: it is
    the window of [j] words at some index, at least three units long,
    and no entry of [l] has its text up to case. *)
Definition PhrasePush (words : list jsstring) (l : list Keyword.t)
    (e : Keyword.t) : Prop :=
  exists i j,
    1 <= j <= 3 /\ i + j <= length words /\
    e = phraseKeyword (join (str " ") (slice words i j)) j /\
    3 <= length (Keyword.text e) /\
    forall k, In k l ->
      toLowerCase (Keyword.text k) <> toLowerCase (Keyword.text e).

Definition isProductType (e : Entity.t) : Prop :=
  Entity.type e = str "ProductType".

(** ** Notions of the specification *)

(** A word boundary between two adjacent parts of a text: exactly one of
    the two units next to it is a word character. *)
Definition endsWithWordChar (s : jsstring) : bool :=
  match rev s with
  | c :: _ => RegExp.isWordChar c
  | [] => false
  end.

Definition startsWithWordChar (s : jsstring) : bool :=
  match s with
  | c :: _ => RegExp.isWordChar c
  | [] => false
  end.

Definition wordBoundary (before rest : jsstring) : Prop :=
  endsWithWordChar before <> startsWithWordChar rest.

(** The text holds a whole-word match of the keyword up to case: some
    part [mid] equals the keyword after lower-casing (the keyword also
    trimmed) and has a word boundary at both ends. *)
Definition WholeWordMatch (keyword text : jsstring) : Prop :=
  exists pre mid post,
    text = pre ++ mid ++ post /\
    toLowerCase mid = trim (toLowerCase keyword) /\
    wordBoundary pre (mid ++ post) /\
    wordBoundary (pre ++ mid) post.

(** The everyday reading for a keyword that starts and ends with a word
    character: the unit before the match and the unit after it, where
    there is one, are no word characters. *)
Definition WordDelimited (keyword text : jsstring) : Prop :=
  exists pre mid post,
    text = pre ++ mid ++ post /\
    toLowerCase mid = trim (toLowerCase keyword) /\
    startsWithWordChar mid = true /\ endsWithWordChar mid = true /\
    endsWithWordChar pre = false /\ startsWithWordChar post = false.

(** The delimiters of the generator: white space and the five marks of
    the class [[,.;!?]]. *)
Definition isDelimiter (c : ascii) : bool :=
  (isWhiteSpace c || existsb (ascii_eqb c) RegExp.punctuationClass)%bool.

Definition delimitedLeft (pre : jsstring) : Prop :=
  pre = [] \/ exists pre' d, pre = pre' ++ [d] /\ isDelimiter d = true.

Definition delimitedRight (post : jsstring) : Prop :=
  post = [] \/ exists d post', post = d :: post' /\ isDelimiter d = true.

(** The keyword occurs in the content up to case, with the start of the
    content or a delimiter before it and the end or a delimiter after. *)
Definition DelimitedMatch (keyword optimizedContent : jsstring) : Prop :=
  exists pre post,
    toLowerCase optimizedContent = pre ++ trim (toLowerCase keyword) ++ post /\
    delimitedLeft pre /\ delimitedRight post.



(** The result with every entity text trimmed. *)
Definition trimEntity (e : Entity.t) : Entity.t :=
  Entity.mk (Entity.type e) (trim (Entity.text e)) (Entity.relevance e)
            (Entity.confidence e) (Entity.count e).

Definition trimEntities (r : AnalysisResult) : AnalysisResult :=
  {| optimizedText := optimizedText r;
     keywords := keywords r;
     entities := option_map (map trimEntity) (entities r) |}.

(** The entities that [results] brings along, none when the property is
    missing. *)
Definition sourceEntities (r : AnalysisResult) : list Entity.t :=
  match entities r with
  | Some es => es
  | None => []
  end.

(** The inputs of the runs below. *)
Definition noProperties : AnalysisResult :=
  {| optimizedText := None; keywords := None; entities := None |}.

Definition sixteenWords : jsstring := str "a b c d e f g h i j k l m n o p".

Definition sixteenTargets : list jsstring :=
  map (fun c => [c]) (str "abcdefghijklmnop").

(** Stand-ins for [utils/keywordUtils] in the runs: helpers that match
    nothing. *)
Definition silentUtils : KeywordUtils :=
  {| isKeywordInTopPositions := fun _ _ _ => false;
     isExactKeywordMatch := fun _ _ => false;
     isPartialKeywordMatch := fun _ _ => false |}.

Definition anEntity (text : string) : Entity.t :=
  Entity.mk (str "Concept") (str text) Number.d0_8 Number.d0_9 1.


(** A result without keywords whose only entity has a trailing space. *)
Definition untrimmedEntityResult : AnalysisResult :=
  {| optimizedText := Some [];
     keywords := Some [];
     entities := Some [anEntity "port "] |}.

(** The example of the specification: the text holds "wireless bras" as
    a whole word and the keyword list is empty. *)
Definition wirelessBrasResult : AnalysisResult :=
  {| optimizedText := Some (str "Our new Wireless Bras, now in stock");
     keywords := Some [];
     entities := None |}.

(** Product keywords that do not start or end with a unit of
    [[A-Za-z0-9_]], each in a text that holds it between two spaces, and
    results with these texts and empty lists.  The first keyword reads
    [Ete bras] with an acute accent on both [e]: the units 201 and 233 are
    the capital and the small letter. *)
Definition accentedBras : jsstring :=
  "201"%char :: str "t" ++ "233"%char :: str " bras".

Definition accentedContent : jsstring :=
  str "un " ++ "233"%char :: str "t" ++ "233"%char :: str " bras nus".

Definition bracketedBras : jsstring := str "Bras (C++)".

Definition bracketedContent : jsstring := str "new bras (c++) here".

Definition textOnlyResult (text : jsstring) : AnalysisResult :=
  {| optimizedText := Some text; keywords := Some []; entities := Some [] |}.



(** The guarantee on target keywords with the truncation read strictly:
    a matching target keyword is in the output [out] as its exact or its
    partial entry, unless at least 15 of the candidates [cands] have a
    relevance above that of its entry. *)
Definition representedOrOutranked (optimizedContent : jsstring)
    (targetKeywords : list jsstring) (cands out : list Keyword.t) : Prop :=
  forall keyword,
    In keyword targetKeywords ->
    includes (toLowerCase optimizedContent) (trim (toLowerCase keyword)) = true ->
    In (exactKeyword keyword) out \/ In (partialKeyword keyword) out \/
    exists e,
      (e = exactKeyword keyword \/ e = partialKeyword keyword) /\ In e cands /\
      15 <= length (filter (fun x => Number.ltb (Keyword.relevance e)
                                               (Keyword.relevance x)) cands).

(** * utils/mockDataUtils.ts *)

(** ** More string methods *)

Module JSMore.

(** [s.split(re)] for a pattern [re] that matches the maximal runs of the
    units in a class ([/\s+/], [/[.!?]+/]): the pieces between the runs,
    with an empty piece in front of a run at the start and behind a run
    at the end; a string without a run, the empty one too, is one
    piece. *)
Fixpoint splitRunsAux (inClass : ascii -> bool) (s cur : jsstring)
    (inRun : bool) : list jsstring :=
  match s with
  | [] => [rev cur]
  | c :: s' =>
      if inClass c
      then if inRun then splitRunsAux inClass s' [] true
           else rev cur :: splitRunsAux inClass s' [] true
      else splitRunsAux inClass s' (c :: cur) false
  end.

Definition splitRuns (inClass : ascii -> bool) (s : jsstring) : list jsstring :=
  splitRunsAux inClass s [] false.

(** The maximal runs themselves, in order: what [s.match(re)] returns
    for such a pattern with the flag [g], when there is a run. *)
Fixpoint runsAux (inClass : ascii -> bool) (s cur : jsstring) : list jsstring :=
  match s with
  | [] => match cur with [] => [] | _ :: _ => [rev cur] end
  | c :: s' =>
      if inClass c then runsAux inClass s' (c :: cur)
      else match cur with
           | [] => runsAux inClass s' []
           | _ :: _ => rev cur :: runsAux inClass s' []
           end
  end.

(** [s.match(re)]: [null] when nothing matches. *)
Definition matchRuns (inClass : ascii -> bool) (s : jsstring)
  : option (list jsstring) :=
  match runsAux inClass s [] with
  | [] => None
  | l => Some l
  end.

(** [s.split(" ")] and the like: split at every occurrence of a
    separator of one unit. *)
Fixpoint splitOnAux (sep : ascii) (s cur : jsstring) : list jsstring :=
  match s with
  | [] => [rev cur]
  | c :: s' =>
      if ascii_eqb c sep then rev cur :: splitOnAux sep s' []
      else splitOnAux sep s' (c :: cur)
  end.

Definition splitOn (sep : ascii) (s : jsstring) : list jsstring :=
  splitOnAux sep s [].

(** [Boolean(s)] on a string: the empty string is falsy. *)
Definition truthy (s : jsstring) : bool :=
  match s with
  | [] => false
  | _ :: _ => true
  end.

(** The class of [/[.!?]+/]. *)
Definition isTerminator (c : ascii) : bool :=
  existsb (ascii_eqb c) (str ".!?").

(** The class of [/[.,\/#!$%\^&\*;:{}=\-_`~()]/g]. *)
Definition isStripped (c : ascii) : bool :=
  existsb (ascii_eqb c) (str ".,/#!$%^&*;:{}=-_`~()").

(** [s.replace(/[.,\/#!$%\^&\*;:{}=\-_`~()]/g, "")] *)
Definition stripPunctuation (s : jsstring) : jsstring :=
  filter (fun c => negb (isStripped c)) s.

End JSMore.
Export JSMore.

(** ** toFixed and parseFloat *)

Module NumberFormat.

(** The integer [n] with [n / 100] nearest to [m * 2^e], the larger one
    of two that are equally near. *)
Definition hundredths (m : positive) (e : Z) : N :=
  Z.to_N
    (if (0 <=? e)%Z then (Zpos m * 2 ^ e * 100)%Z
     else let d := (2 ^ (- e))%Z in ((2 * (Zpos m * 100) + d) / (2 * d))%Z).

(** [m * 2^e >= 10^21] *)
Definition atLeast1e21 (m : positive) (e : Z) : bool :=
  if (0 <=? e)%Z then (10 ^ 21 <=? Zpos m * 2 ^ e)%Z
  else (10 ^ 21 * 2 ^ (- e) <=? Zpos m)%Z.

(** What [x.toFixed(2)] writes: a sign and the digits of an integer
    number of hundredths, or the text of [ToString(x)] for a value that
    is not finite or is at least 10^21 in size.  Negative zero is written
    without a sign. *)
Inductive Fixed :=
| Decimal (negative : bool) (n : N)
| Plain (x : Number.t).

Definition toFixed2 (x : Number.t) : Fixed :=
  match x with
  | S754_zero _ => Decimal false 0
  | S754_finite s m e =>
      if atLeast1e21 m e then Plain x else Decimal s (hundredths m e)
  | _ => Plain x
  end.

(** The binary64 value nearest to [n / 100], with the sign [s]. *)
Definition nearestHundredths (s : bool) (n : N) : Number.t :=
  match n with
  | N0 => S754_zero s
  | Npos p => Number.div (S754_finite s p 0) (S754_finite false 100 0)
  end.

(** [parseFloat] of such a text: the binary64 value nearest to the
    decimal, and the value itself for the text of [ToString]. *)
Definition parseFloat (f : Fixed) : Number.t :=
  match f with
  | Decimal s n => nearestHundredths s n
  | Plain x => x
  end.

(** [parseFloat(x.toFixed(2))] *)
Definition round2 (x : Number.t) : Number.t := parseFloat (toFixed2 x).

(** The value of a decimal literal with two places, [n] hundredths. *)
Definition decimal (n : N) : Number.t := nearestHundredths false n.

End NumberFormat.

(** ** Arrays and objects *)

Module JsArrayMore.

Section Sort.
Variable A : Type.

(** The stable sort for a comparator given by its sign test: [after x y]
    tells that [comparefn(x, y) > 0]. *)
Variable after : A -> A -> bool.

Fixpoint insertBy (x : A) (l : list A) : list A :=
  match l with
  | [] => [x]
  | y :: l' => if after x y then y :: insertBy x l' else x :: l
  end.

Definition sortBy (l : list A) : list A := fold_right insertBy [] l.
End Sort.

(** [arr.map((x, index) => f index x)] *)
Fixpoint mapiFrom (A B : Type) (f : nat -> A -> B) (index : nat) (l : list A)
  : list B :=
  match l with
  | [] => []
  | x :: l' => f index x :: mapiFrom f (S index) l'
  end.

Definition mapi (A B : Type) (f : nat -> A -> B) (l : list A) : list B :=
  mapiFrom f 0 l.

End JsArrayMore.

(** An object used as a counter: the own properties in the order of
    their creation, each with an integer count.  The counts stay far
    below 2^53, where the arithmetic of binary64 is exact. *)
Module Counter.

Definition t := list (jsstring * Z).

(** [o[key] = (o[key] || 0) + 1] for a key that [Object.prototype] does
    not have. *)
Fixpoint increment (key : jsstring) (o : t) : t :=
  match o with
  | [] => [(key, 1%Z)]
  | (k, n) :: o' =>
      if streq k key then (k, (n + 1)%Z) :: o'
      else (k, n) :: increment key o'
  end.

(** [o[key] || 0] for such a key. *)
Fixpoint get (key : jsstring) (o : t) : Z :=
  match o with
  | [] => 0%Z
  | (k, n) :: o' => if streq k key then n else get key o'
  end.

Definition isDigit (c : ascii) : bool := between 48 57 c.

(** The number that a string of digits writes. *)
Definition digitsValue (s : jsstring) : N :=
  fold_left (fun v c => (10 * v + (code c - 48))%N) s 0%N.

(** An array index: the canonical decimal text of an integer below
    2^32 - 1. *)
Definition isArrayIndex (key : jsstring) : bool :=
  match key with
  | [] => false
  | c :: rest =>
      (forallb isDigit key
       && (negb (ascii_eqb c "0"%char) || match rest with [] => true | _ => false end)
       && (digitsValue key <? 4294967295)%N)%bool
  end.

(** [Object.entries(o)]: the array indices in ascending order first,
    then the other keys in the order of their creation. *)
Definition entries (o : t) : list (jsstring * Z) :=
  JsArrayMore.sortBy
    (fun a b => (digitsValue (fst b) <? digitsValue (fst a))%N)
    (filter (fun kv => isArrayIndex (fst kv)) o)
  ++ filter (fun kv => negb (isArrayIndex (fst kv))) o.

End Counter.

(** ** The generators *)

Module MockData.
Import NumberFormat.

(** *** getFrequentWords (lines 8-24) *)

(** Line 15: only words with more than 3 units are counted. *)
Definition isLong (word : jsstring) : bool := 3 <? length word.

(** Lines 9-11: the words of the text. *)
Definition wordsOf (text : jsstring) : list jsstring :=
  splitWhiteSpace (stripPunctuation (toLowerCase text)).

(** Lines 14-18: the body of the loop and the counter after it. *)
Definition countStep (o : Counter.t) (word : jsstring) : Counter.t :=
  if isLong word then Counter.increment word o else o.

Definition countWords (words : list jsstring) : Counter.t :=
  fold_left countStep words [].

(** Line 21: [(a, b) => b[1] - a[1]] is positive when [a] has the
    smaller count. *)
Definition fewer (a b : jsstring * Z) : bool := (snd a <? snd b)%Z.

(** The counter is a plain object.  Of the properties it inherits only
    ["constructor"] is a possible word (lower case, no underscore): for
    it line 16 reads the inherited function, stores a string as the
    count, and the comparator of line 21 is not consistent any more,
    which leaves the order of the sort to the implementation.  The
    result is [None] then. *)
Definition getFrequentWords (text : jsstring) : option (list jsstring) :=
  let words := wordsOf text in
  if some (streq (str "constructor")) words then None
  else
    Some (firstn 10
            (map fst
               (JsArrayMore.sortBy fewer (Counter.entries (countWords words))))).

(** How often a word occurs in a list of words. *)
Definition occurrences (words : list jsstring) (word : jsstring) : nat :=
  length (filter (streq word) words).

(** *** generateMockKeywords (lines 29-37) *)

Module MockKeyword.
Record t := mk { text : jsstring; relevance : Number.t }.
End MockKeyword.

(** Line 31 and line 85: [0.98 - (index * 0.04)], rounded on lines 34
    and 85. *)
Definition keywordRelevance (index : nat) : Number.t :=
  round2 (Number.sub (decimal 98)
            (Number.mul (Number.ofZ (Z.of_nat index)) (decimal 4))).

Definition generateMockKeywords (words : list jsstring) : list MockKeyword.t :=
  JsArrayMore.mapi (fun index word => MockKeyword.mk word (keywordRelevance index))
                   words.

(** *** generateMockEntities (lines 42-64) *)

Module PossibleEntity.
Record t := mk { text : jsstring; type : jsstring }.
End PossibleEntity.

Module MockEntity.
Record t := mk { text : jsstring; type : jsstring; relevance : Number.t }.
End MockEntity.

Definition possibleEntities : list PossibleEntity.t :=
  [ PossibleEntity.mk (str "Triumph") (str "Organization");
    PossibleEntity.mk (str "bras") (str "Product");
    PossibleEntity.mk (str "straps") (str "Feature");
    PossibleEntity.mk (str "support") (str "Concept");
    PossibleEntity.mk (str "design") (str "Concept");
    PossibleEntity.mk (str "fabrics") (str "Material");
    PossibleEntity.mk (str "dresses") (str "Product");
    PossibleEntity.mk (str "tops") (str "Product") ].

(** Line 57: [0.95 - (index * 0.05)], rounded on line 61. *)
Definition entityRelevance (index : nat) : Number.t :=
  round2 (Number.sub (decimal 95)
            (Number.mul (Number.ofZ (Z.of_nat index)) (decimal 5))).

Definition mentions (text : jsstring) (entity : PossibleEntity.t) : bool :=
  includes (toLowerCase text) (toLowerCase (PossibleEntity.text entity)).

Definition generateMockEntities (text : jsstring) : list MockEntity.t :=
  JsArrayMore.mapi
    (fun index entity =>
       MockEntity.mk (PossibleEntity.text entity) (PossibleEntity.type entity)
                     (entityRelevance index))
    (filter (mentions text) possibleEntities).

(** *** generateMockConcepts (lines 69-87) *)

Definition possibleConcepts : list jsstring :=
  map str ["Lingerie"; "Fashion"; "Apparel"; "Clothing"; "Undergarments";
           "Style"; "Comfort"; "Support"]%string.

(** The text is not looked at. *)
Definition generateMockConcepts (text : jsstring) : list MockKeyword.t :=
  JsArrayMore.mapi
    (fun index concept => MockKeyword.mk concept (keywordRelevance index))
    (firstn 5 possibleConcepts).

(** *** generateMockCategories (lines 92-121) *)

Module Category.
Record t := mk { label : jsstring; score : Number.t }.
End Category.

Definition underwear : Category.t :=
  Category.mk (str "shopping/apparel/underwear") (decimal 95).
Definition fashion : Category.t :=
  Category.mk (str "style and fashion/clothing") (decimal 82).
Definition reviews : Category.t :=
  Category.mk (str "shopping/consumer resources/product reviews") (decimal 74).

Definition generateMockCategories (text : jsstring) : list Category.t :=
  let lowerText := toLowerCase text in
  let categories :=
    (if (includes lowerText (str "bra") || includes lowerText (str "support")
         || includes lowerText (str "comfortable"))%bool
     then [underwear] else [])
    ++ (if (includes lowerText (str "style") || includes lowerText (str "design")
            || includes lowerText (str "dress"))%bool
        then [fashion] else [])
    ++ (if (includes lowerText (str "comfort") || includes lowerText (str "fabric")
            || includes lowerText (str "quality"))%bool
        then [reviews] else []) in
  match categories with
  | [] => [underwear]
  | _ :: _ => categories
  end.

(** *** generateMockRelations (lines 126-168) *)

Module RelationArg.
(** [entities] holds the [type] of each of its objects. *)
Record t := mk { text : jsstring; entities : list jsstring }.
End RelationArg.

Module Relation.
Record t := mk {
  type : jsstring;
  sentence : jsstring;
  score : Number.t;
  args : list RelationArg.t
}.
End Relation.

Definition straplessBras : RelationArg.t :=
  RelationArg.mk (str "strapless bras") [str "Product"].

Definition providerOf : Relation.t :=
  Relation.mk (str "providerOf")
    (str "Triumph provides strapless bras designed for secure support.")
    (decimal 87)
    [RelationArg.mk (str "Triumph") [str "Organization"]; straplessBras].

Definition featureOf : Relation.t :=
  Relation.mk (str "featureOf")
    (str "Support is a key feature of the strapless bras.")
    (decimal 82)
    [RelationArg.mk (str "Support") [str "Feature"]; straplessBras].

Definition generateMockRelations (text : jsstring) (featuresEnabled : bool)
  : list Relation.t :=
  if negb featuresEnabled then []
  else
    (if (includes (toLowerCase text) (str "triumph")
         && includes (toLowerCase text) (str "bra"))%bool
     then [providerOf] else [])
    ++ (if (includes (toLowerCase text) (str "support")
            && includes (toLowerCase text) (str "bra"))%bool
        then [featureOf] else []).

(** *** generateMockSemanticRoles (lines 203-221) *)

(** The nested objects [subject], [action], [action.verb] and [object]
    hold one text each, and [verb] the tense as well. *)
Module SemanticRole.
Record t := mk {
  sentence : jsstring;
  subject : jsstring;
  action : jsstring;
  verb : jsstring;
  tense : jsstring;
  object : jsstring
}.
End SemanticRole.

(** Lines 204 and 227: [text.split(/[.!?]+/).filter(Boolean)]. *)
Definition sentencesOf (text : jsstring) : list jsstring :=
  filter truthy (splitRuns isTerminator text).

(** [parts[1] || ""] *)
Definition second (parts : list jsstring) : jsstring := nth 1 parts [].

Definition roleOf (sentence : jsstring) : SemanticRole.t :=
  let parts := splitOn " "%char sentence in
  SemanticRole.mk sentence (hd [] parts) (second parts) (second parts)
    (str "present") (join (str " ") (skipn 2 parts)).

Definition generateMockSemanticRoles (text : jsstring) : list SemanticRole.t :=
  map roleOf (sentencesOf text).

(** *** generateMockSyntax (lines 226-240) *)

Module Token.
Record t := mk {
  text : jsstring;
  location : Z * Z;
  part_of_speech : jsstring;
  lemma : jsstring
}.
End Token.

Module Sentence.
Record t := mk { text : jsstring; location : Z * Z }.
End Sentence.

Record Syntax := { tokens : list Token.t; sentences : list Sentence.t }.

Definition span (width : Z) (index : nat) : Z * Z :=
  (Z.of_nat index * width, (Z.of_nat index + 1) * width)%Z.

Definition generateMockSyntax (text : jsstring) : Syntax :=
  {| tokens :=
       JsArrayMore.mapi
         (fun index word =>
            Token.mk word (span 10 index) (str "NOUN") (toLowerCase word))
         (splitWhiteSpace text);
     sentences :=
       JsArrayMore.mapi (fun index sentence => Sentence.mk sentence (span 100 index))
                        (sentencesOf text) |}.

(** *** generateMockClassifications (lines 245-261) *)

Module Tone.
Record t := mk { tone_id : jsstring; score : Number.t }.
End Tone.

(** [Math.random] is an oracle: [random k] is what its call number [k]
    returns.  A function that calls it takes the number of calls made
    so far and returns the new number with its result. *)
Definition toneTable : list (string * N) :=
  [("excited", 50); ("frustrated", 30); ("impolite", 20); ("polite", 40);
   ("sad", 30); ("satisfied", 60); ("sympathetic", 40)]%string%N.

Definition generateMockClassifications (random : nat -> Number.t)
    (text : jsstring) (calls : nat) : list Tone.t * nat :=
  let tones :=
    JsArrayMore.mapi
      (fun k row =>
         Tone.mk (str (fst row))
                 (Number.mul (random (calls + k)) (decimal (snd row))))
      toneTable in
  (filter (fun tone => Number.ltb (decimal 10) (Tone.score tone)) tones,
   calls + length toneTable).

(** *** generateMockResponse (lines 278-313) *)

Record WatsonFeatures := {
  f_keywords : bool;
  f_entities : bool;
  f_concepts : bool;
  f_categories : bool;
  f_classifications : bool
}.

Record WatsonLimits := {
  l_keywords : Z;
  l_entities : Z;
  l_concepts : Z;
  l_categories : Z
}.

Record Usage := { text_units : nat; text_characters : nat; features : nat }.

Record Response := {
  language : jsstring;
  usage : Usage;
  keywords : option (list MockKeyword.t);
  entities : option (list MockEntity.t);
  concepts : option (list MockKeyword.t);
  categories : option (list Category.t);
  classifications : option (list Tone.t)
}.

(** Line 288: the number of keys of [features] with a true value. *)
Definition enabledCount (features : WatsonFeatures) : nat :=
  length (filter (fun b : bool => b)
            [f_keywords features; f_entities features; f_concepts features;
             f_categories features; f_classifications features]).

(** [None] when [getFrequentWords] is called and gives [None]. *)
Definition generateMockResponse (random : nat -> Number.t) (text : jsstring)
    (features : WatsonFeatures) (limits : WatsonLimits) (calls : nat)
  : option (Response * nat) :=
  match
    (if f_keywords features
     then option_map (fun ws => Some (generateMockKeywords ws)) (getFrequentWords text)
     else Some None)
  with
  | None => None
  | Some kws =>
      let cls :=
        if f_classifications features
        then (Some (fst (generateMockClassifications random text calls)),
              snd (generateMockClassifications random text calls))
        else (None, calls) in
      Some ({| language := str "en";
               usage := {| text_units := 1;
                           text_characters := length text;
                           features := enabledCount features |};
               keywords := kws;
               entities :=
                 if f_entities features then Some (generateMockEntities text)
                 else None;
               concepts :=
                 if f_concepts features then Some (generateMockConcepts text)
                 else None;
               categories :=
                 if f_categories features then Some (generateMockCategories text)
                 else None;
               classifications := fst cls |},
            snd cls)
  end.

(** Inputs of a run: every feature on, and an oracle that always
    answers 0.5. *)
Definition allFeatures : WatsonFeatures :=
  {| f_keywords := true; f_entities := true; f_concepts := true;
     f_categories := true; f_classifications := true |}.

Definition someLimits : WatsonLimits :=
  {| l_keywords := 50; l_entities := 50; l_concepts := 50; l_categories := 50 |}.

Definition alwaysHalf (call : nat) : Number.t := decimal 50.

(** *** calculateTextStats (lines 318-328) *)

Record TextStats := { wordCount : nat; sentenceCount : nat; charCount : nat }.

Definition calculateTextStats (text : jsstring) : TextStats :=
  {| wordCount := length (filter truthy (splitWhiteSpace text));
     sentenceCount :=
       match length (match matchRuns isTerminator text with
                     | Some l => l
                     | None => []
                     end) with
       | O => 1
       | n => n
       end;
     charCount := length text |}.

End MockData.

(** ** Notions for the further properties of the hook *)

(** A unit that [toLowerCase] can leave. *)
Definition isLower (c : ascii) : Prop := exists c0, c = toLowerChar c0.

(** [PushedEntities P base l]: [l] is [base] followed by entities pushed
    one at a time, each satisfying [P] of the list at the time of its
    insertion. *)
Inductive PushedEntities (P : list Entity.t -> Entity.t -> Prop)
    (base : list Entity.t) : list Entity.t -> Prop :=
| PushedEntities_none : PushedEntities P base base
| PushedEntities_one l e :
    PushedEntities P base l -> P l e -> PushedEntities P base (l ++ [e]).

(** The entity [e] is pushed by the phrase loop onto the list [l]: it is
    the entity of a phrase that contains "bras" up to case, and no
    entity of [l] has its text up to case. *)
Definition PhraseEntityPush (l : list Entity.t) (e : Entity.t) : Prop :=
  exists phrase,
    e = phraseEntity phrase /\
    includes (toLowerCase phrase) bras = true /\
    forall e', In e' l ->
      toLowerCase (Entity.text e') <> toLowerCase (Entity.text e).

(** A text in which the product keyword stands between a space and a
    comma. *)
Definition wirelessContent : jsstring := str "Our new Wireless Bras, now in stock".

(** * Properties *)

(** ** Runs of the primitives *)

Example split_inner_runs :
  splitWhiteSpace (str "Great  support for") = [str "Great"; str "support"; str "for"].
Proof. reflexivity. Qed.

Example split_outer_runs :
  splitWhiteSpace (str " a b ") = [[]; str "a"; str "b"; []].
Proof. reflexivity. Qed.

Example split_empty : splitWhiteSpace [] = [[]].
Proof. reflexivity. Qed.

Example trim_lower :
  trim (toLowerCase (str "  Wireless Bras ")) = str "wireless bras".
Proof. reflexivity. Qed.

Example escape_syntax :
  RegExp.escapeRegExp (str "c++ (a.b)") = str "c\+\+ \(a\.b\)".
Proof. reflexivity. Qed.

(** The literals are the binary64 values nearest to the decimals: the
    correctly rounded quotients of the integers. *)
Lemma literals_nearest :
  Number.d0_95 = Number.div (Number.ofZ 95) (Number.ofZ 100) /\
  Number.d0_9 = Number.div (Number.ofZ 9) (Number.ofZ 10) /\
  Number.d0_8 = Number.div (Number.ofZ 8) (Number.ofZ 10) /\
  Number.d0_7 = Number.div (Number.ofZ 7) (Number.ofZ 10) /\
  Number.d0_6 = Number.div (Number.ofZ 6) (Number.ofZ 10) /\
  Number.d0_1 = Number.div (Number.ofZ 1) (Number.ofZ 10).
Proof. vm_compute. repeat split. Qed.

(** [0.7 - 0.1 * j] in binary64: 0.6, 0.49999999999999994 and
    0.39999999999999991. *)
Lemma phraseRelevance_values :
  phraseRelevance 1 = Number.d0_6 /\
  phraseRelevance 2 = S754_finite false 9007199254740991 (-54) /\
  phraseRelevance 3 = S754_finite false 7205759403792792 (-54).
Proof. vm_compute. repeat split. Qed.

(** ** Strings *)

Section StringFacts.

Lemma ascii_eqb_true (a b : ascii) : ascii_eqb a b = true <-> a = b.
Proof. apply Ascii.eqb_eq. Qed.

Lemma streq_true (s t : jsstring) : streq s t = true <-> s = t.
Proof.
  revert t; induction s as [|a s IH]; intros [|b t]; simpl;
    try (split; [discriminate | congruence]); [tauto|].
  rewrite andb_true_iff, ascii_eqb_true, IH.
  split; [intros [-> ->]; reflexivity | intros E; inversion E; auto].
Qed.

Lemma startsWith_app (t post : jsstring) : startsWith (t ++ post) t = true.
Proof.
  induction t as [|b t IH]; simpl; [reflexivity|].
  rewrite IH, andb_true_r. apply ascii_eqb_true; reflexivity.
Qed.

Lemma startsWith_inv (s t : jsstring) :
  startsWith s t = true -> exists post, s = t ++ post.
Proof.
  revert s; induction t as [|b t IH]; intros s H.
  - exists s; reflexivity.
  - destruct s as [|a s]; simpl in H; [discriminate|].
    apply andb_true_iff in H as [E H]. apply ascii_eqb_true in E; subst b.
    destruct (IH _ H) as [post ->]. exists post; reflexivity.
Qed.

Lemma includes_unfold (s t : jsstring) :
  includes s t =
  (startsWith s t || match s with [] => false | _ :: s' => includes s' t end)%bool.
Proof. destruct s; reflexivity. Qed.

(** [includes] finds every occurrence. *)
Lemma includes_app (pre t post : jsstring) :
  includes (pre ++ t ++ post) t = true.
Proof.
  induction pre as [|c pre IH]; simpl app; rewrite includes_unfold.
  - rewrite startsWith_app; reflexivity.
  - rewrite IH. apply orb_true_r.
Qed.

Lemma includes_inv (s t : jsstring) :
  includes s t = true -> exists pre post, s = pre ++ t ++ post.
Proof.
  induction s as [|c s IH]; rewrite includes_unfold; intros H;
    apply orb_true_iff in H as [H|H].
  - destruct (startsWith_inv _ _ H) as [post E]. exists [], post; exact E.
  - discriminate.
  - destruct (startsWith_inv _ _ H) as [post E]. exists [], post; exact E.
  - destruct (IH H) as (pre & post & ->). exists (c :: pre), post; reflexivity.
Qed.

Lemma includes_empty (s : jsstring) : includes s [] = true.
Proof. rewrite includes_unfold. reflexivity. Qed.

(** White space in front of an occurrence of a word that starts with
    another unit can be dropped. *)
Lemma includes_trimStart (s t : jsstring) (b : ascii) :
  isWhiteSpace b = false ->
  includes s (b :: t) = true -> includes (trimStart s) (b :: t) = true.
Proof.
  intros Hb; induction s as [|c s IH]; [trivial|].
  simpl trimStart. destruct (isWhiteSpace c) eqn:Hc; [|trivial].
  rewrite includes_unfold. intros H; apply orb_true_iff in H as [H|H]; [|auto].
  simpl in H. apply andb_true_iff in H as [E _].
  apply ascii_eqb_true in E; congruence.
Qed.

Lemma includes_rev (s t : jsstring) :
  includes s t = true -> includes (rev s) (rev t) = true.
Proof.
  intros H; destruct (includes_inv _ _ H) as (pre & post & ->).
  rewrite !rev_app_distr, <- app_assoc. apply includes_app.
Qed.

(** An occurrence of a word without white space at either end survives
    [trim]. *)
Lemma includes_trim (s t : jsstring) (b e : ascii) :
  isWhiteSpace b = false -> isWhiteSpace e = false ->
  (exists t', t = b :: t') -> (exists t', rev t = e :: t') ->
  includes s t = true -> includes (trim s) t = true.
Proof.
  intros Hb He [t1 E1] [t2 E2] H. unfold trim, trimEnd.
  rewrite <- (rev_involutive t). apply includes_rev.
  rewrite E2. apply includes_trimStart; [exact He|]. rewrite <- E2.
  apply includes_rev. subst t. apply includes_trimStart; assumption.
Qed.

Lemma includes_trim_bras (s : jsstring) :
  includes s bras = true -> includes (trim s) bras = true.
Proof.
  apply includes_trim with (b := "b"%char) (e := "s"%char);
    [reflexivity | reflexivity | eexists; reflexivity | eexists; reflexivity].
Qed.

Lemma toLowerCase_app (s t : jsstring) :
  toLowerCase (s ++ t) = toLowerCase s ++ toLowerCase t.
Proof. apply map_app. Qed.

Lemma toLowerCase_length (s : jsstring) : length (toLowerCase s) = length s.
Proof. apply length_map. Qed.

End StringFacts.

(** ** Regular expressions *)

Module RegExpFacts.
Import RegExp.

(** A property of all 256 code units is settled by running through
    them. *)
Ltac each_unit c := destruct c as [[] [] [] [] [] [] [] []]; vm_compute.

Lemma sameChar_refl (c : ascii) : sameChar c c = true.
Proof. apply N.eqb_refl. Qed.

Lemma isWordChar_toLowerChar (c : ascii) :
  isWordChar (toLowerChar c) = isWordChar c.
Proof. each_unit c; reflexivity. Qed.

Lemma not_escaped (c : ascii) :
  isEscaped c = false ->
  ascii_eqb c "\"%char = false /\ isSyntaxCharacter c = false.
Proof. each_unit c; intros H; (discriminate H || (split; reflexivity)). Qed.

(** The escaping is complete: the escaped text always reads back as the
    string it was made from, so neither constructor call throws. *)
Lemma parseLiteral_escapeRegExp (s : jsstring) :
  parseLiteral (escapeRegExp s) = Some s.
Proof.
  induction s as [|c s IH]; [reflexivity|].
  unfold escapeRegExp in *; simpl flat_map.
  destruct (isEscaped c) eqn:E; simpl app.
  - simpl. rewrite E, IH; reflexivity.
  - destruct (not_escaped c E) as [E1 E2].
    simpl. rewrite E1, E2, IH; reflexivity.
Qed.

Lemma wordBoundaryRegExp_escape (s : jsstring) :
  wordBoundaryRegExp (escapeRegExp s) = Normal (Seq WordB (Seq (literal s) WordB)).
Proof. unfold wordBoundaryRegExp; rewrite parseLiteral_escapeRegExp; reflexivity. Qed.

Lemma delimitedRegExp_escape (s : jsstring) :
  delimitedRegExp (escapeRegExp s)
  = Normal (Seq (Alt Bol delimiter) (Seq (literal s) (Alt Eol delimiter))).
Proof. unfold delimitedRegExp; rewrite parseLiteral_escapeRegExp; reflexivity. Qed.

Lemma nth_error_middle (A : Type) (pre : list A) (c : A) (post : list A) :
  nth_error (pre ++ c :: post) (length pre) = Some c.
Proof. induction pre; simpl; auto. Qed.

(** A literal pattern steps over an occurrence of its string. *)
Lemma matchAt_literal (s pre post : jsstring) (k : nat -> bool) :
  k (length pre + length s) = true ->
  matchAt (literal s) (pre ++ s ++ post) (length pre) k = true.
Proof.
  revert pre; induction s as [|c s IH]; intros pre Hk; simpl.
  - rewrite Nat.add_0_r in Hk; exact Hk.
  - rewrite nth_error_middle, sameChar_refl; simpl.
    specialize (IH (pre ++ [c])).
    rewrite <- app_assoc, length_app in IH; simpl in IH.
    rewrite Nat.add_1_r in IH. apply IH.
    simpl in Hk. rewrite Nat.add_succ_r in Hk. exact Hk.
Qed.

Lemma test_intro (r : t) (input : jsstring) (i : nat) :
  i <= length input ->
  matchAt r input i (fun _ => true) = true -> test r input = true.
Proof.
  intros Hi Hm. apply existsb_exists. exists i; split; [|exact Hm].
  apply in_seq; lia.
Qed.

End RegExpFacts.

(** ** The stable sort *)

Section SortFacts.
Variable A : Type.
Variable comparefn : A -> A -> Number.t.

Local Abbreviation insert := (JsArray.insert comparefn).
Local Abbreviation sort := (JsArray.sort comparefn).
Local Abbreviation after := (JsArray.after comparefn).

Lemma insert_perm (x : A) (l : list A) : Permutation (insert x l) (x :: l).
Proof.
  induction l as [|y l IH]; simpl; [reflexivity|].
  destruct (after x y); [|reflexivity].
  rewrite IH. apply perm_swap.
Qed.

Lemma sort_perm (l : list A) : Permutation (sort l) l.
Proof.
  induction l as [|x l IH]; simpl; [reflexivity|].
  rewrite insert_perm. apply perm_skip, IH.
Qed.

Lemma sort_In (l : list A) (x : A) : In x (sort l) <-> In x l.
Proof.
  split; apply Permutation_in; [|symmetry]; apply sort_perm.
Qed.

Lemma sort_length (l : list A) : length (sort l) = length l.
Proof. apply Permutation_length, sort_perm. Qed.

(** An element that goes after nothing in [l2] stays in front of it. *)
Lemma insert_app (x : A) (l1 l2 : list A) :
  (forall y, In y l2 -> after x y = false) ->
  insert x (l1 ++ l2) = insert x l1 ++ l2.
Proof.
  intros H; induction l1 as [|z l1 IH]; simpl.
  - destruct l2 as [|y l2]; [reflexivity|].
    simpl. rewrite (H y (or_introl eq_refl)). reflexivity.
  - destruct (after x z); [rewrite IH|]; reflexivity.
Qed.

Lemma sort_app (l1 l2 : list A) :
  (forall x y, In x l1 -> In y l2 -> after x y = false) ->
  sort (l1 ++ l2) = sort l1 ++ sort l2.
Proof.
  induction l1 as [|x l1 IH]; intros H; simpl; [reflexivity|].
  rewrite IH by (intros; apply H; simpl; auto).
  apply insert_app. intros y Hy. apply H; [left; reflexivity|].
  apply sort_In, Hy.
Qed.

(** The result is ordered for every relation that agrees with the
    comparator and is transitive on the values that occur. *)
Section Ordered.
Variable D : A -> Prop.
Variable R : A -> A -> Prop.
Hypothesis before_R : forall x y, D x -> D y -> after x y = false -> R x y.
Hypothesis after_R : forall x y, D x -> D y -> after x y = true -> R y x.
Hypothesis R_trans : forall x y z, D x -> D y -> D z -> R x y -> R y z -> R x z.

Lemma insert_sorted (x : A) (l : list A) :
  D x -> Forall D l -> StronglySorted R l -> StronglySorted R (insert x l).
Proof.
  intros Dx Dl Hs; induction Hs as [|y l Hs IH Hy]; simpl.
  - repeat constructor.
  - inversion Dl as [|? ? Dy Dl']; subst.
    destruct (after x y) eqn:E.
    + constructor; [apply IH, Dl'|].
      apply Forall_forall; intros z Hz.
      apply (Permutation_in _ (insert_perm x l)) in Hz.
      destruct Hz as [<-|Hz]; [apply after_R; assumption|].
      rewrite Forall_forall in Hy; auto.
    + constructor; [constructor; assumption|].
      constructor; [apply before_R; assumption|].
      rewrite Forall_forall in *; intros z Hz.
      apply R_trans with y; auto.
Qed.

Lemma sort_sorted (l : list A) : Forall D l -> StronglySorted R (sort l).
Proof.
  induction l as [|x l IH]; intros Dl; simpl; [constructor|].
  inversion Dl as [|? ? Dx Dl']; subst.
  apply insert_sorted; [exact Dx | | apply IH, Dl'].
  apply Forall_forall; intros z Hz. apply (proj1 (sort_In _ _)) in Hz.
  rewrite Forall_forall in Dl'. apply Dl', Hz.
Qed.
End Ordered.

End SortFacts.

Lemma StronglySorted_app_cross (A : Type) (R : A -> A -> Prop) (l1 l2 : list A) :
  StronglySorted R (l1 ++ l2) -> forall x y, In x l1 -> In y l2 -> R x y.
Proof.
  induction l1 as [|a l1 IH]; simpl; intros Hs x y Hx Hy; [contradiction|].
  inversion Hs as [|? ? Hs' Ha]; subst.
  destruct Hx as [<-|Hx]; [|eauto].
  rewrite Forall_forall in Ha. apply Ha, in_or_app; auto.
Qed.

Lemma StronglySorted_firstn (A : Type) (R : A -> A -> Prop) (n : nat) (l : list A) :
  StronglySorted R l -> StronglySorted R (firstn n l).
Proof.
  intros Hs; revert n; induction Hs as [|a l Hs IH Ha]; intros [|n]; simpl;
    try constructor; auto.
  rewrite Forall_forall in *; intros x Hx. apply Ha.
  rewrite <- (firstn_skipn n l). apply in_or_app; auto.
Qed.

(** ** The loops of the generator *)

Section MockFacts.

Lemma exactMatch_eq (content keyword : jsstring) :
  exactMatch content keyword = Normal (exactMatchB content keyword).
Proof.
  unfold exactMatch. rewrite RegExpFacts.delimitedRegExp_escape. reflexivity.
Qed.

Lemma targetStep_eq (content keyword : jsstring) (st : MockState) :
  targetStep content keyword st =
  Normal {| mockKeywords := mockKeywords st ++ targetKeywordEntries content keyword;
            mockEntities := mockEntities st ++ targetEntityEntries content keyword |}.
Proof.
  unfold targetStep, targetKeywordEntries, targetEntityEntries.
  rewrite exactMatch_eq; simpl bind.
  destruct st as [ks es]; unfold pushKeyword, pushEntity; simpl.
  destruct (exactMatchB content keyword); simpl.
  - destruct (includes (toLowerCase keyword) bras); simpl;
      rewrite ?app_nil_r; reflexivity.
  - destruct (includes (toLowerCase content) (trim (toLowerCase keyword)));
      simpl; rewrite ?app_nil_r; reflexivity.
Qed.

(** The target loop never throws and pushes, keyword by keyword, the
    entries of [targetKeywordEntries] and [targetEntityEntries]. *)
Lemma targetLoop_eq (content : jsstring) (targets : list jsstring) (st : MockState) :
  targetLoop content targets st =
  Normal {| mockKeywords :=
              mockKeywords st ++ flat_map (targetKeywordEntries content) targets;
            mockEntities :=
              mockEntities st ++ flat_map (targetEntityEntries content) targets |}.
Proof.
  revert st; induction targets as [|kw targets IH]; intros st; simpl.
  - destruct st; simpl; rewrite !app_nil_r; reflexivity.
  - rewrite targetStep_eq; simpl bind. rewrite IH; simpl.
    rewrite <- !app_assoc. reflexivity.
Qed.

Lemma Pushed_trans P (l1 l2 l3 : list Keyword.t) :
  Pushed P l1 l2 -> Pushed P l2 l3 -> Pushed P l1 l3.
Proof.
  intros H12 H23; induction H23; [exact H12|].
  apply Pushed_one; assumption.
Qed.

Lemma Pushed_fold P (X : Type) (Q : X -> Prop) (f : MockState -> X -> MockState)
    (xs : list X) :
  (forall st x, Q x -> Pushed P (mockKeywords st) (mockKeywords (f st x))) ->
  Forall Q xs ->
  forall st, Pushed P (mockKeywords st) (mockKeywords (fold_left f xs st)).
Proof.
  intros Hf HQ; induction HQ as [|x xs Hx HQ IH]; intros st; simpl.
  - apply Pushed_none.
  - eapply Pushed_trans; [apply Hf, Hx | apply IH].
Qed.

(** What was pushed, read off the final list. *)
Lemma Pushed_inv P (base l : list Keyword.t) :
  Pushed P base l ->
  exists added, l = base ++ added /\
    forall l1 e l2, added = l1 ++ e :: l2 -> P (base ++ l1) e.
Proof.
  induction 1 as [|l e Hl (added & -> & IH) He].
  - exists []; split; [symmetry; apply app_nil_r|].
    intros [|? ?] ? ? E; discriminate E.
  - exists (added ++ [e]); split; [symmetry; apply app_assoc|].
    intros l1 e' l2 E.
    destruct l2 as [|x l2' _] using rev_ind.
    + apply app_inj_tail in E as [-> ->]. exact He.
    + change (l1 ++ e' :: l2' ++ [x]) with (l1 ++ (e' :: l2') ++ [x]) in E.
      rewrite app_assoc in E. apply app_inj_tail in E as [E _].
      apply (IH _ _ _ E).
Qed.

Lemma phraseStep_pushed (words : list jsstring) (i j : nat) (st : MockState) :
  1 <= j <= 3 ->
  Pushed (PhrasePush words) (mockKeywords st)
         (mockKeywords (phraseStep words i j st)).
Proof.
  intros Hj. unfold phraseStep.
  destruct (Nat.leb_spec (i + j) (length words)) as [Hij|_]; [|apply Pushed_none].
  set (phrase := join (str " ") (slice words i j)).
  destruct (Nat.ltb_spec (length phrase) 3) as [_|Hlen]; [apply Pushed_none|].
  simpl orb.
  destruct (some (sameTextK phrase) (mockKeywords st)) eqn:Hdup; [apply Pushed_none|].
  assert (Pushed (PhrasePush words) (mockKeywords st)
                 (mockKeywords st ++ [phraseKeyword phrase j])) as Hpush.
  { apply Pushed_one; [apply Pushed_none|].
    exists i, j. repeat split; try tauto; try assumption.
    intros k Hk E. unfold some in Hdup.
    assert (sameTextK phrase k = false) as Hk'.
    { destruct (sameTextK phrase k) eqn:Ek; [|reflexivity].
      rewrite <- Hdup. symmetry. apply existsb_exists. eauto. }
    unfold sameTextK in Hk'. simpl in E. apply streq_true in E. congruence. }
  destruct (_ && _)%bool; exact Hpush.
Qed.

Lemma phraseLoop_pushed (words : list jsstring) (st : MockState) :
  Pushed (PhrasePush words) (mockKeywords st)
         (mockKeywords (phraseLoop words st)).
Proof.
  unfold phraseLoop.
  apply (Pushed_fold (Q := fun _ => True)); [|apply Forall_forall; trivial].
  intros st' i _.
  apply (Pushed_fold (Q := fun j => 1 <= j <= 3)).
  - intros st'' j Hj. apply phraseStep_pushed, Hj.
  - repeat constructor.
Qed.

Lemma phraseStep_entities (words : list jsstring) (i j : nat) (st : MockState) :
  Forall isProductType (mockEntities st) ->
  Forall isProductType (mockEntities (phraseStep words i j st)).
Proof.
  intros H. unfold phraseStep.
  repeat match goal with
         | |- context [if ?b then _ else _] => destruct b
         end; simpl; try exact H.
  apply Forall_app; split; [exact H|]. repeat constructor.
Qed.

Lemma phraseLoop_entities (words : list jsstring) (st : MockState) :
  Forall isProductType (mockEntities st) ->
  Forall isProductType (mockEntities (phraseLoop words st)).
Proof.
  unfold phraseLoop. generalize (seq 0 (length words)) as idx.
  intros idx; revert st; induction idx as [|i idx IH]; intros st H; simpl; [exact H|].
  apply IH. repeat apply phraseStep_entities. exact H.
Qed.

Lemma targetEntities_productType (content : jsstring) (targets : list jsstring) :
  Forall isProductType (flat_map (targetEntityEntries content) targets).
Proof.
  apply Forall_flat_map, Forall_forall; intros kw _.
  unfold targetEntityEntries. destruct (_ && _)%bool; repeat constructor.
Qed.

(** The candidates: the target entries, then the phrase entries. *)
Lemma candidates_eq (content : jsstring) (targets : list jsstring) :
  exists st,
    candidates content targets = Normal st /\
    Pushed (PhrasePush (splitWhiteSpace content))
           (flat_map (targetKeywordEntries content) targets) (mockKeywords st) /\
    Forall isProductType (mockEntities st).
Proof.
  unfold candidates. rewrite targetLoop_eq; simpl.
  eexists; split; [reflexivity|]. split.
  - apply (phraseLoop_pushed (splitWhiteSpace content)
             {| mockKeywords := flat_map (targetKeywordEntries content) targets;
                mockEntities := flat_map (targetEntityEntries content) targets |}).
  - apply phraseLoop_entities; simpl. apply targetEntities_productType.
Qed.

(** With [results] present the generator returns: the keywords are the
    first 15 of the sorted candidates and the entities are the new ones
    followed by those of [results]. *)
Lemma mock_present (r : AnalysisResult) (content : jsstring)
    (targets : list jsstring) (st : MockState) :
  candidates content targets = Normal st ->
  mockAnalysisForKeywords (Some r) content targets =
  Normal {| optimizedText := Some content;
            keywords := Some (firstn 15 (JsArray.sort byRelevance (mockKeywords st)));
            entities := Some (mockEntities st ++ sourceEntities r) |}.
Proof.
  intros Hc. unfold mockAnalysisForKeywords, sourceEntities.
  rewrite Hc; simpl. destruct (entities r) as [[|e es]|];
    rewrite ?app_nil_r; reflexivity.
Qed.

End MockFacts.

(** ** Relevances *)

Section RelevanceFacts.

Ltac enum H := simpl in H; repeat (destruct H as [H|H]; [subst|]); try contradiction.

(** On the relevances of the generator the comparator is positive
    exactly when its first argument has the lower relevance. *)
Lemma sub_positive (a b : Number.t) :
  In a mockRelevances -> In b mockRelevances ->
  Number.ltb Number.zero (Number.sub b a) = negb (Number.leb b a).
Proof. intros Ha Hb. enum Ha; enum Hb; vm_compute; reflexivity. Qed.

Lemma leb_total (a b : Number.t) :
  In a mockRelevances -> In b mockRelevances ->
  Number.leb b a = false -> Number.leb a b = true.
Proof. intros Ha Hb. enum Ha; enum Hb; vm_compute; auto. Qed.

Lemma leb_trans (a b c : Number.t) :
  In a mockRelevances -> In b mockRelevances -> In c mockRelevances ->
  Number.leb b a = true -> Number.leb c b = true -> Number.leb c a = true.
Proof. intros Ha Hb Hc. enum Ha; enum Hb; enum Hc; vm_compute; auto. Qed.

Lemma target_above_phrase (a b : Number.t) :
  In a targetRelevances -> In b phraseRelevances ->
  Number.ltb Number.zero (Number.sub b a) = false.
Proof. intros Ha Hb. enum Ha; enum Hb; vm_compute; reflexivity. Qed.

Lemma phraseRelevance_in (j : nat) :
  1 <= j <= 3 -> In (phraseRelevance j) phraseRelevances.
Proof.
  intros Hj. assert (j = 1 \/ j = 2 \/ j = 3) as [-> | [-> | ->]] by lia;
    simpl; auto.
Qed.

Lemma phraseRelevance_le (j : nat) :
  1 <= j <= 3 -> Number.leb (phraseRelevance j) Number.d0_6 = true.
Proof.
  intros Hj. assert (j = 1 \/ j = 2 \/ j = 3) as [-> | [-> | ->]] by lia;
    vm_compute; reflexivity.
Qed.

Lemma before_descending (x y : Keyword.t) :
  hasMockRelevance x -> hasMockRelevance y ->
  JsArray.after byRelevance x y = false -> descending x y.
Proof.
  unfold hasMockRelevance, JsArray.after, byRelevance, descending.
  intros Hx Hy. rewrite (sub_positive Hx Hy).
  destruct (Number.leb _ _); [reflexivity | discriminate].
Qed.

Lemma after_descending (x y : Keyword.t) :
  hasMockRelevance x -> hasMockRelevance y ->
  JsArray.after byRelevance x y = true -> descending y x.
Proof.
  unfold hasMockRelevance, JsArray.after, byRelevance, descending.
  intros Hx Hy. rewrite (sub_positive Hx Hy).
  destruct (Number.leb (Keyword.relevance y) (Keyword.relevance x)) eqn:E;
    [discriminate|]. intros _. apply leb_total; assumption.
Qed.

Lemma descending_trans (x y z : Keyword.t) :
  hasMockRelevance x -> hasMockRelevance y -> hasMockRelevance z ->
  descending x y -> descending y z -> descending x z.
Proof.
  unfold descending, hasMockRelevance; intros Hx Hy Hz Hxy Hyz.
  exact (leb_trans Hx Hy Hz Hxy Hyz).
Qed.

(** Sorting candidates of the generator by [byRelevance] orders them. *)
Lemma sort_descending (l : list Keyword.t) :
  Forall hasMockRelevance l ->
  StronglySorted descending (JsArray.sort byRelevance l).
Proof.
  apply sort_sorted;
    [apply before_descending | apply after_descending | apply descending_trans].
Qed.

Lemma targetKeywordEntries_relevance (content keyword : jsstring) (e : Keyword.t) :
  In e (targetKeywordEntries content keyword) ->
  In (Keyword.relevance e) targetRelevances.
Proof.
  unfold targetKeywordEntries.
  repeat match goal with |- context [if ?b then _ else _] => destruct b end;
    simpl; intros H; intuition (subst; simpl; auto).
Qed.

Lemma targets_relevance (content : jsstring) (targets : list jsstring) :
  Forall (fun e => In (Keyword.relevance e) targetRelevances)
         (flat_map (targetKeywordEntries content) targets).
Proof.
  apply Forall_flat_map, Forall_forall; intros kw _.
  apply Forall_forall; intros e. apply targetKeywordEntries_relevance.
Qed.

Lemma Pushed_Forall P (Q : Keyword.t -> Prop) (base l : list Keyword.t) :
  (forall l' e, P l' e -> Q e) ->
  Pushed P base l -> exists added, l = base ++ added /\ Forall Q added.
Proof.
  intros HPQ H; induction H as [|l e Hl (added & -> & IH) He].
  - exists []; split; [symmetry; apply app_nil_r | constructor].
  - exists (added ++ [e]); split; [symmetry; apply app_assoc|].
    apply Forall_app; split; [exact IH|]. repeat constructor. eapply HPQ, He.
Qed.

Lemma PhrasePush_relevance (words : list jsstring) (l : list Keyword.t)
    (e : Keyword.t) :
  PhrasePush words l e -> In (Keyword.relevance e) phraseRelevances.
Proof.
  intros (i & j & Hj & _ & -> & _). apply phraseRelevance_in, Hj.
Qed.

(** Every candidate has one of the five relevances. *)
Lemma candidates_relevance (content : jsstring) (targets : list jsstring)
    (st : MockState) :
  candidates content targets = Normal st ->
  Forall hasMockRelevance (mockKeywords st).
Proof.
  intros Hc. destruct (candidates_eq content targets) as (st' & Hc' & Hp & _).
  rewrite Hc in Hc'; injection Hc' as <-.
  destruct (Pushed_Forall
              (fun e => In (Keyword.relevance e) phraseRelevances)
              (@PhrasePush_relevance _) Hp) as (added & E & Ha).
  rewrite E.
  apply Forall_app; split.
  - eapply Forall_impl; [|apply targets_relevance].
    intros e He. apply in_or_app; left; exact He.
  - eapply Forall_impl; [|exact Ha].
    intros e He. apply in_or_app; right; exact He.
Qed.

End RelevanceFacts.

(** * The claims about the generator *)

(** C7.  For every input the [keywords] of the result of
    [mockAnalysisForKeywords] are the candidate entries sorted by
    descending relevance and cut to the first 15: the sorted list is a
    permutation of the candidates in non-increasing relevance, the
    output is its first 15 elements, hence itself in non-increasing
    relevance and never longer than 15. *)
Theorem C7_keywords_sorted_top15 (r : AnalysisResult) (content : jsstring)
    (targets : list jsstring) :
  exists st out ks,
    candidates content targets = Normal st /\
    mockAnalysisForKeywords (Some r) content targets = Normal out /\
    keywords out = Some ks /\
    ks = firstn 15 (JsArray.sort byRelevance (mockKeywords st)) /\
    Permutation (JsArray.sort byRelevance (mockKeywords st)) (mockKeywords st) /\
    StronglySorted descending (JsArray.sort byRelevance (mockKeywords st)) /\
    StronglySorted descending ks /\
    length ks <= 15.
Proof.
  destruct (candidates_eq content targets) as (st & Hc & _).
  pose proof (sort_descending (candidates_relevance _ _ Hc)) as Hs.
  exists st. eexists. eexists.
  split; [exact Hc|]. split; [apply mock_present, Hc|].
  split; [reflexivity|]. split; [reflexivity|].
  split; [apply sort_perm|]. split; [exact Hs|].
  split; [apply StronglySorted_firstn, Hs | apply firstn_le_length].
Qed.

(** C8.  For every input the [entities] of the result are the newly
    detected entities, all of type ProductType and in the order of their
    detection, followed by the entities of [sourceResult] in their
    order; when [sourceResult] has no entities the output is the newly
    detected list alone. *)
Theorem C8_entities_new_before_old (r : AnalysisResult) (content : jsstring)
    (targets : list jsstring) :
  exists st out,
    candidates content targets = Normal st /\
    mockAnalysisForKeywords (Some r) content targets = Normal out /\
    entities out = Some (mockEntities st ++ sourceEntities r) /\
    Forall isProductType (mockEntities st) /\
    (entities r = None \/ entities r = Some [] ->
     entities out = Some (mockEntities st)).
Proof.
  destruct (candidates_eq content targets) as (st & Hc & _ & He).
  exists st. eexists. split; [exact Hc|]. split; [apply mock_present, Hc|].
  split; [reflexivity|]. split; [exact He|].
  unfold sourceEntities; simpl. intros [-> | ->]; rewrite app_nil_r; reflexivity.
Qed.

(** C9.  The phrase loop only appends to the keyword list, and every
    entry it appends has a text of at least 3 units that differs, up to
    case, from the text of every entry in the list at the time of its
    insertion (the entries that were there before the loop and the ones
    the loop appended earlier). *)
Theorem C9_phrases_long_and_fresh (words : list jsstring) (st : MockState) :
  exists added,
    mockKeywords (phraseLoop words st) = mockKeywords st ++ added /\
    forall l1 e l2, added = l1 ++ e :: l2 ->
      3 <= length (Keyword.text e) /\
      forall k, In k (mockKeywords st ++ l1) ->
        toLowerCase (Keyword.text k) <> toLowerCase (Keyword.text e).
Proof.
  destruct (Pushed_inv (phraseLoop_pushed words st)) as (added & E & H).
  exists added; split; [exact E|].
  intros l1 e l2 Ea. destruct (H _ _ _ Ea) as (i & j & _ & _ & _ & Hlen & Hfresh).
  split; assumption.
Qed.

Lemma targetEntries_length (content : jsstring) (targets : list jsstring) :
  length (flat_map (targetKeywordEntries content) targets)
  = length (filter (targetMatches content) targets).
Proof.
  induction targets as [|kw targets IH]; simpl; [reflexivity|].
  rewrite length_app, IH. unfold targetKeywordEntries, targetMatches.
  destruct (exactMatchB content kw); simpl; [reflexivity|].
  destruct (includes _ _); reflexivity.
Qed.

(** C10.  The candidates are the target entries [T] followed by the
    phrase entries [S].  Every entry of [T] has relevance 0.95 or 0.8;
    every entry of [S] is a window of [j] words, [j] from 1 to 3, with
    relevance [0.7 - 0.1 * j], which is at most 0.6.  The sort therefore
    puts all of [T] in front of all of [S], and when at most 15 target
    keywords match the content every entry of [T] is among the first 15,
    that is in the output. *)
Theorem C10_targets_precede_phrases (r : AnalysisResult) (content : jsstring)
    (targets : list jsstring) :
  exists st T S out ks,
    candidates content targets = Normal st /\
    mockKeywords st = T ++ S /\
    T = flat_map (targetKeywordEntries content) targets /\
    length T = length (filter (targetMatches content) targets) /\
    Forall (fun e => Keyword.relevance e = Number.d0_95
                     \/ Keyword.relevance e = Number.d0_8) T /\
    Forall (fun e => exists i j,
                1 <= j <= 3 /\ i + j <= length (splitWhiteSpace content) /\
                Keyword.text e
                = join (str " ") (slice (splitWhiteSpace content) i j) /\
                Keyword.relevance e = phraseRelevance j /\
                Number.leb (Keyword.relevance e) Number.d0_6 = true) S /\
    JsArray.sort byRelevance (T ++ S)
    = JsArray.sort byRelevance T ++ JsArray.sort byRelevance S /\
    mockAnalysisForKeywords (Some r) content targets = Normal out /\
    keywords out = Some ks /\
    (length (filter (targetMatches content) targets) <= 15 ->
     forall e, In e T -> In e ks).
Proof.
  destruct (candidates_eq content targets) as (st & Hc & Hp & _).
  set (T := flat_map (targetKeywordEntries content) targets) in *.
  assert (Hphrase : forall l e, PhrasePush (splitWhiteSpace content) l e ->
            exists i j,
              1 <= j <= 3 /\ i + j <= length (splitWhiteSpace content) /\
              Keyword.text e
              = join (str " ") (slice (splitWhiteSpace content) i j) /\
              Keyword.relevance e = phraseRelevance j /\
              Number.leb (Keyword.relevance e) Number.d0_6 = true).
  { intros l e (i & j & Hj & Hij & -> & _). exists i, j.
    repeat split; try tauto; try assumption.
    apply phraseRelevance_le, Hj. }
  destruct (Pushed_Forall _ Hphrase Hp) as (S & E & HS).
  assert (Hsort : JsArray.sort byRelevance (T ++ S)
                  = JsArray.sort byRelevance T ++ JsArray.sort byRelevance S).
  { apply sort_app. intros x y Hx Hy. unfold JsArray.after, byRelevance.
    apply target_above_phrase.
    - pose proof (targets_relevance content targets) as HT.
      rewrite Forall_forall in HT. apply HT, Hx.
    - rewrite Forall_forall in HS.
      destruct (HS _ Hy) as (i & j & Hj & _ & _ & -> & _).
      apply phraseRelevance_in, Hj. }
  exists st, T, S. eexists. eexists.
  split; [exact Hc|]. split; [exact E|]. split; [reflexivity|].
  split; [apply targetEntries_length|].
  split.
  { pose proof (targets_relevance content targets) as HT.
    eapply Forall_impl; [|exact HT]. simpl. intros e [H|[H|[]]]; auto. }
  split; [exact HS|]. split; [exact Hsort|].
  split; [apply mock_present, Hc|]. split; [reflexivity|].
  intros Hlen e He. rewrite E, Hsort.
  rewrite <- (targetEntries_length content targets) in Hlen. fold T in Hlen.
  rewrite firstn_app. apply in_or_app; left.
  rewrite firstn_all2 by (rewrite sort_length; exact Hlen).
  apply sort_In, He.
Qed.

(** A run with three target keywords, of which two match. *)
Lemma C10_witness :
  exists ks,
    mockAnalysisForKeywords (Some noProperties) (str "Great support for everyone")
      [str "support"; str "every"; str "bras"]
    = Normal {| optimizedText := Some (str "Great support for everyone");
                keywords := Some ks; entities := Some [] |} /\
    In (exactKeyword (str "support")) ks /\ In (partialKeyword (str "every")) ks.
Proof.
  destruct (C10_targets_precede_phrases noProperties
              (str "Great support for everyone")
              [str "support"; str "every"; str "bras"])
    as (st & T & S & out & ks & Hc & _ & HT & _ & _ & _ & _ & Hm & Hk & Hin).
  exists ks. clear Hc.
  vm_compute in Hm. injection Hm as <-. simpl in Hk. injection Hk as <-.
  split; [vm_compute; reflexivity|].
  assert (Hlen : length (filter (targetMatches (str "Great support for everyone"))
                          [str "support"; str "every"; str "bras"]) <= 15)
    by (vm_compute; repeat constructor).
  split; apply (Hin Hlen); rewrite HT; vm_compute; auto.
Defined.

Lemma targetEntry_pushed (content keyword : jsstring) (targets : list jsstring) :
  In keyword targets ->
  includes (toLowerCase content) (trim (toLowerCase keyword)) = true ->
  exists e,
    (e = exactKeyword keyword \/ e = partialKeyword keyword) /\
    In e (flat_map (targetKeywordEntries content) targets).
Proof.
  intros Hin Hinc.
  exists (if exactMatchB content keyword
          then exactKeyword keyword else partialKeyword keyword).
  split; [destruct (exactMatchB content keyword); auto|].
  apply in_flat_map. exists keyword; split; [exact Hin|].
  unfold targetKeywordEntries. rewrite Hinc.
  destruct (exactMatchB content keyword); left; reflexivity.
Qed.

(** C1, as amended.  Every target keyword whose lower-cased, trimmed
    text occurs in the lower-cased content gets a candidate entry, its
    exact entry (relevance 0.95) or its partial entry (relevance 0.8).
    That entry is in the output, unless the output holds 15 entries that
    all have a relevance at least as high as the entry's own. *)
Theorem C1_target_keyword_represented (r : AnalysisResult) (content : jsstring)
    (targets : list jsstring) (keyword : jsstring) :
  In keyword targets ->
  includes (toLowerCase content) (trim (toLowerCase keyword)) = true ->
  exists st out ks e,
    candidates content targets = Normal st /\
    mockAnalysisForKeywords (Some r) content targets = Normal out /\
    keywords out = Some ks /\
    (e = exactKeyword keyword \/ e = partialKeyword keyword) /\
    In e (mockKeywords st) /\
    (In e ks \/
     (length ks = 15 /\
      Forall (fun x => Number.leb (Keyword.relevance e) (Keyword.relevance x)
                       = true) ks)).
Proof.
  intros Hin Hinc.
  destruct (candidates_eq content targets) as (st & Hc & Hp & _).
  destruct (targetEntry_pushed content keyword targets Hin Hinc) as (e & He & HeT).
  destruct (Pushed_inv Hp) as (added & E & _).
  assert (HeC : In e (mockKeywords st))
    by (rewrite E; apply in_or_app; left; exact HeT).
  pose proof (sort_descending (candidates_relevance _ _ Hc)) as Hs.
  set (sorted := JsArray.sort byRelevance (mockKeywords st)) in *.
  exists st. eexists. exists (firstn 15 sorted), e.
  split; [exact Hc|]. split; [apply mock_present, Hc|].
  split; [reflexivity|]. split; [exact He|]. split; [exact HeC|].
  assert (HeS : In e sorted) by (apply sort_In, HeC).
  rewrite <- (firstn_skipn 15 sorted) in HeS, Hs.
  apply in_app_or in HeS as [HeS|HeS]; [left; exact HeS|right].
  split.
  - apply firstn_length_le.
    destruct (Nat.le_gt_cases 15 (length sorted)) as [H|H]; [exact H|].
    rewrite skipn_all2 in HeS by lia. contradiction.
  - apply Forall_forall; intros x Hx.
    exact (@StronglySorted_app_cross _ descending _ _ Hs x e Hx HeS).
Qed.

(** A run in which the only target keyword is a substring of a word. *)
Lemma C1_witness :
  In (str "every") [str "every"] /\
  includes (toLowerCase (str "Great support for everyone"))
           (trim (toLowerCase (str "every"))) = true /\
  exists st out ks,
    candidates (str "Great support for everyone") [str "every"] = Normal st /\
    mockAnalysisForKeywords (Some noProperties)
      (str "Great support for everyone") [str "every"] = Normal out /\
    keywords out = Some ks /\
    In (partialKeyword (str "every")) ks.
Proof.
  assert (H1 : In (str "every") [str "every"]) by (left; reflexivity).
  assert (H2 : includes (toLowerCase (str "Great support for everyone"))
                        (trim (toLowerCase (str "every"))) = true)
    by (vm_compute; reflexivity).
  split; [exact H1|]. split; [exact H2|].
  destruct (C1_target_keyword_represented noProperties _ _ _ H1 H2)
    as (st & out & ks & e & Hc & Hm & Hk & He & _ & _).
  exists st, out, ks. split; [exact Hc|]. split; [exact Hm|]. split; [exact Hk|].
  vm_compute in Hm. injection Hm as <-. simpl in Hk. injection Hk as <-.
  vm_compute. auto.
Defined.

(** C1 as stated fails.  With sixteen target keywords that all match as
    whole words, all sixteen entries have relevance 0.95, the sort keeps
    their order and the cut drops the sixteenth, although no candidate
    has a relevance above 0.95. *)
Lemma C1_sixteen_exact_targets :
  exists st out ks,
    candidates sixteenWords sixteenTargets = Normal st /\
    mockAnalysisForKeywords (Some noProperties) sixteenWords sixteenTargets
    = Normal out /\
    keywords out = Some ks /\
    ~ representedOrOutranked sixteenWords sixteenTargets (mockKeywords st) ks.
Proof.
  destruct (candidates_eq sixteenWords sixteenTargets) as (st & Hc & _).
  exists st. eexists. eexists.
  split; [exact Hc|]. split; [apply mock_present, Hc|]. split; [reflexivity|].
  vm_compute in Hc. injection Hc as <-.
  intros H. specialize (H (str "p")).
  destruct H as [H|[H|(e & He & Hin & Hlen)]].
  - vm_compute; tauto.
  - vm_compute; reflexivity.
  - vm_compute in H. repeat (destruct H as [H|H]; [discriminate H|]). exact H.
  - vm_compute in H. repeat (destruct H as [H|H]; [discriminate H|]). exact H.
  - destruct He as [-> | ->].
    + vm_compute in Hlen. inversion Hlen.
    + vm_compute in Hin.
      repeat (destruct Hin as [Hin|Hin]; [discriminate Hin|]). exact Hin.
Qed.

(** ** Word boundaries and delimiters *)

Section BoundaryFacts.
Import RegExp.

Lemma atWordBoundary_split (pre rest : jsstring) :
  atWordBoundary (pre ++ rest) (length pre)
  = xorb (endsWithWordChar pre) (startsWithWordChar rest).
Proof.
  unfold atWordBoundary, endsWithWordChar, startsWithWordChar, wordCharAt.
  f_equal.
  - destruct pre as [|c pre _] using rev_ind; [reflexivity|].
    rewrite rev_app_distr, length_app, Nat.add_1_r; simpl rev; simpl app.
    rewrite <- app_assoc; simpl app.
    rewrite RegExpFacts.nth_error_middle. reflexivity.
  - destruct rest as [|c rest].
    + rewrite app_nil_r.
      replace (nth_error pre (length pre)) with (@None ascii); [reflexivity|].
      symmetry; apply nth_error_None; lia.
    + rewrite RegExpFacts.nth_error_middle. reflexivity.
Qed.

Lemma startsWithWordChar_lower (s : jsstring) :
  startsWithWordChar (toLowerCase s) = startsWithWordChar s.
Proof. destruct s; simpl; [reflexivity | apply RegExpFacts.isWordChar_toLowerChar]. Qed.

Lemma endsWithWordChar_lower (s : jsstring) :
  endsWithWordChar (toLowerCase s) = endsWithWordChar s.
Proof.
  unfold endsWithWordChar, toLowerCase. rewrite <- map_rev.
  destruct (rev s); simpl; [reflexivity | apply RegExpFacts.isWordChar_toLowerChar].
Qed.

Lemma wordBoundary_lower (before rest : jsstring) :
  wordBoundary before rest ->
  atWordBoundary (toLowerCase before ++ toLowerCase rest)
                 (length (toLowerCase before)) = true.
Proof.
  unfold wordBoundary. rewrite atWordBoundary_split.
  rewrite startsWithWordChar_lower, endsWithWordChar_lower.
  destruct (endsWithWordChar before), (startsWithWordChar rest); simpl; congruence.
Qed.

(** The pattern [\bkeyword\b] finds a whole-word match. *)
Lemma test_wholeWord (keyword text : jsstring) :
  WholeWordMatch keyword text ->
  test (Seq WordB (Seq (literal (trim (toLowerCase keyword))) WordB))
       (toLowerCase text) = true.
Proof.
  intros (pre & mid & post & -> & Hmid & B1 & B2).
  apply wordBoundary_lower in B1, B2.
  rewrite toLowerCase_app in B1 |- *. rewrite !toLowerCase_app in B2 |- *.
  rewrite Hmid in *.
  apply RegExpFacts.test_intro with (i := length (toLowerCase pre));
    [rewrite length_app; lia|].
  cbn [matchAt]. rewrite B1. cbn [andb].
  apply RegExpFacts.matchAt_literal.
  rewrite <- length_app, app_assoc, B2. reflexivity.
Qed.

Lemma startsWithWordChar_app (s t : jsstring) :
  startsWithWordChar s = true -> startsWithWordChar (s ++ t) = true.
Proof. destruct s; simpl; [discriminate | trivial]. Qed.

Lemma endsWithWordChar_app (s t : jsstring) :
  endsWithWordChar t = true -> endsWithWordChar (s ++ t) = true.
Proof.
  unfold endsWithWordChar. rewrite rev_app_distr.
  destruct (rev t); simpl; [discriminate | trivial].
Qed.

(** For a keyword that starts and ends with a word character the
    everyday reading gives a whole-word match. *)
Lemma WordDelimited_WholeWordMatch (keyword text : jsstring) :
  WordDelimited keyword text -> WholeWordMatch keyword text.
Proof.
  intros (pre & mid & post & E & Hmid & Hs & He & Hpre & Hpost).
  exists pre, mid, post. split; [exact E|]. split; [exact Hmid|].
  unfold wordBoundary.
  rewrite Hpre, Hpost, (startsWithWordChar_app _ post Hs),
    (endsWithWordChar_app pre _ He).
  split; discriminate.
Qed.

Lemma delimiter_matches (d : ascii) :
  isDelimiter d = true ->
  (existsb (sameChar d) whiteSpaceClass || existsb (sameChar d) punctuationClass)%bool
  = true.
Proof. RegExpFacts.each_unit d; intros H; (discriminate H || reflexivity). Qed.

Lemma matchAt_delimiter (pre post : jsstring) (d : ascii) (k : nat -> bool) :
  isDelimiter d = true -> k (S (length pre)) = true ->
  matchAt delimiter (pre ++ d :: post) (length pre) k = true.
Proof.
  intros Hd Hk. unfold delimiter. cbn [matchAt].
  rewrite RegExpFacts.nth_error_middle, Hk, !andb_true_r.
  apply delimiter_matches, Hd.
Qed.

(** The pattern of the generator finds a delimited match. *)
Lemma exactMatchB_delimited (keyword content : jsstring) :
  DelimitedMatch keyword content -> exactMatchB content keyword = true.
Proof.
  intros (pre & post & E & Hl & Hr). unfold exactMatchB. rewrite E.
  set (lk := trim (toLowerCase keyword)).
  assert (Hend : forall p, length p = length pre + length lk ->
            p ++ post = pre ++ lk ++ post ->
            matchAt (Alt Eol delimiter) (pre ++ lk ++ post) (length pre + length lk)
                    (fun _ => true) = true).
  { intros p Hp Ep. cbn [matchAt]. apply orb_true_iff.
    destruct Hr as [-> | (d & post' & -> & Hd)].
    - left. rewrite !length_app, Nat.add_0_r, Nat.eqb_refl. reflexivity.
    - right. rewrite <- Ep, <- Hp. apply matchAt_delimiter; [exact Hd | reflexivity]. }
  specialize (Hend (pre ++ lk)). rewrite length_app, <- app_assoc in Hend.
  specialize (Hend eq_refl eq_refl).
  destruct Hl as [-> | (pre' & d & -> & Hd)].
  - apply RegExpFacts.test_intro with (i := 0); [lia|].
    cbn [matchAt]. apply orb_true_iff; left. rewrite Nat.eqb_refl. cbn [andb].
    apply (RegExpFacts.matchAt_literal lk [] post). exact Hend.
  - apply RegExpFacts.test_intro with (i := length pre');
      [rewrite !length_app; lia|].
    cbn [matchAt]. apply orb_true_iff; right.
    rewrite <- app_assoc. cbn [app].
    apply (matchAt_delimiter pre' (lk ++ post)); [exact Hd|].
    pose proof (RegExpFacts.matchAt_literal lk (pre' ++ [d]) post) as Hlit.
    rewrite <- app_assoc, length_app, Nat.add_1_r in Hlit. cbn [app] in Hlit.
    apply Hlit.
    rewrite <- app_assoc, length_app, Nat.add_1_r in Hend. cbn [app] in Hend.
    exact Hend.
Qed.

End BoundaryFacts.

(** * The claims about the classifier *)

Section ClassifierFacts.
Context {utils : KeywordUtils}.

Lemma directTextMatch_returns (lowerKeyword text : jsstring) :
  exists b, directTextMatch lowerKeyword text = Normal b.
Proof.
  unfold directTextMatch. destruct text; [eexists; reflexivity|].
  destruct (includes lowerKeyword bras); [|eexists; reflexivity].
  rewrite RegExpFacts.wordBoundaryRegExp_escape. eexists; reflexivity.
Qed.

Lemma checkStructured_returns (keyword lowerKeyword : jsstring)
    (r : AnalysisResult) (kws : list Keyword.t) :
  exists s, checkStructured keyword lowerKeyword (Some r) kws = Normal s.
Proof.
  unfold checkStructured, getProp, bind.
  repeat match goal with
         | |- context [if ?b then _ else _] => destruct b
         end; eexists; reflexivity.
Qed.

(** The classifier returns one of the four tiers on every keyword and
    every value of [resultsToUse]. *)
Lemma checkKeywordStatus_returns (keyword : jsstring) (resultsToUse : JsAny) :
  exists s, checkKeywordStatus keyword resultsToUse = Normal s.
Proof.
  destruct resultsToUse as [r|]; [|eexists; reflexivity]. simpl.
  destruct (keywords r) as [kws|]; [|eexists; reflexivity].
  destruct keyword as [|c keyword]; [eexists; reflexivity|].
  destruct (directTextMatch_returns (trim (toLowerCase (c :: keyword)))
              (orEmpty (optimizedText r)))
    as [[|] ->]; simpl; [eexists; reflexivity|].
  apply checkStructured_returns.
Qed.

(** Past the guards of line 11. *)
Lemma checkKeywordStatus_guarded (keyword : jsstring) (r : AnalysisResult)
    (kws : list Keyword.t) :
  keyword <> [] -> keywords r = Some kws ->
  checkKeywordStatus keyword (Some r) =
  (direct <- directTextMatch (trim (toLowerCase keyword))
                             (orEmpty (optimizedText r)) ;;
   if direct then Normal Exact
   else checkStructured keyword (trim (toLowerCase keyword)) (Some r) kws).
Proof.
  intros Hne Hk. destruct keyword as [|c keyword]; [congruence|].
  unfold checkKeywordStatus, getProp. cbn [bind]. rewrite Hk. reflexivity.
Qed.

(** It returns [Missing] on a missing result, a missing keyword list and
    an empty keyword. *)
Lemma checkKeywordStatus_missing (keyword : jsstring) (resultsToUse : JsAny) :
  resultsToUse = None
  \/ (exists r, resultsToUse = Some r /\ keywords r = None)
  \/ keyword = [] ->
  checkKeywordStatus keyword resultsToUse = Normal Missing.
Proof.
  intros [-> | [(r & -> & H) | ->]]; simpl; [reflexivity | rewrite H; reflexivity |].
  destruct resultsToUse as [r|]; [|reflexivity]. simpl.
  destruct (keywords r); reflexivity.
Qed.

Lemma directTextMatch_wholeWord (keyword text : jsstring) :
  includes (toLowerCase keyword) bras = true ->
  WholeWordMatch keyword text ->
  directTextMatch (trim (toLowerCase keyword)) text = Normal true.
Proof.
  intros Hb Hw. apply includes_trim_bras in Hb.
  pose proof (test_wholeWord Hw) as Ht.
  unfold directTextMatch. rewrite Hb, RegExpFacts.wordBoundaryRegExp_escape.
  simpl bind. rewrite Ht.
  destruct text as [|c text]; [|reflexivity].
  destruct Hw as (pre & mid & post & E & Hmid & _).
  destruct pre; [|discriminate E]. destruct mid; [|discriminate E].
  rewrite <- Hmid in Hb. discriminate Hb.
Qed.

(** Where the direct text search does fire: for every keyword whose
    lower-cased form contains "bras" and every result with a keyword list
    (empty or not) whose optimized text holds the keyword up to case with
    a word boundary of [\b] at both ends, [checkKeywordStatus] returns
    "exact". *)
Lemma bounded_product_keyword_is_exact (keyword : jsstring)
    (r : AnalysisResult) (kws : list Keyword.t) (text : jsstring) :
  keywords r = Some kws ->
  optimizedText r = Some text ->
  includes (toLowerCase keyword) bras = true ->
  WholeWordMatch keyword text ->
  checkKeywordStatus keyword (Some r) = Normal Exact.
Proof.
  intros Hk Ht Hb Hw.
  assert (Hne : keyword <> []) by (intros ->; discriminate Hb).
  rewrite (@checkKeywordStatus_guarded keyword r kws Hne Hk), Ht. unfold orEmpty.
  rewrite (directTextMatch_wholeWord Hb Hw). reflexivity.
Qed.


End ClassifierFacts.

(** The example of the specification, with helpers that match
    nothing. *)
Lemma wireless_bras_is_exact :
  keywords wirelessBrasResult = Some [] /\
  optimizedText wirelessBrasResult
  = Some (str "Our new Wireless Bras, now in stock") /\
  includes (toLowerCase (str "wireless bras")) bras = true /\
  WholeWordMatch (str "wireless bras") (str "Our new Wireless Bras, now in stock") /\
  checkKeywordStatus (utils := silentUtils) (str "wireless bras")
    (Some wirelessBrasResult) = Normal Exact.
Proof.
  assert (Hw : WholeWordMatch (str "wireless bras")
                 (str "Our new Wireless Bras, now in stock")).
  { exists (str "Our new "), (str "Wireless Bras"), (str ", now in stock").
    repeat split; try reflexivity; vm_compute; discriminate. }
  assert (Hb : includes (toLowerCase (str "wireless bras")) bras = true)
    by reflexivity.
  split; [reflexivity|]. split; [reflexivity|].
  split; [exact Hb|]. split; [exact Hw|].
  apply (@bounded_product_keyword_is_exact silentUtils
           (str "wireless bras") wirelessBrasResult []
           (str "Our new Wireless Bras, now in stock") eq_refl eq_refl Hb Hw).
Defined.


(** C3.  The direct text search builds its pattern with [\b], which
    sees a boundary only beside a unit of [[A-Za-z0-9_]].  A product
    keyword that starts or ends with another unit is therefore not found
    where it stands as a whole word.  For the keyword [Ete bras] (accents
    on both [e]) in a text that holds it between two spaces, and for
    "Bras (C++)" likewise, the lower-cased keyword contains "bras", the
    text holds the keyword between delimiters up to case, and the
    whole-word test of the generator accepts it; yet on a result with
    this text and empty lists [checkKeywordStatus] returns "missing".
    The top-10 helper is called on the empty keyword list and is taken
    to reject it. *)
Theorem C3_product_keyword_with_other_edge_is_missing (utils : KeywordUtils) :
  (forall keyword, isKeywordInTopPositions keyword [] 10 = false) ->
  (includes (toLowerCase accentedBras) bras = true /\
   DelimitedMatch accentedBras accentedContent /\
   exactMatchB accentedContent accentedBras = true /\
   ~ WholeWordMatch accentedBras accentedContent /\
   checkKeywordStatus accentedBras (Some (textOnlyResult accentedContent))
   = Normal Missing) /\
  (includes (toLowerCase bracketedBras) bras = true /\
   DelimitedMatch bracketedBras bracketedContent /\
   exactMatchB bracketedContent bracketedBras = true /\
   ~ WholeWordMatch bracketedBras bracketedContent /\
   checkKeywordStatus bracketedBras (Some (textOnlyResult bracketedContent))
   = Normal Missing).
Proof.
  intros Htop.
  assert (Hrun : forall keyword text,
            keyword <> [] ->
            directTextMatch (trim (toLowerCase keyword)) text = Normal false ->
            checkKeywordStatus keyword (Some (textOnlyResult text))
            = Normal Missing).
  { intros keyword text Hne Hd.
    rewrite (@checkKeywordStatus_guarded _ keyword (textOnlyResult text) []
               Hne eq_refl).
    cbn [optimizedText textOnlyResult orEmpty]. rewrite Hd. cbn [bind].
    unfold checkStructured. cbn [some existsb]. rewrite Htop. reflexivity. }
  split.
  - split; [reflexivity|]. split.
    { exists (str "un "), (str " nus"). split; [reflexivity|]. split.
      - right. exists (str "un"), " "%char. split; reflexivity.
      - right. exists " "%char, (str "nus"). split; reflexivity. }
    split; [vm_compute; reflexivity|]. split.
    { intros Hw. apply test_wholeWord in Hw. vm_compute in Hw. discriminate Hw. }
    apply Hrun; [discriminate | vm_compute; reflexivity].
  - split; [reflexivity|]. split.
    { exists (str "new "), (str " here"). split; [reflexivity|]. split.
      - right. exists (str "new"), " "%char. split; reflexivity.
      - right. exists " "%char, (str "here"). split; reflexivity. }
    split; [vm_compute; reflexivity|]. split.
    { intros Hw. apply test_wholeWord in Hw. vm_compute in Hw. discriminate Hw. }
    apply Hrun; [discriminate | vm_compute; reflexivity].
Qed.

Lemma C3_witness :
  (forall keyword,
     isKeywordInTopPositions (KeywordUtils := silentUtils) keyword [] 10 = false) /\
  checkKeywordStatus (utils := silentUtils) accentedBras
    (Some (textOnlyResult accentedContent)) = Normal Missing /\
  checkKeywordStatus (utils := silentUtils) bracketedBras
    (Some (textOnlyResult bracketedContent)) = Normal Missing.
Proof.
  assert (Htop : forall keyword,
            isKeywordInTopPositions (KeywordUtils := silentUtils) keyword [] 10
            = false) by reflexivity.
  split; [exact Htop|].
  destruct (@C3_product_keyword_with_other_edge_is_missing silentUtils Htop)
    as [(_ & _ & _ & _ & H1) (_ & _ & _ & _ & H2)].
  split; [exact H1 | exact H2].
Defined.

(** C5.  The comparison with entity texts lower-cases them and does not
    trim them.  For the keyword "support" and a result without keywords
    whose only entity has the text "port " (trailing space), the tier is
    "missing"; with the entity text trimmed to "port" it is "exact".
    The top-10 helper is called on the empty keyword list in both runs
    and is taken to reject it. *)
Theorem C5_untrimmed_entity_changes_tier (utils : KeywordUtils) :
  isKeywordInTopPositions (str "support") [] 10 = false ->
  checkKeywordStatus (str "support") (Some untrimmedEntityResult)
  = Normal Missing /\
  checkKeywordStatus (str "support") (Some (trimEntities untrimmedEntityResult))
  = Normal Exact.
Proof.
  intros Htop.
  assert (Hne : str "support" <> []) by discriminate.
  split.
  - rewrite (@checkKeywordStatus_guarded _ _ untrimmedEntityResult [] Hne eq_refl).
    cbn [optimizedText untrimmedEntityResult orEmpty directTextMatch bind].
    unfold checkStructured. cbn [some existsb]. rewrite Htop. reflexivity.
  - rewrite (@checkKeywordStatus_guarded _ _ (trimEntities untrimmedEntityResult)
               [] Hne eq_refl).
    cbn [optimizedText untrimmedEntityResult trimEntities orEmpty
         directTextMatch bind].
    unfold checkStructured. cbn [some existsb]. rewrite Htop. reflexivity.
Qed.

Lemma C5_witness :
  isKeywordInTopPositions (KeywordUtils := silentUtils) (str "support") [] 10
  = false /\
  checkKeywordStatus (utils := silentUtils) (str "support")
    (Some untrimmedEntityResult) = Normal Missing /\
  checkKeywordStatus (utils := silentUtils) (str "support")
    (Some (trimEntities untrimmedEntityResult)) = Normal Exact.
Proof.
  split; [reflexivity|].
  apply (C5_untrimmed_entity_changes_tier silentUtils). reflexivity.
Defined.

(** With [results] present the generator returns, and a missing
    [entities] property counts as the empty list. *)
Lemma mock_returns_with_results (r : AnalysisResult) (content : jsstring)
    (targets : list jsstring) :
  exists st out,
    candidates content targets = Normal st /\
    mockAnalysisForKeywords (Some r) content targets = Normal out /\
    (entities r = None -> entities out = Some (mockEntities st)).
Proof.
  destruct (candidates_eq content targets) as (st & Hc & _).
  exists st. eexists. split; [exact Hc|]. split; [apply mock_present, Hc|].
  unfold sourceEntities; simpl. intros ->. rewrite app_nil_r. reflexivity.
Qed.

(** C6.  [checkKeywordStatus] returns one of the four tiers on every
    keyword (empty, with pattern syntax in it) and every value of
    [resultsToUse], and returns "missing" when the result or its keyword
    list is missing or the keyword is empty.  [mockAnalysisForKeywords]
    returns when [results] is an object, a missing [entities] property
    counting as the empty list.  It reads [results.entities] on line 168
    without the guard that line 11 has: when [results] is [null] or
    [undefined] it runs both loops and then throws a [TypeError],
    whatever the content and the target keywords. *)
Theorem C6_mock_throws_without_results :
  (forall (utils : KeywordUtils) keyword resultsToUse,
      returns (checkKeywordStatus keyword resultsToUse)) /\
  (forall (utils : KeywordUtils) keyword resultsToUse,
      resultsToUse = None
      \/ (exists r, resultsToUse = Some r /\ keywords r = None)
      \/ keyword = [] ->
      checkKeywordStatus keyword resultsToUse = Normal Missing) /\
  (forall r content targets,
      returns (mockAnalysisForKeywords (Some r) content targets)) /\
  (forall content targets,
      mockAnalysisForKeywords None content targets = Throw TypeError).
Proof.
  split; [intros; apply checkKeywordStatus_returns|].
  split; [intros; apply checkKeywordStatus_missing; assumption|].
  split.
  - intros r content targets.
    destruct (mock_returns_with_results r content targets) as (st & out & _ & H & _).
    exists out; exact H.
  - intros content targets.
    destruct (candidates_eq content targets) as (st & Hc & _).
    unfold mockAnalysisForKeywords. rewrite Hc. reflexivity.
Qed.

Lemma phraseStep_keeps_entities (words : list jsstring) (i j : nat)
    (st : MockState) (e : Entity.t) :
  In e (mockEntities st) -> In e (mockEntities (phraseStep words i j st)).
Proof.
  intros H. unfold phraseStep.
  repeat match goal with
         | |- context [if ?b then _ else _] => destruct b
         end; simpl; try exact H.
  apply in_or_app; left; exact H.
Qed.

Lemma phraseLoop_keeps_entities (words : list jsstring) (st : MockState)
    (e : Entity.t) :
  In e (mockEntities st) -> In e (mockEntities (phraseLoop words st)).
Proof.
  unfold phraseLoop. generalize (seq 0 (length words)) as idx.
  intros idx; revert st; induction idx as [|i idx IH]; intros st H; simpl; [exact H|].
  apply IH. repeat apply phraseStep_keeps_entities. exact H.
Qed.

(** A target keyword that occurs in the content, up to case, between
    the start of the content, white space or one of the marks [, . ; ! ?]
    on the left and the end of the content, white space or one of these
    marks on the right gets the entry of relevance 0.95 and, when its
    lower-cased form contains "bras", the ProductType entity. *)
Lemma delimited_target_is_exact (content : jsstring) (targets : list jsstring)
    (keyword : jsstring) :
  In keyword targets ->
  DelimitedMatch keyword content ->
  exists st,
    candidates content targets = Normal st /\
    In (exactKeyword keyword) (mockKeywords st) /\
    (includes (toLowerCase keyword) bras = true ->
     In (productEntity keyword) (mockEntities st)).
Proof.
  intros Hin Hd. apply exactMatchB_delimited in Hd.
  destruct (candidates_eq content targets) as (st & Hc & Hp & _).
  exists st; split; [exact Hc|]. split.
  - destruct (Pushed_inv Hp) as (added & -> & _).
    apply in_or_app; left. apply in_flat_map. exists keyword; split; [exact Hin|].
    unfold targetKeywordEntries. rewrite Hd. left; reflexivity.
  - intros Hb. unfold candidates in Hc. rewrite targetLoop_eq in Hc.
    simpl in Hc. injection Hc as <-.
    apply phraseLoop_keeps_entities; simpl.
    apply in_flat_map. exists keyword; split; [exact Hin|].
    unfold targetEntityEntries. rewrite Hd, Hb. left; reflexivity.
Qed.

(** The example of the specification: the target "support" in "Great
    support for everyone" is in the output with relevance 0.95. *)
Lemma support_is_exact (r : AnalysisResult) :
  exists out ks,
    mockAnalysisForKeywords (Some r) (str "Great support for everyone")
      [str "support"] = Normal out /\
    keywords out = Some ks /\
    In (Keyword.mk (str "support") Number.d0_95 1) ks.
Proof.
  destruct (candidates_eq (str "Great support for everyone") [str "support"])
    as (st & Hc & _).
  eexists. eexists. split; [apply mock_present, Hc|]. split; [reflexivity|].
  vm_compute in Hc. injection Hc as <-. vm_compute. auto.
Qed.

(** C2.  A colon is no delimiter for the generator.  The target
    "support" stands in "Great support: for everyone" as a whole word,
    between a space and a colon; the output has its partial entry of
    relevance 0.8 and no entry with the text "support" and relevance
    0.95. *)
Theorem C2_colon_after_keyword_is_partial (r : AnalysisResult) :
  exists out ks,
    mockAnalysisForKeywords (Some r) (str "Great support: for everyone")
      [str "support"] = Normal out /\
    keywords out = Some ks /\
    In (Keyword.mk (str "support (partial)") Number.d0_8 1) ks /\
    ~ In (Keyword.mk (str "support") Number.d0_95 1) ks.
Proof.
  destruct (candidates_eq (str "Great support: for everyone") [str "support"])
    as (st & Hc & _).
  eexists. eexists. split; [apply mock_present, Hc|]. split; [reflexivity|].
  vm_compute in Hc. injection Hc as <-. split.
  - vm_compute. auto.
  - intros H. vm_compute in H.
    repeat (destruct H as [H|H]; [discriminate H|]). exact H.
Qed.

(** * Properties of utils/mockDataUtils.ts *)

(** ** Splitting *)

Section SplitFacts.

Lemma splitWhiteSpace_splitRuns (s : jsstring) :
  splitWhiteSpace s = splitRuns isWhiteSpace s.
Proof.
  unfold splitWhiteSpace, splitRuns. generalize (@nil ascii) as cur, false as b.
  induction s as [|c s IH]; intros cur b; simpl; [reflexivity|].
  destruct (isWhiteSpace c), b; rewrite ?IH; reflexivity.
Qed.

Variable inClass : ascii -> bool.

Lemma splitRunsAux_nonempty (s cur : jsstring) (b : bool) :
  splitRunsAux inClass s cur b <> [].
Proof.
  revert cur b; induction s as [|c s IH]; intros cur b; simpl; [discriminate|].
  destruct (inClass c), b; try discriminate; apply IH.
Qed.

(** The pieces are made of units of the string outside the class. *)
Lemma splitRunsAux_units (P : ascii -> Prop) (s cur : jsstring) (b : bool) :
  Forall P s -> Forall P cur -> Forall (fun c => inClass c = false) cur ->
  Forall (Forall (fun c => P c /\ inClass c = false))
         (splitRunsAux inClass s cur b).
Proof.
  intros Hs; revert cur b; induction Hs as [|c s Hc Hs IH]; intros cur b Hcur Hout;
    simpl.
  - repeat constructor. apply Forall_rev.
    rewrite Forall_forall in *; auto.
  - destruct (inClass c) eqn:E.
    + assert (Forall (fun c0 => P c0 /\ inClass c0 = false) (rev cur)) as Hp
        by (apply Forall_rev; rewrite Forall_forall in *; auto).
      destruct b; [|constructor; [exact Hp|]]; apply IH; constructor.
    + apply IH; constructor; assumption.
Qed.

Lemma splitRuns_units (P : ascii -> Prop) (s : jsstring) :
  Forall P s ->
  Forall (Forall (fun c => P c /\ inClass c = false)) (splitRuns inClass s).
Proof. intros H. apply splitRunsAux_units; [exact H | constructor | constructor]. Qed.

(** Only the first and the last piece can be empty. *)
Lemma splitRunsAux_inner (s cur : jsstring) (b : bool) :
  (b = true \/ cur <> [] ->
   Forall (fun p => truthy p = true) (removelast (splitRunsAux inClass s cur b)))
  /\ Forall (fun p => truthy p = true)
            (removelast (tl (splitRunsAux inClass s cur b))).
Proof.
  revert cur b; induction s as [|c s IH]; intros cur b; simpl.
  - split; constructor.
  - destruct (inClass c).
    + destruct b.
      * destruct (IH [] true) as [H1 H2]. split; [intros _; apply H1; auto | exact H2].
      * destruct (IH [] true) as [H1 _]. specialize (H1 (or_introl eq_refl)).
        pose proof (splitRunsAux_nonempty s [] true) as Hne.
        destruct (splitRunsAux inClass s [] true) as [|p l] eqn:E; [congruence|].
        split; [|exact H1].
        intros [H|H]; [discriminate|].
        change (removelast (rev cur :: p :: l)) with (rev cur :: removelast (p :: l)).
        constructor; [|exact H1].
        destruct cur as [|x cur]; [congruence|]. simpl.
        destruct (rev cur); reflexivity.
    + destruct (IH (c :: cur) false) as [H1 H2].
      split; [intros _; apply H1; right; discriminate | exact H2].
Qed.

Lemma removelast_length (A : Type) (l : list A) :
  length l <= S (length (removelast l)).
Proof.
  induction l as [|x [|y l] IH]; simpl in *; lia.
Qed.

Lemma filter_all (A : Type) (f : A -> bool) (l : list A) :
  Forall (fun x => f x = true) l -> filter f l = l.
Proof.
  induction 1 as [|x l Hx _ IH]; simpl; [reflexivity|]. rewrite Hx, IH; reflexivity.
Qed.

Lemma filter_removelast_le (A : Type) (f : A -> bool) (l : list A) :
  length (filter f (removelast l)) <= length (filter f l).
Proof.
  induction l as [|x [|y l] IH]; simpl in *; [lia | destruct (f x); simpl; lia |].
  destruct (f x); simpl; lia.
Qed.

(** At most two pieces are empty. *)
Lemma splitRuns_truthy_count (s : jsstring) :
  length (splitRuns inClass s)
  <= length (filter truthy (splitRuns inClass s)) + 2.
Proof.
  unfold splitRuns.
  destruct (splitRunsAux_inner s [] false) as [_ H].
  destruct (splitRunsAux inClass s [] false) as [|p l]; [simpl; lia|].
  simpl tl in H. apply filter_all in H.
  pose proof (removelast_length l) as H1.
  pose proof (filter_removelast_le truthy l) as H2.
  rewrite H in H2. simpl. destruct (truthy p); simpl; lia.
Qed.

(** The pieces and the runs between them fit into the string. *)
Lemma splitRunsAux_size (s cur : jsstring) (b : bool) :
  length (concat (splitRunsAux inClass s cur b))
  + length (splitRunsAux inClass s cur b)
  <= length s + length cur + 1.
Proof.
  revert cur b; induction s as [|c s IH]; intros cur b; simpl.
  - rewrite app_nil_r, length_rev. lia.
  - destruct (inClass c).
    + destruct b.
      * specialize (IH [] true). simpl in IH. lia.
      * specialize (IH [] true). simpl in *.
        rewrite length_app, length_rev. lia.
    + specialize (IH (c :: cur) false). simpl in IH. lia.
Qed.

Lemma truthy_count_le_concat (l : list jsstring) :
  length (filter truthy l) <= length (concat l).
Proof.
  induction l as [|p l IH]; simpl; [lia|].
  rewrite length_app. destruct p; simpl; lia.
Qed.

(** One piece more than there are runs. *)
Lemma splitRunsAux_runs (s cur : jsstring) :
  (forall piece, length (splitRunsAux inClass s piece false)
                 = S (length (runsAux inClass s [])))
  /\ (cur <> [] ->
      length (splitRunsAux inClass s [] true) = length (runsAux inClass s cur)).
Proof.
  revert cur; induction s as [|c s IH]; intros cur; simpl.
  - split; [reflexivity|]. destruct cur; [congruence | reflexivity].
  - destruct (inClass c).
    + split.
      * intros piece. simpl. f_equal. apply (IH [c]). discriminate.
      * intros _. apply (IH (c :: cur)). discriminate.
    + split.
      * intros piece. apply (IH []).
      * intros Hne. destruct cur as [|x cur]; [congruence|]. simpl.
        apply (IH []).
Qed.

Lemma splitRuns_runs (s : jsstring) :
  length (splitRuns inClass s) = S (length (runsAux inClass s [])).
Proof. apply (splitRunsAux_runs s []). Qed.

End SplitFacts.

Section SplitOnFacts.
Variable sep : ascii.

Lemma splitOnAux_nonempty (s cur : jsstring) : splitOnAux sep s cur <> [].
Proof.
  revert cur; induction s as [|c s IH]; intros cur; simpl; [discriminate|].
  destruct (ascii_eqb c sep); [discriminate | apply IH].
Qed.

Lemma join_cons (w : jsstring) (l : list jsstring) :
  l <> [] -> join [sep] (w :: l) = w ++ sep :: join [sep] l.
Proof. destruct l; [congruence | reflexivity]. Qed.

(** Joining the pieces with the separator gives the string back. *)
Lemma join_splitOnAux (s cur : jsstring) :
  join [sep] (splitOnAux sep s cur) = rev cur ++ s.
Proof.
  revert cur; induction s as [|c s IH]; intros cur; simpl splitOnAux.
  - simpl. symmetry; apply app_nil_r.
  - destruct (ascii_eqb c sep) eqn:E.
    + apply ascii_eqb_true in E; subst c.
      rewrite join_cons by apply splitOnAux_nonempty.
      rewrite IH. reflexivity.
    + rewrite IH. simpl. rewrite <- app_assoc. reflexivity.
Qed.

Lemma join_splitOn (s : jsstring) : join [sep] (splitOn sep s) = s.
Proof. apply (join_splitOnAux s []). Qed.

(** No piece holds the separator. *)
Lemma splitOnAux_free (s cur : jsstring) :
  ~ In sep cur -> Forall (fun p => ~ In sep p) (splitOnAux sep s cur).
Proof.
  revert cur; induction s as [|c s IH]; intros cur Hcur; simpl.
  - repeat constructor. rewrite <- in_rev. exact Hcur.
  - destruct (ascii_eqb c sep) eqn:E.
    + constructor; [rewrite <- in_rev; exact Hcur | apply IH; simpl; tauto].
    + apply IH. simpl. intros [->|H]; [|tauto].
      assert (ascii_eqb sep sep = true) by (apply ascii_eqb_true; reflexivity).
      congruence.
Qed.

Lemma splitOn_free (s : jsstring) : Forall (fun p => ~ In sep p) (splitOn sep s).
Proof. apply splitOnAux_free. simpl; tauto. Qed.

End SplitOnFacts.

Module MockDataFacts.
Import MockData NumberFormat.

Lemma mapiFrom_length (A B : Type) (f : nat -> A -> B) (i : nat) (l : list A) :
  length (JsArrayMore.mapiFrom f i l) = length l.
Proof. revert i; induction l; intros i; simpl; auto. Qed.

Lemma mapiFrom_nth (A B : Type) (f : nat -> A -> B) (i k : nat) (l : list A) :
  nth_error (JsArrayMore.mapiFrom f i l) k = option_map (f (i + k)) (nth_error l k).
Proof.
  revert i k; induction l as [|x l IH]; intros i [|k]; simpl; try reflexivity.
  - rewrite Nat.add_0_r; reflexivity.
  - rewrite IH. rewrite Nat.add_succ_r. reflexivity.
Qed.

Lemma sentencesOf_spec (text : jsstring) :
  Forall (fun s => s <> [] /\ Forall (fun c => isTerminator c = false) s)
         (sentencesOf text).
Proof.
  unfold sentencesOf. apply Forall_forall; intros s Hs.
  apply filter_In in Hs as [Hs Ht]. split; [intros ->; discriminate Ht|].
  assert (Forall (fun _ : ascii => True) text) as Htrue
    by (apply Forall_forall; trivial).
  pose proof (splitRuns_units isTerminator Htrue) as H.
  rewrite Forall_forall in H. specialize (H s Hs).
  eapply Forall_impl; [|exact H]. simpl; tauto.
Qed.

(** X12.  Every role that [generateMockSemanticRoles] returns splits its
    sentence at the first two spaces: the sentence is the subject alone
    (no space, action and object empty), or subject, space, action (one
    space, object empty), or subject, space, action, space, object.
    Subject and action hold no space, the verb is the action, and the
    sentence is not empty and holds none of [. ! ?]. *)
Theorem X12_roles_reassemble (text : jsstring) (r : SemanticRole.t) :
  In r (generateMockSemanticRoles text) ->
  let sp := " "%char in
  ((SemanticRole.sentence r = SemanticRole.subject r
    /\ SemanticRole.action r = [] /\ SemanticRole.object r = [])
   \/ (SemanticRole.sentence r
       = SemanticRole.subject r ++ sp :: SemanticRole.action r
       /\ SemanticRole.object r = [])
   \/ SemanticRole.sentence r
      = SemanticRole.subject r ++ sp :: SemanticRole.action r
        ++ sp :: SemanticRole.object r)
  /\ ~ In sp (SemanticRole.subject r)
  /\ ~ In sp (SemanticRole.action r)
  /\ SemanticRole.verb r = SemanticRole.action r
  /\ SemanticRole.sentence r <> []
  /\ Forall (fun c => isTerminator c = false) (SemanticRole.sentence r).
Proof.
  intros Hr sp. subst sp. unfold generateMockSemanticRoles in Hr.
  apply in_map_iff in Hr as (s & <- & Hs).
  pose proof (sentencesOf_spec text) as Hspec. rewrite Forall_forall in Hspec.
  destruct (Hspec s Hs) as [Hne Hterm].
  pose proof (join_splitOn " "%char s) as Hjoin.
  pose proof (splitOn_free " "%char s) as Hfree.
  unfold roleOf, second; simpl.
  destruct (splitOn " "%char s) as [|a [|b [|c rest]]] eqn:E.
  - exfalso. exact (splitOnAux_nonempty " "%char s [] E).
  - apply Forall_cons_iff in Hfree as [Ha _]. simpl in Hjoin. subst a.
    simpl. repeat split; auto.
  - apply Forall_cons_iff in Hfree as [Ha Hf'].
    apply Forall_cons_iff in Hf' as [Hb _]. simpl in Hjoin. simpl.
    repeat split; auto.
  - apply Forall_cons_iff in Hfree as [Ha Hf'].
    apply Forall_cons_iff in Hf' as [Hb _].
    rewrite join_cons in Hjoin by discriminate.
    rewrite join_cons in Hjoin by discriminate.
    simpl nth; simpl hd. repeat split; auto.
Qed.

Lemma X12_witness :
  let r := SemanticRole.mk (str "Dogs bark at night") (str "Dogs") (str "bark")
             (str "bark") (str "present") (str "at night") in
  In r (generateMockSemanticRoles (str "Dogs bark at night. Ok")) /\
  SemanticRole.sentence r <> [].
Proof.
  assert (H : In (SemanticRole.mk (str "Dogs bark at night") (str "Dogs")
                    (str "bark") (str "bark") (str "present") (str "at night"))
                 (generateMockSemanticRoles (str "Dogs bark at night. Ok")))
    by (left; reflexivity).
  split; [exact H|].
  apply (X12_roles_reassemble _ _ H).
Defined.

Lemma runsAux_none (s : jsstring) :
  Forall (fun c => isTerminator c = false) s -> runsAux isTerminator s [] = [].
Proof.
  induction 1 as [|c s Hc _ IH]; simpl; [reflexivity|]. rewrite Hc. exact IH.
Qed.

(** No word exactly when the text is white space throughout. *)
Lemma no_words (text cur : jsstring) (b : bool) :
  cur = [] \/ b = false ->
  (Forall (fun c => isWhiteSpace c = true) text /\ cur = [] <->
   length (filter truthy (splitRunsAux isWhiteSpace text cur b)) = 0).
Proof.
  assert (Hcur : forall (x : ascii) cur', truthy (rev cur' ++ [x]) = true)
    by (intros x cur'; destruct (rev cur'); reflexivity).
  revert cur b; induction text as [|c s IH]; intros cur b Hb; simpl.
  - destruct cur as [|x cur]; simpl.
    + split; auto.
    + rewrite Hcur. simpl. split; [intros [_ H]; discriminate H | discriminate].
  - destruct (isWhiteSpace c) eqn:Ec.
    + assert (Forall (fun c0 => isWhiteSpace c0 = true) (c :: s) /\ [] = @nil ascii
              <-> length (filter truthy (splitRunsAux isWhiteSpace s [] true)) = 0)
        as Hstep.
      { rewrite <- (IH [] true (or_introl eq_refl)).
        split; [intros [H _]; inversion H; auto
               | intros [H _]; split; [constructor; assumption | reflexivity]]. }
      destruct b.
      * destruct Hb as [->|Hb]; [exact Hstep | discriminate].
      * simpl. destruct cur as [|x cur]; simpl; [exact Hstep|].
        rewrite Hcur. simpl.
        split; [intros [_ H]; discriminate H | discriminate].
    + rewrite <- (IH (c :: cur) false (or_intror eq_refl)).
      split; [intros [H _]; inversion H; congruence | intros [_ H]; discriminate H].
Qed.

(** X14.  [calculateTextStats] never reports fewer than one sentence,
    also for the empty text; the words need a unit each and a unit of
    white space between them, so twice the word count is at most the
    number of units plus one; there are at most as many sentences as
    units, one for a text without [. ! ?]; and the word count is zero
    exactly for a text of white space only. *)
Theorem X14_stats_bounds (text : jsstring) :
  let stats := calculateTextStats text in
  1 <= sentenceCount stats /\
  2 * wordCount stats <= charCount stats + 1 /\
  sentenceCount stats <= Nat.max 1 (charCount stats) /\
  (Forall (fun c => isTerminator c = false) text -> sentenceCount stats = 1) /\
  (Forall (fun c => isWhiteSpace c = true) text <-> wordCount stats = 0).
Proof.
  cbv zeta. unfold calculateTextStats. cbn [wordCount sentenceCount charCount].
  assert (Hruns : length (match matchRuns isTerminator text with
                          | Some l => l | None => [] end)
                  = length (runsAux isTerminator text [])).
  { unfold matchRuns. destruct (runsAux isTerminator text []); reflexivity. }
  rewrite Hruns.
  pose proof (splitRunsAux_size isWhiteSpace text [] false) as Hw.
  pose proof (truthy_count_le_concat (splitRuns isWhiteSpace text)) as Hw'.
  pose proof (splitRunsAux_size isTerminator text [] false) as Ht.
  pose proof (splitRuns_runs isTerminator text) as Ht'.
  pose proof (filter_length_le truthy (splitRuns isWhiteSpace text)) as Hf.
  pose proof (no_words text (cur := []) (b := false) (or_introl eq_refl)) as Hz.
  rewrite splitWhiteSpace_splitRuns.
  unfold splitRuns in *. simpl in Hw, Ht.
  assert (Hzero : Forall (fun c => isWhiteSpace c = true) text <->
                  length (filter truthy (splitRunsAux isWhiteSpace text [] false)) = 0).
  { split; [intros H; apply Hz; split; [exact H | reflexivity]
           | intros H; apply Hz, H]. }
  destruct (length (runsAux isTerminator text [])) as [|n] eqn:En.
  - split; [lia|]. split; [lia|]. split; [lia|]. split; [reflexivity | exact Hzero].
  - split; [lia|]. split; [lia|]. split; [lia|]. split; [|exact Hzero].
    intros Hno. rewrite (runsAux_none Hno) in En. discriminate En.
Qed.

(** X15.  [generateMockSyntax] and [calculateTextStats] split the same
    text but count differently.  There is always at least one token;
    tokens may be empty (white space at the start or the end of the
    text, the empty text), so their number is the word count or up to
    two more.  The sentences of the syntax and the sentence count of
    the statistics differ by at most one in either direction. *)
Theorem X15_syntax_against_stats (text : jsstring) :
  let syntax := generateMockSyntax text in
  let stats := calculateTextStats text in
  1 <= length (tokens syntax) /\
  wordCount stats <= length (tokens syntax) /\
  length (tokens syntax) <= wordCount stats + 2 /\
  length (sentences syntax) <= sentenceCount stats + 1 /\
  sentenceCount stats <= length (sentences syntax) + 1.
Proof.
  cbv zeta. unfold generateMockSyntax, calculateTextStats, JsArrayMore.mapi.
  cbn [tokens sentences wordCount sentenceCount].
  rewrite !mapiFrom_length. unfold sentencesOf.
  assert (Hruns : length (match matchRuns isTerminator text with
                          | Some l => l | None => [] end)
                  = length (runsAux isTerminator text [])).
  { unfold matchRuns. destruct (runsAux isTerminator text []); reflexivity. }
  rewrite Hruns, splitWhiteSpace_splitRuns.
  pose proof (splitRuns_truthy_count isWhiteSpace text) as Hw.
  pose proof (filter_length_le truthy (splitRuns isWhiteSpace text)) as Hw'.
  pose proof (splitRuns_truthy_count isTerminator text) as Ht.
  pose proof (filter_length_le truthy (splitRuns isTerminator text)) as Ht'.
  pose proof (splitRuns_runs isTerminator text) as Hr.
  pose proof (splitRuns_runs isWhiteSpace text) as Hr'.
  destruct (length (runsAux isTerminator text [])); lia.
Qed.

(** ** Texts put together, and what the pieces keep *)

Section SplitMoreFacts.
Variable inClass : ascii -> bool.

(** A split never starts within a run with units collected, so the
    pieces together are the string without the units of the class. *)
Lemma concat_splitRunsAux (s cur : jsstring) (b : bool) :
  (b = true -> cur = []) ->
  concat (splitRunsAux inClass s cur b)
  = rev cur ++ filter (fun c => negb (inClass c)) s.
Proof.
  revert cur b; induction s as [|c s IH]; intros cur b Hb; simpl.
  - rewrite !app_nil_r. reflexivity.
  - destruct (inClass c); simpl.
    + destruct b; simpl.
      * rewrite IH by reflexivity. rewrite (Hb eq_refl). reflexivity.
      * rewrite IH by reflexivity. reflexivity.
    + rewrite IH by discriminate. simpl. rewrite <- app_assoc. reflexivity.
Qed.

Lemma concat_truthy (l : list jsstring) : concat (filter truthy l) = concat l.
Proof.
  induction l as [|[|c s] l IH]; simpl; [reflexivity | exact IH |].
  rewrite IH. reflexivity.
Qed.

Lemma splitRunsAux_start (s : jsstring) :
  filter truthy (splitRunsAux inClass s [] true)
  = filter truthy (splitRunsAux inClass s [] false).
Proof.
  destruct s as [|c s]; simpl; [reflexivity|].
  destruct (inClass c); reflexivity.
Qed.

Lemma splitRunsAux_app (a b cur : jsstring) (c : ascii) (r : bool) :
  inClass c = true -> (r = true -> cur = []) ->
  filter truthy (splitRunsAux inClass (a ++ c :: b) cur r)
  = filter truthy (splitRunsAux inClass a cur r)
    ++ filter truthy (splitRunsAux inClass b [] false).
Proof.
  intros Hc. revert cur r; induction a as [|x a IH]; intros cur r Hr.
  - cbn [app splitRunsAux]. rewrite Hc. destruct r.
    + rewrite (Hr eq_refl). simpl. apply splitRunsAux_start.
    + cbn [filter]. rewrite splitRunsAux_start.
      destruct (truthy (rev cur)); reflexivity.
  - cbn [app splitRunsAux]. destruct (inClass x).
    + destruct r; cbn [filter]; rewrite IH by reflexivity; [reflexivity|].
      destruct (truthy (rev cur)); reflexivity.
    + apply IH. discriminate.
Qed.

Lemma runsAux_app (a b cur : jsstring) (c : ascii) :
  inClass c = false ->
  runsAux inClass (a ++ c :: b) cur = runsAux inClass a cur ++ runsAux inClass b [].
Proof.
  intros Hc. revert cur; induction a as [|x a IH]; intros cur.
  - cbn [app runsAux]. rewrite Hc. destruct cur; reflexivity.
  - cbn [app runsAux]. destruct (inClass x); [apply IH|].
    destruct cur; rewrite IH; reflexivity.
Qed.

End SplitMoreFacts.

Lemma mapiFrom_erase (A B : Type) (f : nat -> A -> B) (g : B -> A)
    (i : nat) (l : list A) :
  (forall k x, g (f k x) = x) -> map g (JsArrayMore.mapiFrom f i l) = l.
Proof.
  intros H. revert i; induction l as [|x l IH]; intros i; simpl;
    [reflexivity|]. rewrite H, IH. reflexivity.
Qed.

(** X18.  Two texts put together with a white space unit between them:
    the word count is the sum of the word counts and the character
    count the sum plus one; the sentence count is at least each of
    the two sentence counts and at most their sum. *)
Theorem X18_stats_of_joined_texts (a b : jsstring) (c : ascii) :
  isWhiteSpace c = true ->
  let whole := calculateTextStats (a ++ c :: b) in
  let left := calculateTextStats a in
  let right := calculateTextStats b in
  wordCount whole = wordCount left + wordCount right /\
  charCount whole = charCount left + 1 + charCount right /\
  sentenceCount left <= sentenceCount whole /\
  sentenceCount right <= sentenceCount whole /\
  sentenceCount whole <= sentenceCount left + sentenceCount right.
Proof.
  intros Hc. cbv zeta. unfold calculateTextStats, matchRuns.
  cbn [wordCount sentenceCount charCount].
  assert (Ht : isTerminator c = false).
  { revert Hc. RegExpFacts.each_unit c; intros Hc; try reflexivity;
      discriminate Hc. }
  rewrite (@runsAux_app isTerminator a b [] c Ht).
  rewrite !splitWhiteSpace_splitRuns. unfold splitRuns.
  rewrite (@splitRunsAux_app isWhiteSpace a b [] c false Hc) by discriminate.
  rewrite !length_app. cbn [length].
  split; [reflexivity|]. split; [lia|].
  destruct (runsAux isTerminator a []) as [|x l], (runsAux isTerminator b [])
    as [|y l']; cbn [app length]; rewrite ?app_nil_r, ?length_app;
    cbn [length]; lia.
Qed.

Lemma X18_witness :
  isWhiteSpace " "%char = true /\
  wordCount (calculateTextStats (str "Soft bras." ++ " "%char :: str "No wires!"))
  = wordCount (calculateTextStats (str "Soft bras."))
    + wordCount (calculateTextStats (str "No wires!")).
Proof.
  split; [reflexivity|].
  exact (proj1 (@X18_stats_of_joined_texts (str "Soft bras.") (str "No wires!")
                  " "%char eq_refl)).
Defined.

(** X19.  The generators of sentences and tokens lose nothing but the
    separators: the sentences of [generateMockSemanticRoles] and of
    [generateMockSyntax], put together in order, are the text without
    the units [.], [!] and [?], and the tokens of [generateMockSyntax]
    are the text without its white space. *)
Theorem X19_pieces_keep_the_text (text : jsstring) :
  concat (map SemanticRole.sentence (generateMockSemanticRoles text))
  = filter (fun c => negb (isTerminator c)) text /\
  concat (map Sentence.text (sentences (generateMockSyntax text)))
  = filter (fun c => negb (isTerminator c)) text /\
  concat (map Token.text (tokens (generateMockSyntax text)))
  = filter (fun c => negb (isWhiteSpace c)) text.
Proof.
  unfold generateMockSemanticRoles, generateMockSyntax, JsArrayMore.mapi.
  cbn [sentences tokens]. rewrite map_map. cbn [roleOf SemanticRole.sentence].
  rewrite map_id.
  rewrite !mapiFrom_erase by reflexivity.
  unfold sentencesOf. rewrite concat_truthy, splitWhiteSpace_splitRuns.
  unfold splitRuns. rewrite !concat_splitRunsAux by discriminate.
  repeat split.
Qed.

(** ** Relevances of the generators *)

Lemma keywordRelevance_decimal (k : nat) :
  k < 25 -> keywordRelevance k = decimal (98 - 4 * N.of_nat k).
Proof.
  intros Hk. do 25 (destruct k as [|k]; [vm_compute; reflexivity|]). lia.
Qed.

Lemma entityRelevance_decimal (k : nat) :
  k < 8 -> entityRelevance k = decimal (95 - 5 * N.of_nat k).
Proof.
  intros Hk. do 8 (destruct k as [|k]; [vm_compute; reflexivity|]). lia.
Qed.

Lemma seq_forallb (f : nat -> bool) (n : nat) :
  forallb f (seq 0 n) = true -> forall k, k < n -> f k = true.
Proof.
  intros H k Hk. rewrite forallb_forall in H. apply H, in_seq. lia.
Qed.

(** A relation on the first [n] indices that a run through all pairs
    confirms. *)
Lemma pairs_forallb (f : nat -> nat -> bool) (n : nat) :
  forallb (fun i => forallb (fun j => implb (i <? j) (f i j)) (seq 0 n)) (seq 0 n)
  = true ->
  forall i j, i < j -> j < n -> f i j = true.
Proof.
  intros H i j Hij Hj.
  assert (Hin : i < n) by lia.
  pose proof (@seq_forallb _ _ H i Hin) as Hi. cbv beta in Hi.
  pose proof (@seq_forallb _ _ Hi j Hj) as Hp. cbv beta in Hp.
  destruct (Nat.ltb_spec i j); [exact Hp | lia].
Qed.

Lemma keywordRelevance_descending (i j : nat) :
  i < j -> j < 25 ->
  Number.ltb (keywordRelevance j) (keywordRelevance i) = true.
Proof.
  apply (@pairs_forallb
           (fun i j => Number.ltb (keywordRelevance j) (keywordRelevance i)) 25).
  vm_compute. reflexivity.
Qed.

Lemma entityRelevance_descending (i j : nat) :
  i < j -> j < 8 ->
  Number.ltb (entityRelevance j) (entityRelevance i) = true.
Proof.
  apply (@pairs_forallb
           (fun i j => Number.ltb (entityRelevance j) (entityRelevance i)) 8).
  vm_compute. reflexivity.
Qed.

(** X8.  [generateMockKeywords] keeps the words and their order.  Up to
    index 24 the relevance at index [k] is the two-place decimal
    [0.98 - 0.04 * k] as a literal would denote it, above zero, and
    strictly below the relevance of every earlier index. *)
Theorem X8_keyword_relevances (words : list jsstring) (k : nat) (w : jsstring) :
  nth_error words k = Some w ->
  k < 25 ->
  length (generateMockKeywords words) = length words /\
  nth_error (generateMockKeywords words) k
  = Some (MockKeyword.mk w (decimal (98 - 4 * N.of_nat k))) /\
  Number.ltb Number.zero (decimal (98 - 4 * N.of_nat k)) = true /\
  forall i e, i < k -> nth_error (generateMockKeywords words) i = Some e ->
    Number.ltb (decimal (98 - 4 * N.of_nat k)) (MockKeyword.relevance e) = true.
Proof.
  intros Hw Hk. unfold generateMockKeywords, JsArrayMore.mapi.
  split; [apply mapiFrom_length|].
  split; [rewrite mapiFrom_nth, Hw; simpl; rewrite keywordRelevance_decimal by exact Hk;
          reflexivity|].
  split.
  - rewrite <- keywordRelevance_decimal by exact Hk.
    apply (@seq_forallb (fun k => Number.ltb Number.zero (keywordRelevance k)) 25);
      [vm_compute; reflexivity | exact Hk].
  - intros i e Hi He. rewrite mapiFrom_nth in He.
    destruct (nth_error words i); [|discriminate]. cbn [option_map] in He.
    injection He as <-. cbn [MockKeyword.relevance].
    rewrite <- keywordRelevance_decimal by exact Hk.
    apply keywordRelevance_descending; assumption.
Qed.

Lemma X8_witness :
  nth_error (generateMockKeywords [str "comfort"; str "support"]) 1
  = Some (MockKeyword.mk (str "support") (decimal 94)).
Proof.
  apply (@X8_keyword_relevances [str "comfort"; str "support"] 1 (str "support")
           eq_refl).
  repeat constructor.
Defined.

Lemma includes_trans (s t u : jsstring) :
  includes s t = true -> includes t u = true -> includes s u = true.
Proof.
  intros Hst Htu.
  destruct (includes_inv _ _ Hst) as (p1 & q1 & ->).
  destruct (includes_inv _ _ Htu) as (p2 & q2 & ->).
  replace (p1 ++ (p2 ++ u ++ q2) ++ q1) with ((p1 ++ p2) ++ u ++ (q2 ++ q1))
    by (rewrite <- !app_assoc; reflexivity).
  apply includes_app.
Qed.

Lemma mapiFrom_forget (l : list PossibleEntity.t) (i : nat) :
  map (fun e => PossibleEntity.mk (MockEntity.text e) (MockEntity.type e))
      (JsArrayMore.mapiFrom
         (fun index entity =>
            MockEntity.mk (PossibleEntity.text entity) (PossibleEntity.type entity)
                          (entityRelevance index)) i l)
  = l.
Proof.
  revert i; induction l as [|p l IH]; intros i; simpl; [reflexivity|].
  rewrite IH. destruct p; reflexivity.
Qed.

(** X9.  [generateMockEntities] reports exactly the entries of its
    table whose text occurs in the text up to case, in the order of the
    table.  The entity at position [k] of the result has the relevance
    [0.95 - 0.05 * k] as a two-place decimal, so relevance follows the
    position in the result, not the entry. *)
Theorem X9_entities_of_table (text : jsstring) :
  map (fun e => PossibleEntity.mk (MockEntity.text e) (MockEntity.type e))
      (generateMockEntities text)
  = filter (mentions text) possibleEntities /\
  length (generateMockEntities text) <= 8 /\
  forall k e, nth_error (generateMockEntities text) k = Some e ->
    MockEntity.relevance e = decimal (95 - 5 * N.of_nat k) /\
    forall i e', i < k -> nth_error (generateMockEntities text) i = Some e' ->
      Number.ltb (MockEntity.relevance e) (MockEntity.relevance e') = true.
Proof.
  unfold generateMockEntities, JsArrayMore.mapi.
  assert (Hlen : length (filter (mentions text) possibleEntities) <= 8)
    by apply (filter_length_le (mentions text) possibleEntities).
  split; [|split].
  - apply mapiFrom_forget.
  - rewrite mapiFrom_length. exact Hlen.
  - intros k e He. rewrite mapiFrom_nth in He.
    destruct (nth_error (filter (mentions text) possibleEntities) k) as [p|] eqn:Ek;
      [|discriminate].
    assert (Hk : k < 8).
    { assert (nth_error (filter (mentions text) possibleEntities) k <> None)
        as H by congruence.
      apply nth_error_Some in H. lia. }
    cbn [option_map] in He. injection He as <-. cbn [MockEntity.relevance].
    split; [apply entityRelevance_decimal, Hk|].
    intros i e' Hi He'. rewrite mapiFrom_nth in He'.
    destruct (nth_error (filter (mentions text) possibleEntities) i); [|discriminate].
    cbn [option_map] in He'. injection He' as <-. cbn [MockEntity.relevance].
    apply entityRelevance_descending; assumption.
Qed.

Lemma categories_nonempty (text : jsstring) : generateMockCategories text <> [].
Proof.
  unfold generateMockCategories.
  destruct (_ ++ _ ++ _); discriminate.
Qed.

(** X10.  [generateMockCategories] never returns the empty list and
    never more than three categories; they come from its three rules in
    the order of the rules, which is the order of strictly descending
    score, without repetition.  The underwear category is the answer
    when no rule fires, so it is missing only when the fashion or the
    review rule fires. *)
Theorem X10_categories_shape (text : jsstring) :
  let cats := generateMockCategories text in
  cats <> [] /\ length cats <= 3 /\
  StronglySorted
    (fun a b => Number.ltb (Category.score b) (Category.score a) = true) cats /\
  NoDup cats /\
  incl cats [underwear; fashion; reviews] /\
  (In underwear cats \/ In fashion cats \/ In reviews cats) /\
  (~ In fashion cats -> ~ In reviews cats -> cats = [underwear]).
Proof.
  cbv zeta. unfold generateMockCategories.
  set (lowerText := toLowerCase text).
  destruct (includes lowerText (str "bra") || includes lowerText (str "support")
            || includes lowerText (str "comfortable"))%bool;
    destruct (includes lowerText (str "style") || includes lowerText (str "design")
              || includes lowerText (str "dress"))%bool;
    destruct (includes lowerText (str "comfort") || includes lowerText (str "fabric")
              || includes lowerText (str "quality"))%bool;
    cbn [app];
    (split; [discriminate|]);
    (split; [simpl; lia|]);
    (split; [repeat constructor|]);
    (split; [repeat constructor; simpl; intuition discriminate|]);
    (split; [intros c Hc; simpl in *; tauto|]);
    (split; [simpl; tauto|]);
    simpl; intros H1 H2; solve [reflexivity | exfalso; tauto].
Qed.

Lemma underwear_when_bra (text : jsstring) :
  (includes (toLowerCase text) (str "bra") = true
   \/ includes (toLowerCase text) (str "support") = true) ->
  In underwear (generateMockCategories text).
Proof.
  intros H. unfold generateMockCategories.
  assert ((includes (toLowerCase text) (str "bra")
           || includes (toLowerCase text) (str "support")
           || includes (toLowerCase text) (str "comfortable"))%bool = true) as ->.
  { destruct H as [-> | ->]; rewrite ?orb_true_r; reflexivity. }
  left; reflexivity.
Qed.

(** X11.  [generateMockRelations] returns nothing when the feature is
    off and nothing for a text without "bra" (up to case); otherwise the
    provider relation for "triumph" and then the feature relation for
    "support", at most these two.  Whenever it returns a relation,
    [generateMockCategories] reports the underwear category for the same
    text. *)
Theorem X11_relations_need_bra (text : jsstring) (featuresEnabled : bool) :
  let rels := generateMockRelations text featuresEnabled in
  (featuresEnabled = false -> rels = []) /\
  (includes (toLowerCase text) (str "bra") = false -> rels = []) /\
  length rels <= 2 /\
  (In providerOf rels <->
   featuresEnabled = true /\ includes (toLowerCase text) (str "triumph") = true
   /\ includes (toLowerCase text) (str "bra") = true) /\
  (In featureOf rels <->
   featuresEnabled = true /\ includes (toLowerCase text) (str "support") = true
   /\ includes (toLowerCase text) (str "bra") = true) /\
  (forall r, In r rels -> r = providerOf \/ r = featureOf) /\
  (rels <> [] -> In underwear (generateMockCategories text)).
Proof.
  cbv zeta.
  assert (Hcat : generateMockRelations text featuresEnabled <> [] ->
                 includes (toLowerCase text) (str "bra") = true).
  { destruct (includes (toLowerCase text) (str "bra")) eqn:E; [reflexivity|].
    unfold generateMockRelations. rewrite E, !andb_false_r.
    destruct featuresEnabled; simpl; congruence. }
  split; [|split; [|split; [|split; [|split; [|split]]]]].
  - intros ->. reflexivity.
  - intros H. unfold generateMockRelations. rewrite H, !andb_false_r.
    destruct featuresEnabled; reflexivity.
  - unfold generateMockRelations.
    destruct featuresEnabled, (includes (toLowerCase text) (str "triumph")),
      (includes (toLowerCase text) (str "support")),
      (includes (toLowerCase text) (str "bra")); simpl; lia.
  - unfold generateMockRelations.
    destruct featuresEnabled, (includes (toLowerCase text) (str "triumph")),
      (includes (toLowerCase text) (str "support")),
      (includes (toLowerCase text) (str "bra")); simpl;
      (split; [intros H; repeat destruct H as [H|H]; try discriminate H; auto
              | intros (H1 & H2 & H3); try discriminate; auto]).
  - unfold generateMockRelations.
    destruct featuresEnabled, (includes (toLowerCase text) (str "triumph")),
      (includes (toLowerCase text) (str "support")),
      (includes (toLowerCase text) (str "bra")); simpl;
      (split; [intros H; repeat destruct H as [H|H]; try discriminate H; auto
              | intros (H1 & H2 & H3); try discriminate; auto]).
  - unfold generateMockRelations.
    destruct featuresEnabled, (includes (toLowerCase text) (str "triumph")),
      (includes (toLowerCase text) (str "support")),
      (includes (toLowerCase text) (str "bra")); simpl; intros r H;
      repeat destruct H as [H|H]; auto; contradiction.
  - intros H. apply underwear_when_bra. left. apply Hcat, H.
Qed.

(** X13.  The entities and the categories agree: when
    [generateMockEntities] reports "bras" or "support",
    [generateMockCategories] reports the underwear category; for
    "design" and "dresses" it reports the fashion category, and for
    "fabrics" the review category. *)
Theorem X13_entities_have_categories (text : jsstring) (e : MockEntity.t) :
  In e (generateMockEntities text) ->
  let cats := generateMockCategories text in
  (MockEntity.text e = str "bras" \/ MockEntity.text e = str "support" ->
   In underwear cats) /\
  (MockEntity.text e = str "design" \/ MockEntity.text e = str "dresses" ->
   In fashion cats) /\
  (MockEntity.text e = str "fabrics" -> In reviews cats).
Proof.
  intros He.
  assert (Hm : includes (toLowerCase text) (toLowerCase (MockEntity.text e)) = true).
  { assert (In (PossibleEntity.mk (MockEntity.text e) (MockEntity.type e))
               (filter (mentions text) possibleEntities)) as Hp.
    { unfold generateMockEntities, JsArrayMore.mapi in He.
      rewrite <- (mapiFrom_forget (filter (mentions text) possibleEntities) 0).
      apply in_map_iff. exists e; split; [reflexivity | exact He]. }
    apply filter_In in Hp as [_ Hp]. exact Hp. }
  cbv zeta. unfold generateMockCategories.
  set (lowerText := toLowerCase text) in *.
  assert (Hsub : forall u, includes (toLowerCase (MockEntity.text e)) u = true ->
                           includes lowerText u = true)
    by (intros u; apply includes_trans, Hm).
  split; [|split].
  - intros [E|E]; rewrite E in Hsub.
    + rewrite (Hsub (str "bra") eq_refl). left; reflexivity.
    + rewrite (Hsub (str "support") eq_refl), orb_true_r. left; reflexivity.
  - intros [E|E]; rewrite E in Hsub.
    + rewrite (Hsub (str "design") eq_refl), orb_true_r.
      destruct (_ || _ || _)%bool; simpl; auto.
    + rewrite (Hsub (str "dress") eq_refl), !orb_true_r.
      destruct (_ || _ || _)%bool; simpl; auto.
  - intros E; rewrite E in Hsub.
    rewrite (Hsub (str "fabric") eq_refl), !orb_true_r.
    destruct (_ || _ || _)%bool; destruct (_ || _ || _)%bool; simpl; auto.
Qed.

Lemma X13_witness :
  In (MockEntity.mk (str "bras") (str "Product") (decimal 95))
     (generateMockEntities (str "Soft Bras")) /\
  In underwear (generateMockCategories (str "Soft Bras")).
Proof.
  assert (H : In (MockEntity.mk (str "bras") (str "Product") (decimal 95))
                 (generateMockEntities (str "Soft Bras")))
    by (left; reflexivity).
  split; [exact H|].
  apply (proj1 (@X13_entities_have_categories (str "Soft Bras") _ H)).
  left; reflexivity.
Defined.

(** X17.  Writing a two-place decimal between 0 and 1 with [toFixed(2)]
    and reading it back with [parseFloat] gives the same number: the
    digits written are those of the decimal.  The relevances of the
    generators are therefore fixed points of the rounding they went
    through. *)
Theorem X17_round2_fixed_points (n : N) :
  (n <= 100)%N ->
  toFixed2 (decimal n) = Decimal false n /\ round2 (decimal n) = decimal n.
Proof.
  intros Hn.
  assert (E : n = N.of_nat (N.to_nat n)) by (symmetry; apply N2Nat.id).
  assert (Hk : N.to_nat n < 101) by lia.
  rewrite E. generalize dependent (N.to_nat n). clear. intros k _ Hk.
  do 101 (destruct k as [|k]; [vm_compute; split; reflexivity|]). lia.
Qed.

Lemma X17_witness :
  toFixed2 (decimal 62) = Decimal false 62 /\ round2 (decimal 62) = decimal 62.
Proof. apply (@X17_round2_fixed_points 62). vm_compute. discriminate. Defined.

(** ** The stable sort by a sign test *)

Section SortByFacts.
Variable A : Type.
Variable after : A -> A -> bool.

Lemma insertBy_perm (x : A) (l : list A) :
  Permutation (JsArrayMore.insertBy after x l) (x :: l).
Proof.
  induction l as [|y l IH]; simpl; [reflexivity|].
  destruct (after x y); [|reflexivity].
  rewrite IH. apply perm_swap.
Qed.

Lemma sortBy_perm (l : list A) : Permutation (JsArrayMore.sortBy after l) l.
Proof.
  induction l as [|x l IH]; simpl; [reflexivity|].
  rewrite insertBy_perm. apply perm_skip, IH.
Qed.

Variable R : A -> A -> Prop.
Hypothesis before_R : forall x y, after x y = false -> R x y.
Hypothesis after_R : forall x y, after x y = true -> R y x.
Hypothesis R_trans : forall x y z, R x y -> R y z -> R x z.

Lemma insertBy_sorted (x : A) (l : list A) :
  StronglySorted R l -> StronglySorted R (JsArrayMore.insertBy after x l).
Proof.
  intros Hs; induction Hs as [|y l Hs IH Hy]; simpl.
  - repeat constructor.
  - destruct (after x y) eqn:E.
    + constructor; [exact IH|].
      apply Forall_forall; intros z Hz.
      apply (Permutation_in _ (insertBy_perm x l)) in Hz.
      destruct Hz as [<-|Hz]; [apply after_R, E|].
      rewrite Forall_forall in Hy; auto.
    + constructor; [constructor; assumption|].
      constructor; [apply before_R, E|].
      rewrite Forall_forall in *; intros z Hz.
      apply R_trans with y; auto.
Qed.

Lemma sortBy_sorted (l : list A) : StronglySorted R (JsArrayMore.sortBy after l).
Proof.
  induction l as [|x l IH]; simpl; [constructor | apply insertBy_sorted, IH].
Qed.

End SortByFacts.

(** The sort of the hook is this sort for the sign test of its
    comparator. *)
Lemma sort_sortBy (A : Type) (comparefn : A -> A -> Number.t) (l : list A) :
  JsArray.sort comparefn l = JsArrayMore.sortBy (JsArray.after comparefn) l.
Proof.
  induction l as [|x l IH]; simpl; [reflexivity|]. rewrite IH.
  generalize (JsArrayMore.sortBy (JsArray.after comparefn) l) as s.
  induction s as [|y s IHs]; simpl; [reflexivity|]. rewrite IHs. reflexivity.
Qed.

(** ** The counter *)

Section CounterFacts.

Lemma streq_refl (s : jsstring) : streq s s = true.
Proof. apply streq_true; reflexivity. Qed.

Lemma streq_false (s t : jsstring) : s <> t -> streq s t = false.
Proof.
  intros H. destruct (streq s t) eqn:E; [|reflexivity].
  apply streq_true in E. contradiction.
Qed.

Lemma get_absent (key : jsstring) (o : Counter.t) :
  ~ In key (map fst o) -> Counter.get key o = 0%Z.
Proof.
  induction o as [|[k n] o IH]; simpl; [reflexivity|]. intros H.
  rewrite streq_false by tauto. apply IH. tauto.
Qed.

Lemma increment_keys (key : jsstring) (o : Counter.t) :
  map fst (Counter.increment key o)
  = if existsb (streq key) (map fst o) then map fst o else map fst o ++ [key].
Proof.
  induction o as [|[k n] o IH]; simpl; [reflexivity|].
  destruct (streq k key) eqn:E.
  - apply streq_true in E; subst k. rewrite streq_refl. reflexivity.
  - assert (streq key k = false) as ->.
    { apply streq_false. intros ->. rewrite streq_refl in E. discriminate. }
    simpl. rewrite IH. destruct (existsb _ _); reflexivity.
Qed.

Lemma increment_get (key k : jsstring) (o : Counter.t) :
  Counter.get k (Counter.increment key o)
  = (Counter.get k o + if streq key k then 1 else 0)%Z.
Proof.
  induction o as [|[k0 n] o IH]; simpl.
  - destruct (streq key k); reflexivity.
  - destruct (streq k0 key) eqn:E; simpl.
    + apply streq_true in E; subst k0.
      destruct (streq key k); lia.
    + destruct (streq k0 k) eqn:E'; [|exact IH].
      apply streq_true in E'; subst k0.
      rewrite (@streq_false key k); [lia|].
      intros ->. rewrite streq_refl in E. discriminate.
Qed.

Lemma existsb_streq (key : jsstring) (l : list jsstring) :
  existsb (streq key) l = true <-> In key l.
Proof.
  rewrite existsb_exists. split.
  - intros (x & Hx & E). apply streq_true in E; subst; exact Hx.
  - intros H. exists key; split; [exact H | apply streq_refl].
Qed.

Lemma increment_NoDup (key : jsstring) (o : Counter.t) :
  NoDup (map fst o) -> NoDup (map fst (Counter.increment key o)).
Proof.
  intros H. rewrite increment_keys.
  destruct (existsb (streq key) (map fst o)) eqn:E; [exact H|].
  apply NoDup_app; [exact H | repeat constructor; simpl; tauto |].
  intros x Hx [<-|[]]. apply existsb_streq in Hx. congruence.
Qed.

(** The values of a counter are what [get] reads. *)
Lemma get_In (o : Counter.t) (k : jsstring) (n : Z) :
  NoDup (map fst o) -> In (k, n) o -> Counter.get k o = n.
Proof.
  induction o as [|[k0 n0] o IH]; simpl; [contradiction|].
  intros Hnd [E|H].
  - injection E as -> ->. rewrite streq_refl. reflexivity.
  - inversion Hnd as [|? ? Hk0 Hnd']; subst.
    rewrite streq_false; [apply IH; assumption|].
    intros ->. apply Hk0. apply in_map_iff. exists (k, n); auto.
Qed.

End CounterFacts.

(** ** getFrequentWords *)

Section FrequentWordsFacts.

Lemma streq_sym (s t : jsstring) : streq s t = streq t s.
Proof.
  destruct (streq s t) eqn:E.
  - apply streq_true in E; subst. symmetry; apply streq_refl.
  - symmetry. apply streq_false. intros ->. rewrite streq_refl in E. discriminate.
Qed.

(** The counter after a run over [ws]: no key twice, every long word
    counted as often as it occurs, and no key but the long words. *)
Lemma countWords_fold (ws : list jsstring) (o : Counter.t) :
  (NoDup (map fst o) -> NoDup (map fst (fold_left countStep ws o)))
  /\ (forall k, isLong k = true ->
        Counter.get k (fold_left countStep ws o)
        = (Counter.get k o + Z.of_nat (occurrences ws k))%Z)
  /\ (forall k, In k (map fst (fold_left countStep ws o)) <->
                In k (map fst o) \/ (In k ws /\ isLong k = true)).
Proof.
  revert o; induction ws as [|w ws IH]; intros o; simpl.
  - split; [trivial|]. split; [intros; unfold occurrences; simpl; lia|].
    intros k; tauto.
  - destruct (IH (countStep o w)) as (H1 & H2 & H3).
    unfold occurrences in *. simpl filter.
    split; [|split].
    + intros Hnd. apply H1. unfold countStep.
      destruct (isLong w); [apply increment_NoDup, Hnd | exact Hnd].
    + intros k Hk. rewrite (H2 k Hk). unfold countStep.
      destruct (isLong w) eqn:Ew.
      * rewrite increment_get, (streq_sym w k).
        destruct (streq k w); simpl length; lia.
      * rewrite (@streq_false k w) by (intros ->; congruence). lia.
    + intros k. rewrite H3. unfold countStep.
      destruct (isLong w) eqn:Ew.
      * rewrite increment_keys.
        destruct (existsb (streq w) (map fst o)) eqn:Ex.
        -- apply existsb_streq in Ex.
           split; [tauto|]. intros [H|[[<-|H] Hl]]; auto.
        -- rewrite in_app_iff. simpl.
           split; [intros [[H|[<-|[]]]|H]; auto; tauto|].
           intros [H|[[<-|H] Hl]]; auto.
      * split; [tauto|]. intros [H|[[<-|H] Hl]]; auto. congruence.
Qed.

Lemma toLowerChar_idempotent (c : ascii) :
  toLowerChar (toLowerChar c) = toLowerChar c.
Proof. RegExpFacts.each_unit c; reflexivity. Qed.

(** The words are lower case and hold no stripped mark and no white
    space. *)
Lemma wordsOf_units (text : jsstring) :
  Forall (Forall (fun c => (toLowerChar c = c /\ isStripped c = false)
                           /\ isWhiteSpace c = false))
         (wordsOf text).
Proof.
  unfold wordsOf. rewrite splitWhiteSpace_splitRuns.
  apply splitRuns_units. apply Forall_forall; intros c Hc.
  unfold stripPunctuation in Hc. apply filter_In in Hc as [Hc Hs].
  apply negb_true_iff in Hs. split; [|exact Hs].
  unfold toLowerCase in Hc. apply in_map_iff in Hc as (c0 & <- & _).
  apply toLowerChar_idempotent.
Qed.

Lemma entries_perm (o : Counter.t) : Permutation (Counter.entries o) o.
Proof.
  unfold Counter.entries. rewrite sortBy_perm.
  induction o as [|kv o IH]; simpl; [reflexivity|].
  destruct (Counter.isArrayIndex (fst kv)); simpl.
  - apply perm_skip, IH.
  - rewrite <- Permutation_middle. apply perm_skip, IH.
Qed.

(** What [getFrequentWords] returns, when it returns: the first ten keys
    of the counter's entries sorted by descending count. *)
Lemma getFrequentWords_sorted (text : jsstring) (ws : list jsstring) :
  getFrequentWords text = Some ws ->
  exists sorted,
    ws = firstn 10 (map fst sorted) /\
    Permutation sorted (countWords (wordsOf text)) /\
    StronglySorted (fun a b => (snd b <= snd a)%Z) sorted.
Proof.
  unfold getFrequentWords. destruct (some _ _); [discriminate|].
  intros E; injection E as <-.
  eexists; split; [reflexivity|]. split.
  - rewrite sortBy_perm. apply entries_perm.
  - apply sortBy_sorted; unfold fewer; intros; lia.
Qed.

Lemma NoDup_firstn (A : Type) (n : nat) (l : list A) :
  NoDup l -> NoDup (firstn n l).
Proof.
  intros H. rewrite <- (firstn_skipn n l) in H.
  apply NoDup_app_remove_r in H. exact H.
Qed.

Lemma In_firstn (A : Type) (n : nat) (l : list A) (x : A) :
  In x (firstn n l) -> In x l.
Proof.
  intros H. rewrite <- (firstn_skipn n l). apply in_or_app; left; exact H.
Qed.

End FrequentWordsFacts.

(** The counter of a text: its keys are the long words, each once, and
    each with the number of its occurrences. *)
Lemma countWords_spec (words : list jsstring) :
  NoDup (map fst (countWords words)) /\
  (forall k n, In (k, n) (countWords words) ->
     In k words /\ isLong k = true /\ n = Z.of_nat (occurrences words k)) /\
  (forall k, In k words -> isLong k = true -> In k (map fst (countWords words))).
Proof.
  unfold countWords.
  destruct (countWords_fold words []) as (H1 & H2 & H3).
  specialize (H1 (NoDup_nil _)).
  split; [exact H1|]. split.
  - intros k n Hin.
    assert (Hk : In k (map fst (fold_left countStep words [])))
      by (apply in_map_iff; exists (k, n); auto).
    apply H3 in Hk as [[]|[Hw Hl]].
    split; [exact Hw|]. split; [exact Hl|].
    rewrite <- (@get_In _ k n H1 Hin), (H2 k Hl). reflexivity.
  - intros k Hw Hl. apply H3. right; auto.
Qed.

(** X6.  When [getFrequentWords] returns, it returns at most ten words,
    no word twice; each is a word of the lower-cased text with the
    punctuation stripped, has more than three units, is in lower case
    and holds no stripped mark and no white space. *)
Theorem X6_frequent_words_shape (text : jsstring) (ws : list jsstring) :
  getFrequentWords text = Some ws ->
  length ws <= 10 /\ NoDup ws /\
  forall w, In w ws ->
    In w (wordsOf text) /\ 3 < length w /\ toLowerCase w = w /\
    Forall (fun c => isStripped c = false /\ isWhiteSpace c = false) w.
Proof.
  intros H. destruct (getFrequentWords_sorted _ H) as (sorted & -> & Hp & _).
  destruct (countWords_spec (wordsOf text)) as (Hnd & Hin & _).
  split; [apply firstn_le_length|]. split.
  - apply NoDup_firstn.
    apply (Permutation_NoDup (l := map fst (countWords (wordsOf text))));
      [apply Permutation_map; symmetry; exact Hp | exact Hnd].
  - intros w Hw. apply In_firstn in Hw.
    apply in_map_iff in Hw as ([k n] & <- & Hkn). simpl.
    apply (Permutation_in _ Hp) in Hkn.
    destruct (Hin k n Hkn) as (Hk & Hl & _).
    split; [exact Hk|]. split; [apply Nat.ltb_lt; exact Hl|].
    pose proof (wordsOf_units text) as Hu. rewrite Forall_forall in Hu.
    specialize (Hu k Hk). split.
    + unfold toLowerCase. rewrite <- (map_id k) at 2. apply map_ext_in.
      intros c Hc. rewrite Forall_forall in Hu. apply (Hu c Hc).
    + eapply Forall_impl; [|exact Hu]. simpl; tauto.
Qed.

Lemma X6_witness :
  getFrequentWords (str "Soft bras, soft straps: bras!")
  = Some [str "soft"; str "bras"; str "straps"] /\
  length [str "soft"; str "bras"; str "straps"] <= 10.
Proof.
  assert (H : getFrequentWords (str "Soft bras, soft straps: bras!")
              = Some [str "soft"; str "bras"; str "straps"]) by reflexivity.
  split; [exact H|]. exact (proj1 (@X6_frequent_words_shape _ _ H)).
Defined.

(** X7.  When [getFrequentWords] returns, the words are listed by
    non-increasing number of occurrences in the text, and a word of more
    than three units is left out only when ten words are listed that
    all occur at least as often. *)
Theorem X7_frequent_words_order (text : jsstring) (ws : list jsstring) :
  getFrequentWords text = Some ws ->
  let words := wordsOf text in
  StronglySorted (fun a b => occurrences words b <= occurrences words a) ws /\
  forall w, In w words -> 3 < length w ->
    In w ws \/
    (length ws = 10 /\
     forall v, In v ws -> occurrences words w <= occurrences words v).
Proof.
  intros H words. destruct (getFrequentWords_sorted _ H) as (sorted & -> & Hp & Hs).
  fold words in Hp.
  destruct (countWords_spec words) as (Hnd & Hin & Hall).
  assert (Hocc : forall kv, In kv sorted ->
                   snd kv = Z.of_nat (occurrences words (fst kv))).
  { intros [k n] Hkn. apply (Permutation_in _ Hp) in Hkn.
    apply (Hin k n Hkn). }
  assert (Hs' : StronglySorted
                  (fun a b => occurrences words b <= occurrences words a)
                  (map fst sorted)).
  { clear -Hs Hocc. induction Hs as [|kv l Hs IH Hkv]; simpl; [constructor|].
    constructor; [apply IH; intros; apply Hocc; right; assumption|].
    apply Forall_forall; intros v Hv. apply in_map_iff in Hv as (kv' & <- & Hv).
    rewrite Forall_forall in Hkv. specialize (Hkv kv' Hv).
    rewrite (Hocc kv (or_introl eq_refl)), (Hocc kv' (or_intror Hv)) in Hkv. lia. }
  split; [apply StronglySorted_firstn, Hs'|].
  intros w Hw Hl.
  assert (Hk : In w (map fst sorted)).
  { apply (Permutation_in (l := map fst (countWords words)));
      [apply Permutation_map; symmetry; exact Hp|].
    apply Hall; [exact Hw | apply Nat.ltb_lt; exact Hl]. }
  rewrite <- (firstn_skipn 10 (map fst sorted)) in Hk, Hs'.
  apply in_app_or in Hk as [Hk|Hk]; [left; exact Hk | right].
  split.
  - apply firstn_length_le.
    destruct (Nat.le_gt_cases 10 (length (map fst sorted))) as [Hle|Hgt];
      [exact Hle|].
    rewrite skipn_all2 in Hk by lia. contradiction.
  - intros v Hv.
    exact (@StronglySorted_app_cross _ _ _ _ Hs' v w Hv Hk).
Qed.

Lemma X7_witness :
  getFrequentWords (str "Soft bras, soft straps: bras!")
  = Some [str "soft"; str "bras"; str "straps"] /\
  StronglySorted
    (fun a b => occurrences (wordsOf (str "Soft bras, soft straps: bras!")) b
                <= occurrences (wordsOf (str "Soft bras, soft straps: bras!")) a)
    [str "soft"; str "bras"; str "straps"].
Proof.
  assert (H : getFrequentWords (str "Soft bras, soft straps: bras!")
              = Some [str "soft"; str "bras"; str "straps"]) by reflexivity.
  split; [exact H|]. exact (proj1 (@X7_frequent_words_order _ _ H)).
Defined.

(** X16.  When [generateMockResponse] returns, a field of the response
    is present exactly when its feature is on; [usage.features] is the
    number of features that are on and [usage.text_characters] the
    length of the text.  The keywords, when present, are at most ten
    with the relevances 0.98, 0.94, ... by position, and the categories,
    when present, are not empty.  [Math.random] is called seven times
    when classifications are on and not at all otherwise, and the limits
    have no influence on the response. *)
Theorem X16_response_follows_features (random : nat -> Number.t)
    (text : jsstring) (features : WatsonFeatures) (limits : WatsonLimits)
    (calls : nat) (response : Response) (calls' : nat) :
  generateMockResponse random text features limits calls = Some (response, calls') ->
  MockData.features (usage response) = enabledCount features /\
  MockData.features (usage response) <= 5 /\
  text_characters (usage response) = length text /\
  (keywords response <> None <-> f_keywords features = true) /\
  (entities response <> None <-> f_entities features = true) /\
  (concepts response <> None <-> f_concepts features = true) /\
  (categories response <> None <-> f_categories features = true) /\
  (classifications response <> None <-> f_classifications features = true) /\
  (forall kws, keywords response = Some kws ->
     length kws <= 10 /\
     forall k e, nth_error kws k = Some e ->
       MockKeyword.relevance e = decimal (98 - 4 * N.of_nat k)) /\
  (forall cats, categories response = Some cats -> cats <> []) /\
  calls' = calls + (if f_classifications features then 7 else 0) /\
  (forall limits',
     generateMockResponse random text features limits' calls
     = Some (response, calls')) /\
  (f_classifications features = false ->
   forall random' calls0,
     generateMockResponse random' text features limits calls0
     = Some (response, calls0)).
Proof.
  intros H. unfold generateMockResponse in H.
  destruct (if f_keywords features
            then option_map (fun ws => Some (generateMockKeywords ws))
                            (getFrequentWords text)
            else Some None) as [kws|] eqn:Ek; [|discriminate].
  apply (f_equal (fun o => match o with
                           | Some p => p
                           | None => (response, calls')
                           end)) in H.
  cbv beta iota in H. apply pair_equal_spec in H as [Hr Hc].
  subst response calls'. unfold generateMockResponse. rewrite Ek.
  cbn [usage MockData.features text_characters keywords entities
       concepts categories classifications fst snd].
  assert (Hcount : enabledCount features <= 5).
  { unfold enabledCount.
    apply (filter_length_le (fun b : bool => b)
             [f_keywords features; f_entities features; f_concepts features;
              f_categories features; f_classifications features]). }
  split; [reflexivity|]. split; [exact Hcount|]. split; [reflexivity|].
  split.
  { destruct (f_keywords features).
    - destruct (getFrequentWords text); [|discriminate Ek].
      injection Ek as <-. split; [reflexivity | discriminate].
    - injection Ek as <-. split; [congruence | discriminate]. }
  split; [destruct (f_entities features); split; congruence|].
  split; [destruct (f_concepts features); split; congruence|].
  split; [destruct (f_categories features); split; congruence|].
  split; [destruct (f_classifications features); cbn [fst]; split; congruence|].
  split.
  { intros l ->. destruct (f_keywords features); [|discriminate Ek].
    destruct (getFrequentWords text) as [ws|] eqn:Ew; [|discriminate Ek].
    injection Ek as <-.
    assert (Hlen : length ws <= 10).
    { destruct (getFrequentWords_sorted _ Ew) as (sorted & -> & _).
      apply firstn_le_length. }
    unfold generateMockKeywords, JsArrayMore.mapi.
    split; [rewrite mapiFrom_length; exact Hlen|].
    intros k e He. rewrite mapiFrom_nth in He.
    destruct (nth_error ws k) as [w|] eqn:Ew'; [|discriminate].
    cbn [option_map] in He. injection He as <-. cbn [MockKeyword.relevance].
    apply keywordRelevance_decimal.
    assert (nth_error ws k <> None) as Hk by congruence.
    apply nth_error_Some in Hk. lia. }
  split.
  { intros cats E. destruct (f_categories features); [|discriminate].
    injection E as <-. apply categories_nonempty. }
  split; [destruct (f_classifications features); cbn [snd]; simpl; lia|].
  split; [intros; reflexivity|].
  intros Hoff random' calls0. rewrite Hoff. reflexivity.
Qed.

Lemma X16_witness :
  exists response calls',
    generateMockResponse alwaysHalf (str "Soft bras with support") allFeatures
      someLimits 0 = Some (response, calls') /\
    calls' = 7.
Proof.
  destruct (generateMockResponse alwaysHalf (str "Soft bras with support")
              allFeatures someLimits 0) as [[response calls']|] eqn:E;
    [|vm_compute in E; discriminate E].
  exists response, calls'. split; [reflexivity|].
  destruct (@X16_response_follows_features _ _ _ _ _ _ _ E)
    as (_ & _ & _ & _ & _ & _ & _ & _ & _ & _ & Hcalls & _).
  exact Hcalls.
Defined.

End MockDataFacts.

(** * More properties of the hook *)

Section MatcherFacts.
Import RegExp.

Lemma skipn_nth_error (A : Type) (l : list A) (i : nat) (x : A) :
  nth_error l i = Some x -> skipn i l = x :: skipn (S i) l.
Proof.
  revert i; induction l as [|y l IH]; intros [|i] H; simpl in *;
    try discriminate.
  - injection H as ->. reflexivity.
  - apply IH, H.
Qed.

(** A literal pattern only steps over units that are the same up to
    case. *)
Lemma matchAt_literal_inv (s input : jsstring) (i : nat) (k : nat -> bool) :
  matchAt (literal s) input i k = true ->
  exists s' post,
    skipn i input = s' ++ post /\
    Forall2 (fun x c => sameChar x c = true) s' s /\
    k (i + length s) = true.
Proof.
  revert i; induction s as [|c s IH]; intros i H; simpl in H.
  - exists [], (skipn i input). rewrite Nat.add_0_r. auto.
  - destruct (nth_error input i) as [x|] eqn:Ex; [|discriminate].
    apply andb_true_iff in H as [Hx H].
    destruct (IH _ H) as (s' & post & Es & Hs & Hk).
    exists (x :: s'), post. split; [|split].
    + rewrite (skipn_nth_error _ _ Ex), Es. reflexivity.
    + constructor; assumption.
    + simpl. rewrite Nat.add_succ_r. exact Hk.
Qed.

Lemma test_inv (r : t) (input : jsstring) :
  test r input = true ->
  exists i, i <= length input /\ matchAt r input i (fun _ => true) = true.
Proof.
  unfold test. intros H. apply existsb_exists in H as (i & Hi & H).
  apply in_seq in Hi. exists i; split; [lia | exact H].
Qed.

(** On lower-cased units, the same up to case means the same. *)
Lemma sameChar_lower (a b : ascii) :
  sameChar (toLowerChar a) (toLowerChar b) = true ->
  toLowerChar a = toLowerChar b.
Proof.
  assert (Hall : forall c : ascii, In c (map ascii_of_nat (seq 0 256))).
  { intros c. rewrite <- (ascii_nat_embedding c). apply in_map, in_seq.
    pose proof (nat_ascii_bounded c). lia. }
  assert (Hcheck :
            forallb (fun x =>
              forallb (fun y =>
                implb (sameChar (toLowerChar x) (toLowerChar y))
                      (ascii_eqb (toLowerChar x) (toLowerChar y)))
                (map ascii_of_nat (seq 0 256)))
              (map ascii_of_nat (seq 0 256)) = true)
    by (vm_compute; reflexivity).
  rewrite forallb_forall in Hcheck. specialize (Hcheck a (Hall a)).
  rewrite forallb_forall in Hcheck. specialize (Hcheck b (Hall b)).
  intros H. rewrite H in Hcheck. apply ascii_eqb_true. exact Hcheck.
Qed.

Lemma trimStart_incl (s : jsstring) (c : ascii) : In c (trimStart s) -> In c s.
Proof.
  induction s as [|x s IH]; simpl; [trivial|].
  destruct (isWhiteSpace x); [right; apply IH; assumption | trivial].
Qed.

Lemma trim_incl (s : jsstring) (c : ascii) : In c (trim s) -> In c s.
Proof.
  unfold trim, trimEnd. intros H. apply in_rev in H.
  apply trimStart_incl in H. apply in_rev in H. apply trimStart_incl, H.
Qed.

Lemma Forall2_sameChar_lower (s' s : jsstring) :
  Forall isLower s' -> Forall isLower s ->
  Forall2 (fun x c => sameChar x c = true) s' s -> s' = s.
Proof.
  intros H1 H2 H; induction H as [|x c s' s Hxc _ IH]; [reflexivity|].
  inversion H1 as [|? ? [x0 ->] H1']; inversion H2 as [|? ? [c0 ->] H2']; subst.
  f_equal; [apply sameChar_lower, Hxc | apply IH; assumption].
Qed.

Lemma toLowerCase_isLower (s : jsstring) : Forall isLower (toLowerCase s).
Proof.
  apply Forall_forall; intros c Hc. apply in_map_iff in Hc as (c0 & <- & _).
  exists c0; reflexivity.
Qed.

Lemma lowerKeyword_isLower (keyword : jsstring) :
  Forall isLower (trim (toLowerCase keyword)).
Proof.
  pose proof (toLowerCase_isLower keyword) as H. rewrite Forall_forall in *.
  intros c Hc. apply H, trim_incl, Hc.
Qed.

(** Where the literal of a lower-cased keyword matches in lower-cased
    content, the keyword stands. *)
Lemma matchAt_lowerKeyword (keyword content : jsstring) (i : nat)
    (k : nat -> bool) :
  matchAt (literal (trim (toLowerCase keyword))) (toLowerCase content) i k = true ->
  i <= length (toLowerCase content) ->
  exists post,
    toLowerCase content
    = firstn i (toLowerCase content) ++ trim (toLowerCase keyword) ++ post /\
    k (i + length (trim (toLowerCase keyword))) = true.
Proof.
  intros H Hi. destruct (matchAt_literal_inv _ _ _ _ H) as (s' & post & Es & Hs & Hk).
  assert (s' = trim (toLowerCase keyword)) as ->.
  { apply Forall2_sameChar_lower; [|apply lowerKeyword_isLower | exact Hs].
    pose proof (toLowerCase_isLower content) as Hl. rewrite Forall_forall in *.
    intros c Hc. apply Hl. rewrite <- (firstn_skipn i (toLowerCase content)).
    apply in_or_app; right. rewrite Es. apply in_or_app; left; exact Hc. }
  exists post. split; [|exact Hk].
  rewrite <- Es. symmetry. apply firstn_skipn.
Qed.

(** The whole-word test of the generator accepts only keywords that
    occur in the content. *)
Lemma exactMatchB_includes (content keyword : jsstring) :
  exactMatchB content keyword = true ->
  includes (toLowerCase content) (trim (toLowerCase keyword)) = true.
Proof.
  unfold exactMatchB. intros H.
  apply test_inv in H as (i & Hi & H). cbn [matchAt] in H.
  apply orb_true_iff in H as [H|H].
  - apply andb_true_iff in H as [_ H].
    destruct (@matchAt_lowerKeyword _ _ _ _ H Hi) as (post & E & _).
    rewrite E. apply includes_app.
  - unfold delimiter in H. cbn [matchAt] in H.
    destruct (nth_error (toLowerCase content) i) as [x|] eqn:Ex;
      [|discriminate H].
    assert (Hi' : S i <= length (toLowerCase content)).
    { assert (nth_error (toLowerCase content) i <> None) as Hn by congruence.
      apply nth_error_Some in Hn. lia. }
    assert (Hm : matchAt (literal (trim (toLowerCase keyword)))
                   (toLowerCase content) (S i)
                   (fun j => matchAt (Alt Eol (Alt (Cls whiteSpaceClass)
                                                   (Cls punctuationClass)))
                                     (toLowerCase content) j (fun _ => true))
                 = true).
    { apply orb_true_iff in H as [H|H];
        apply andb_true_iff in H as [_ H]; exact H. }
    destruct (@matchAt_lowerKeyword _ _ _ _ Hm Hi') as (post & E & _).
    rewrite E. apply includes_app.
Qed.

End MatcherFacts.

Section TrimFacts.

Lemma trimStart_app (a b : jsstring) :
  trimStart a <> [] -> trimStart (a ++ b) = trimStart a ++ b.
Proof.
  induction a as [|c a IH]; simpl; [congruence|].
  destruct (isWhiteSpace c); [exact IH | reflexivity].
Qed.

Lemma trimStart_suffix (s : jsstring) : exists ws, s = ws ++ trimStart s.
Proof.
  induction s as [|c s [ws IH]]; simpl; [exists []; reflexivity|].
  destruct (isWhiteSpace c); [|exists []; reflexivity].
  exists (c :: ws). simpl. f_equal. exact IH.
Qed.

Lemma trimEnd_prefix (s : jsstring) : exists ws, s = trimEnd s ++ ws.
Proof.
  unfold trimEnd. destruct (trimStart_suffix (rev s)) as [ws E].
  exists (rev ws). rewrite <- rev_app_distr, <- E. symmetry; apply rev_involutive.
Qed.

Lemma trimEnd_snoc (s : jsstring) (c : ascii) :
  isWhiteSpace c = false -> trimEnd (s ++ [c]) = s ++ [c].
Proof.
  intros H. unfold trimEnd. rewrite rev_app_distr. simpl. rewrite H.
  simpl. rewrite rev_involutive. reflexivity.
Qed.

Lemma includes_refl (s : jsstring) : includes s s = true.
Proof.
  pose proof (includes_app [] s []) as H. simpl in H.
  rewrite app_nil_r in H. exact H.
Qed.

(** The text of a partial entry, lower-cased and trimmed, still holds
    the lower-cased and trimmed keyword. *)
Lemma partial_text_includes (keyword : jsstring) :
  includes (trim (toLowerCase (keyword ++ str " (partial)")))
           (trim (toLowerCase keyword)) = true.
Proof.
  rewrite toLowerCase_app. set (a := toLowerCase keyword).
  change (toLowerCase (str " (partial)")) with (str " (partial" ++ [")"%char]).
  unfold trim at 2. destruct (trimStart a) as [|x a'] eqn:Ea.
  - apply includes_empty.
  - unfold trim. rewrite trimStart_app by congruence.
    rewrite Ea, app_assoc, trimEnd_snoc by reflexivity.
    destruct (trimEnd_prefix (x :: a')) as [ws E].
    rewrite E at 1. rewrite <- !app_assoc.
    apply (includes_app [] (trimEnd (x :: a'))).
Qed.

End TrimFacts.

Section SurvivalFacts.

(** With at most 15 matching target keywords no target entry is cut. *)
Lemma targets_survive (content : jsstring) (targets : list jsstring)
    (st : MockState) (e : Keyword.t) :
  candidates content targets = Normal st ->
  length (filter (targetMatches content) targets) <= 15 ->
  In e (flat_map (targetKeywordEntries content) targets) ->
  In e (firstn 15 (JsArray.sort byRelevance (mockKeywords st))).
Proof.
  intros Hc Hlen He.
  destruct (candidates_eq content targets) as (st' & Hc' & Hp & _).
  rewrite Hc in Hc'; injection Hc' as <-.
  destruct (Pushed_Forall
              (fun e => In (Keyword.relevance e) phraseRelevances)
              (@PhrasePush_relevance _) Hp) as (S & E & HS).
  rewrite E, sort_app.
  - rewrite firstn_app. apply in_or_app; left.
    rewrite firstn_all2; [apply sort_In, He|].
    rewrite sort_length, targetEntries_length. exact Hlen.
  - intros x y Hx Hy. apply target_above_phrase.
    + pose proof (targets_relevance content targets) as HT.
      rewrite Forall_forall in HT. apply HT, Hx.
    + rewrite Forall_forall in HS. apply HS, Hy.
Qed.

End SurvivalFacts.

(** X1.  The escaping of a keyword is complete.  The escaped text reads
    back as the keyword, unit for unit, so nothing in a keyword acts as
    pattern syntax and neither [new RegExp] throws; a keyword without
    a unit of the escaped class is left as it is, and the escaped text
    is at most twice as long as the keyword. *)
Theorem X1_escaping_is_complete (keyword : jsstring) :
  RegExp.parseLiteral (RegExp.escapeRegExp keyword) = Some keyword /\
  returns (RegExp.wordBoundaryRegExp (RegExp.escapeRegExp keyword)) /\
  returns (RegExp.delimitedRegExp (RegExp.escapeRegExp keyword)) /\
  (Forall (fun c => RegExp.isEscaped c = false) keyword ->
   RegExp.escapeRegExp keyword = keyword) /\
  length keyword <= length (RegExp.escapeRegExp keyword) <= 2 * length keyword.
Proof.
  split; [apply RegExpFacts.parseLiteral_escapeRegExp|].
  split; [rewrite RegExpFacts.wordBoundaryRegExp_escape; eexists; reflexivity|].
  split; [rewrite RegExpFacts.delimitedRegExp_escape; eexists; reflexivity|].
  split.
  - induction 1 as [|c s Hc _ IH]; [reflexivity|].
    unfold RegExp.escapeRegExp in *. simpl. rewrite Hc, IH. reflexivity.
  - induction keyword as [|c s IH]; [simpl; lia|].
    unfold RegExp.escapeRegExp in *. simpl flat_map.
    rewrite length_app. destruct (RegExp.isEscaped c); simpl length; lia.
Qed.

(** X2.  Every candidate of relevance 0.95 or 0.8 is the entry of a
    target keyword: the exact entry when the whole-word test accepts the
    keyword, the partial entry when it does not.  For content and
    keywords over the code units 0..255, the strings of this
    development, the keyword of such an entry occurs, lower-cased and
    trimmed, in the lower-cased content, so that the generator reports
    no target keyword that the content does not hold.  For the partial
    entry that is the test of line 115.  For the exact entry it rests on
    the case folding of the flag [i], which on lower-cased units of this
    range relates equal units only ([sameChar_lower]); beyond
    the range it also relates distinct lower-case letters, the two small
    sigmas for one, and nothing is stated there. *)
Theorem X2_entries_only_for_present_keywords (content : jsstring)
    (targets : list jsstring) (st : MockState) (e : Keyword.t) :
  candidates content targets = Normal st ->
  In e (mockKeywords st) ->
  Keyword.relevance e = Number.d0_95 \/ Keyword.relevance e = Number.d0_8 ->
  exists keyword,
    In keyword targets /\
    includes (toLowerCase content) (trim (toLowerCase keyword)) = true /\
    ((e = exactKeyword keyword /\ exactMatchB content keyword = true)
     \/ (e = partialKeyword keyword /\ exactMatchB content keyword = false)).
Proof.
  intros Hc He Hrel.
  destruct (candidates_eq content targets) as (st' & Hc' & Hp & _).
  rewrite Hc in Hc'; injection Hc' as <-.
  destruct (Pushed_Forall
              (fun e => In (Keyword.relevance e) phraseRelevances)
              (@PhrasePush_relevance _) Hp) as (S & E & HS).
  rewrite E in He. apply in_app_or in He as [He|He].
  - apply in_flat_map in He as (keyword & Hk & He).
    exists keyword. split; [exact Hk|].
    unfold targetKeywordEntries in He.
    destruct (exactMatchB content keyword) eqn:Ex.
    + destruct He as [<-|[]]. split; [apply exactMatchB_includes, Ex | auto].
    + destruct (includes (toLowerCase content) (trim (toLowerCase keyword))) eqn:Ei;
        [|contradiction].
      destruct He as [<-|[]]. split; [reflexivity | auto].
  - exfalso. rewrite Forall_forall in HS. specialize (HS e He).
    destruct Hrel as [Hr|Hr]; rewrite Hr in HS; vm_compute in HS;
      repeat (destruct HS as [HS|HS]; [discriminate HS|]); exact HS.
Qed.

Lemma X2_witness :
  exists st,
    candidates (str "Great support for everyone") [str "support"; str "bras"]
    = Normal st /\
    In (exactKeyword (str "support")) (mockKeywords st) /\
    includes (toLowerCase (str "Great support for everyone"))
             (trim (toLowerCase (str "support"))) = true.
Proof.
  destruct (candidates_eq (str "Great support for everyone")
              [str "support"; str "bras"]) as (st & Hc & _).
  exists st. split; [exact Hc|].
  assert (He : In (exactKeyword (str "support")) (mockKeywords st)).
  { vm_compute in Hc. injection Hc as <-. left; reflexivity. }
  split; [exact He|].
  destruct (@X2_entries_only_for_present_keywords
              (str "Great support for everyone") [str "support"; str "bras"]
              st (exactKeyword (str "support")) Hc He (or_introl eq_refl))
    as (keyword & _ & _ & [[E _]|[E _]]).
  - injection E as <-. reflexivity.
  - discriminate E.
Defined.

Section RoundTripFacts.
Context {utils : KeywordUtils}.

(** A keyword whose entry is in the keyword list is a substring match
    at least. *)
Lemma entry_gives_substring (keyword : jsstring) (ks : list Keyword.t) :
  In (exactKeyword keyword) ks \/ In (partialKeyword keyword) ks ->
  some (keywordSubstring (trim (toLowerCase keyword))) ks = true.
Proof.
  intros H. apply existsb_exists. destruct H as [H|H].
  - exists (exactKeyword keyword). split; [exact H|].
    unfold keywordSubstring; simpl. rewrite includes_refl. reflexivity.
  - exists (partialKeyword keyword). split; [exact H|].
    unfold keywordSubstring; simpl. rewrite partial_text_includes. reflexivity.
Qed.

Lemma checkStructured_with_substring (keyword : jsstring) (r : AnalysisResult)
    (ks : list Keyword.t) :
  some (keywordSubstring (trim (toLowerCase keyword))) ks = true ->
  checkStructured keyword (trim (toLowerCase keyword)) (Some r) ks = Normal Exact
  \/ checkStructured keyword (trim (toLowerCase keyword)) (Some r) ks
     = Normal Partial.
Proof.
  intros H. unfold checkStructured. rewrite H.
  destruct (some (fun k => isExactKeywordMatch (Keyword.text k) keyword) ks);
    [left; reflexivity|].
  destruct (some (fun k => isPartialKeywordMatch (Keyword.text k) keyword) ks);
    right; reflexivity.
Qed.

(** X3.  Generating and then classifying: when a target keyword matches
    the content (as a whole word or as a substring) and at most 15
    target keywords match, [checkKeywordStatus] on the result of
    [mockAnalysisForKeywords] returns "exact" or "partial" for it,
    never "relevant" or "missing", whatever the helpers of
    [utils/keywordUtils] answer. *)
Theorem X3_generated_keyword_is_found (r : AnalysisResult) (content : jsstring)
    (targets : list jsstring) (keyword : jsstring) (out : AnalysisResult) :
  mockAnalysisForKeywords (Some r) content targets = Normal out ->
  In keyword targets ->
  keyword <> [] ->
  targetMatches content keyword = true ->
  length (filter (targetMatches content) targets) <= 15 ->
  checkKeywordStatus keyword (Some out) = Normal Exact
  \/ checkKeywordStatus keyword (Some out) = Normal Partial.
Proof.
  intros Hm Hin Hne Hmatch Hlen.
  destruct (candidates_eq content targets) as (st & Hc & _).
  rewrite (mock_present r _ _ Hc) in Hm. injection Hm as <-.
  set (ks := firstn 15 (JsArray.sort byRelevance (mockKeywords st))).
  assert (Hentry : In (exactKeyword keyword) ks \/ In (partialKeyword keyword) ks).
  { unfold targetMatches in Hmatch.
    destruct (exactMatchB content keyword) eqn:Ex.
    - left. apply (@targets_survive content targets st _ Hc Hlen).
      apply in_flat_map. exists keyword; split; [exact Hin|].
      unfold targetKeywordEntries. rewrite Ex. left; reflexivity.
    - right. apply (@targets_survive content targets st _ Hc Hlen).
      apply in_flat_map. exists keyword; split; [exact Hin|].
      unfold targetKeywordEntries. rewrite Ex. simpl in Hmatch. rewrite Hmatch.
      left; reflexivity. }
  match goal with
  | |- context [checkKeywordStatus keyword (Some ?o)] =>
      rewrite (@checkKeywordStatus_guarded _ keyword o ks Hne eq_refl)
  end.
  destruct (directTextMatch_returns (trim (toLowerCase keyword))
              (orEmpty (Some content))) as [[|] E];
    cbn [optimizedText]; rewrite E; cbn [bind]; [left; reflexivity|].
  apply checkStructured_with_substring, entry_gives_substring, Hentry.
Qed.

(** The whole-word test of the generator finds the keyword between
    delimiters, which are no word characters. *)
Lemma delimiter_not_word (x : ascii) :
  (existsb (RegExp.sameChar x) RegExp.whiteSpaceClass
   || existsb (RegExp.sameChar x) RegExp.punctuationClass)%bool = true ->
  RegExp.isWordChar x = false.
Proof. RegExpFacts.each_unit x; intros H; (discriminate H || reflexivity). Qed.

End RoundTripFacts.

Section GeneratorAgainstClassifier.
Import RegExp.

Lemma toLowerCase_lower (s : jsstring) : Forall isLower s -> toLowerCase s = s.
Proof.
  induction 1 as [|c s [c0 ->] _ IH]; simpl; [reflexivity|].
  rewrite MockDataFacts.toLowerChar_idempotent. f_equal. exact IH.
Qed.

Lemma firstn_S_nth (A : Type) (l : list A) (i : nat) (x : A) :
  nth_error l i = Some x -> firstn (S i) l = firstn i l ++ [x].
Proof.
  revert i; induction l as [|y l IH]; intros [|i] H; simpl in *;
    try discriminate.
  - injection H as ->. reflexivity.
  - f_equal. apply IH, H.
Qed.

(** What follows a match of the generator's pattern is no word
    character. *)
Lemma after_match_no_word (pre lk post : jsstring) :
  matchAt (Alt Eol delimiter) (pre ++ lk ++ post) (length pre + length lk)
          (fun _ => true) = true ->
  startsWithWordChar post = false.
Proof.
  intros H. unfold delimiter in H. cbn [matchAt] in H.
  rewrite app_assoc, <- length_app in H.
  destruct post as [|x post]; [reflexivity|].
  rewrite RegExpFacts.nth_error_middle in H.
  replace (length (pre ++ lk) =? length ((pre ++ lk) ++ x :: post)) with false in H
    by (symmetry; apply Nat.eqb_neq; rewrite !length_app; cbn [length]; lia).
  rewrite !andb_true_r in H. simpl orb in H.
  simpl. apply delimiter_not_word, H.
Qed.

(** When the generator's whole-word test accepts a keyword that starts
    and ends with a word character, the keyword has a whole-word match
    in the lower-cased content in the sense of [\b]. *)
Lemma generator_match_is_wholeWord (keyword content : jsstring) :
  exactMatchB content keyword = true ->
  startsWithWordChar (trim (toLowerCase keyword)) = true ->
  endsWithWordChar (trim (toLowerCase keyword)) = true ->
  WholeWordMatch keyword (toLowerCase content).
Proof.
  intros H Hs He. unfold exactMatchB in H.
  set (lk := trim (toLowerCase keyword)) in *.
  set (L := toLowerCase content) in *.
  assert (Hfound : exists pre post,
             L = pre ++ lk ++ post /\ endsWithWordChar pre = false /\
             startsWithWordChar post = false).
  { apply test_inv in H as (i & Hi & H). cbn [matchAt] in H.
    apply orb_true_iff in H as [H|H].
    - apply andb_true_iff in H as [H0 H].
      apply Nat.eqb_eq in H0; subst i.
      destruct (@matchAt_lowerKeyword _ _ _ _ H Hi) as (post & E & Hk).
      fold lk L in E, Hk. simpl firstn in E. exists [], post.
      split; [exact E|]. split; [reflexivity|].
      apply (after_match_no_word [] lk post). rewrite <- E. exact Hk.
    - unfold delimiter in H. cbn [matchAt] in H.
      destruct (nth_error L i) as [x|] eqn:Ex; [|discriminate H].
      assert (Hi' : S i <= length L).
      { assert (nth_error L i <> None) as Hn by congruence.
        apply nth_error_Some in Hn. lia. }
      assert (Hx : (existsb (sameChar x) whiteSpaceClass
                    || existsb (sameChar x) punctuationClass)%bool = true).
      { apply orb_true_iff in H as [H|H];
          apply andb_true_iff in H as [H _]; rewrite H;
          rewrite ?orb_true_r; reflexivity. }
      assert (Hm : matchAt (literal lk) L (S i)
                     (fun j => matchAt (Alt Eol (Alt (Cls whiteSpaceClass)
                                                     (Cls punctuationClass)))
                                       L j (fun _ => true)) = true).
      { apply orb_true_iff in H as [H|H];
          apply andb_true_iff in H as [_ H]; exact H. }
      destruct (@matchAt_lowerKeyword _ _ _ _ Hm Hi') as (post & E & Hk).
      fold lk L in E, Hk. exists (firstn (S i) L), post.
      split; [exact E|]. split.
      + rewrite (firstn_S_nth _ _ Ex). unfold endsWithWordChar.
        rewrite rev_app_distr. simpl. apply delimiter_not_word, Hx.
      + apply (after_match_no_word (firstn (S i) L) lk post).
        rewrite <- E. rewrite firstn_length_le by exact Hi'. exact Hk. }
  destruct Hfound as (pre & post & E & Hpre & Hpost).
  exists pre, lk, post. split; [exact E|].
  split; [apply toLowerCase_lower, lowerKeyword_isLower|].
  unfold wordBoundary.
  rewrite Hpre, Hpost, (startsWithWordChar_app _ post Hs),
    (endsWithWordChar_app pre _ He).
  split; discriminate.
Qed.

End GeneratorAgainstClassifier.

Section ProductKeywordFacts.
Context {utils : KeywordUtils}.

(** X4.  The two whole-word tests agree on product keywords.  When the
    generator's test accepts a target keyword that contains "bras" and
    starts and ends with a word character (it pushes the entry of
    relevance 0.95 and the ProductType entity), [checkKeywordStatus]
    returns "exact" for it on the result of the generator, whatever the
    other target keywords are and whether or not the entry survived the
    cut to 15. *)
Theorem X4_product_keyword_round_trip (r : AnalysisResult) (content : jsstring)
    (targets : list jsstring) (keyword : jsstring) (out : AnalysisResult) :
  mockAnalysisForKeywords (Some r) content targets = Normal out ->
  includes (toLowerCase keyword) bras = true ->
  exactMatchB content keyword = true ->
  startsWithWordChar (trim (toLowerCase keyword)) = true ->
  endsWithWordChar (trim (toLowerCase keyword)) = true ->
  checkKeywordStatus keyword (Some out) = Normal Exact.
Proof.
  intros Hm Hb Hx Hs He.
  destruct (candidates_eq content targets) as (st & Hc & _).
  rewrite (mock_present r _ _ Hc) in Hm. injection Hm as <-.
  assert (Hne : keyword <> []) by (intros ->; discriminate Hb).
  match goal with
  | |- context [checkKeywordStatus keyword (Some ?o)] =>
      rewrite (@checkKeywordStatus_guarded _ keyword o _ Hne eq_refl)
  end.
  cbn [optimizedText orEmpty].
  pose proof (generator_match_is_wholeWord _ _ Hx Hs He) as Hw.
  pose proof (test_wholeWord Hw) as Ht.
  rewrite (@toLowerCase_lower (toLowerCase content)) in Ht
    by apply toLowerCase_isLower.
  unfold directTextMatch.
  rewrite (includes_trim_bras _ Hb), RegExpFacts.wordBoundaryRegExp_escape.
  cbn [bind]. rewrite Ht.
  destruct content as [|c content]; [|reflexivity].
  destruct Hw as (pre & mid & post & E & Hmid & _).
  destruct pre; [|discriminate E]. destruct mid; [|discriminate E].
  apply includes_trim_bras in Hb. rewrite <- Hmid in Hb. discriminate Hb.
Qed.

End ProductKeywordFacts.

Lemma X3_witness :
  exists out,
    mockAnalysisForKeywords (Some noProperties) (str "Great support for everyone")
      [str "support"] = Normal out /\
    (checkKeywordStatus (utils := silentUtils) (str "support") (Some out)
     = Normal Exact
     \/ checkKeywordStatus (utils := silentUtils) (str "support") (Some out)
        = Normal Partial).
Proof.
  destruct (mockAnalysisForKeywords (Some noProperties)
              (str "Great support for everyone") [str "support"])
    as [out|] eqn:E; [|vm_compute in E; discriminate E].
  exists out. split; [reflexivity|].
  apply (@X3_generated_keyword_is_found silentUtils noProperties
           (str "Great support for everyone") [str "support"] (str "support")
           out E).
  - left; reflexivity.
  - discriminate.
  - reflexivity.
  - vm_compute. repeat constructor.
Defined.

Lemma X4_witness :
  exists out,
    mockAnalysisForKeywords (Some noProperties) wirelessContent
      [str "support"; str "wireless bras"] = Normal out /\
    checkKeywordStatus (utils := silentUtils) (str "wireless bras") (Some out)
    = Normal Exact.
Proof.
  destruct (mockAnalysisForKeywords (Some noProperties) wirelessContent
              [str "support"; str "wireless bras"])
    as [out|] eqn:E; [|vm_compute in E; discriminate E].
  exists out. split; [reflexivity|].
  apply (@X4_product_keyword_round_trip silentUtils noProperties wirelessContent
           [str "support"; str "wireless bras"] (str "wireless bras") out E);
    vm_compute; reflexivity.
Defined.

Section PhraseEntityFacts.

Lemma PushedEntities_trans P (l1 l2 l3 : list Entity.t) :
  PushedEntities P l1 l2 -> PushedEntities P l2 l3 -> PushedEntities P l1 l3.
Proof.
  intros H12 H23; induction H23; [exact H12|].
  apply PushedEntities_one; assumption.
Qed.

Lemma PushedEntities_inv P (base l : list Entity.t) :
  PushedEntities P base l ->
  exists added, l = base ++ added /\
    forall l1 e l2, added = l1 ++ e :: l2 -> P (base ++ l1) e.
Proof.
  induction 1 as [|l e Hl (added & -> & IH) He].
  - exists []; split; [symmetry; apply app_nil_r|].
    intros [|? ?] ? ? E; discriminate E.
  - exists (added ++ [e]); split; [symmetry; apply app_assoc|].
    intros l1 e' l2 E.
    destruct l2 as [|x l2' _] using rev_ind.
    + apply app_inj_tail in E as [-> ->]. exact He.
    + change (l1 ++ e' :: l2' ++ [x]) with (l1 ++ (e' :: l2') ++ [x]) in E.
      rewrite app_assoc in E. apply app_inj_tail in E as [E _].
      apply (IH _ _ _ E).
Qed.

Lemma phraseStep_pushedEntities (words : list jsstring) (i j : nat)
    (st : MockState) :
  PushedEntities PhraseEntityPush (mockEntities st)
                 (mockEntities (phraseStep words i j st)).
Proof.
  unfold phraseStep.
  destruct (i + j <=? length words); [|apply PushedEntities_none].
  set (phrase := join (str " ") (slice words i j)).
  destruct (_ || _)%bool; [apply PushedEntities_none|].
  cbn [pushKeyword mockEntities].
  destruct (includes (toLowerCase phrase) bras) eqn:Eb;
    [|apply PushedEntities_none].
  destruct (some (sameTextE phrase) (mockEntities st)) eqn:Ed;
    [apply PushedEntities_none|].
  cbn [andb negb pushEntity mockEntities].
  apply PushedEntities_one; [apply PushedEntities_none|].
  exists phrase. split; [reflexivity|]. split; [exact Eb|].
  intros e' He' E. unfold some in Ed.
  assert (sameTextE phrase e' = true) as Hs
    by (apply streq_true; exact E).
  assert (existsb (sameTextE phrase) (mockEntities st) = true) as Hex
    by (apply existsb_exists; eauto).
  congruence.
Qed.

Lemma phraseLoop_pushedEntities (words : list jsstring) (st : MockState) :
  PushedEntities PhraseEntityPush (mockEntities st)
                 (mockEntities (phraseLoop words st)).
Proof.
  unfold phraseLoop. generalize (seq 0 (length words)) as idx.
  intros idx; revert st; induction idx as [|i idx IH]; intros st; simpl;
    [apply PushedEntities_none|].
  eapply PushedEntities_trans; [|apply IH].
  eapply PushedEntities_trans; [|apply phraseStep_pushedEntities].
  eapply PushedEntities_trans; [|apply phraseStep_pushedEntities].
  apply phraseStep_pushedEntities.
Qed.

(** X5.  The phrase loop only appends to the entity list.  Every entity
    it appends has the type ProductType, relevance 0.7 and confidence
    0.8, a text that contains "bras" up to case, and a text that
    differs up to case from the text of every entity in the list at the
    time of its insertion. *)
Theorem X5_phrase_entities_fresh (words : list jsstring) (st : MockState) :
  exists added,
    mockEntities (phraseLoop words st) = mockEntities st ++ added /\
    forall l1 e l2, added = l1 ++ e :: l2 ->
      Entity.type e = str "ProductType" /\
      Entity.relevance e = Number.d0_7 /\
      Entity.confidence e = Number.d0_8 /\
      includes (toLowerCase (Entity.text e)) bras = true /\
      forall e', In e' (mockEntities st ++ l1) ->
        toLowerCase (Entity.text e') <> toLowerCase (Entity.text e).
Proof.
  destruct (PushedEntities_inv (phraseLoop_pushedEntities words st))
    as (added & E & H).
  exists added; split; [exact E|].
  intros l1 e l2 Ea. destruct (H _ _ _ Ea) as (phrase & -> & Hb & Hfresh).
  repeat split; try reflexivity; assumption.
Qed.

End PhraseEntityFacts.
